(** * Vectara financial dashboard: client, upload loop and metric extractor

    A shallow embedding of [src/app.py]: the [VectaraClient] class
    (lines 28-206), [initialize_vectara] (208-219),
    [extract_metrics_from_response] (221-247) and the Streamlit handlers
    that drive them (sidebar buttons, upload, query and comparison tabs),
    with what the tabs display: the listing of the corpus (332-343), the
    uploaded files (412-415) and the conversation (457-480).  The table,
    the chart and the CSV export of the comparison tab (517-549) are the
    work of pandas and are left out.

    Python values are modelled as follows.
    - [str] is [string]; the regular-expression engine works on
      [list ascii].  Characters are ASCII: the classes [\d], [\s], [\w]
      and case folding are those of Python on code points below 128.
    - a parsed JSON body is [JSON]; Python's [None] is [JNull].
    - a call either returns, raises a Python exception, or leaves the
      fragment of Python's [re] syntax that this development covers
      ([Beyond]); nothing is proved about the last case.
    - the remote service is a function from the calls made so far and the
      current request to an outcome; every call is recorded in a log. *)

From Stdlib Require Import ZArith QArith Ascii String.
From Stdlib.Strings Require Import Byte.
From stdpp Require Import gmap strings list pretty.

Local Open Scope string_scope.
Local Open Scope list_scope.

(** ** Outcomes of a Python call *)

Inductive exn : Type :=
| RequestException (msg : string)   (* raised by requests.get / requests.post *)
| JSONDecodeError (msg : string)    (* raised by response.json() *)
| ValueError (msg : string)
| TypeError (msg : string)
| KeyError (msg : string)
| AttributeError (msg : string)
| re_error (msg : string).          (* re.error, without its position suffix *)

(** [str(e)] *)
Definition str_exn (e : exn) : string :=
  match e with
  | RequestException m | JSONDecodeError m | ValueError m | TypeError m
  | KeyError m | AttributeError m | re_error m => m
  end.

Inductive res (A : Type) : Type :=
| Ret (a : A)
| Raise (e : exn)
| Beyond (what : string).
Arguments Ret {A} a.
Arguments Raise {A} e.
Arguments Beyond {A} what.

#[global] Instance res_ret : MRet res := @Ret.
#[global] Instance res_bind : MBind res := λ A B f m,
  match m with
  | Ret a => f a
  | Raise e => Raise e
  | Beyond w => Beyond w
  end.

Definition returns {A} (r : res A) : Prop := ∃ a, r = Ret a.

(** ** Characters *)

Definition code (c : ascii) : nat := nat_of_ascii c.

Definition between (lo hi : nat) (c : ascii) : bool :=
  (lo <=? code c)%nat && (code c <=? hi)%nat.

Definition is_digit (c : ascii) : bool := between 48 57 c.
Definition is_upper (c : ascii) : bool := between 65 90 c.
Definition is_lower (c : ascii) : bool := between 97 122 c.
Definition is_alpha (c : ascii) : bool := is_upper c || is_lower c.
Definition is_alnum (c : ascii) : bool := is_alpha c || is_digit c.

(** Whitespace as [str.isspace] and [\s] see it below 128:
    tab, newline, vertical tab, form feed, carriage return,
    the four separators 0x1c-0x1f and the space. *)
Definition is_space (c : ascii) : bool :=
  between 9 13 c || between 28 31 c || (code c =? 32)%nat.

Definition is_word (c : ascii) : bool := is_alnum c || (code c =? 95)%nat.

Definition lower (c : ascii) : ascii :=
  if is_upper c then ascii_of_nat (code c + 32) else c.
Definition upper (c : ascii) : ascii :=
  if is_lower c then ascii_of_nat (code c - 32) else c.

(** Equality of characters under [re.IGNORECASE]. *)
Definition ieq (a b : ascii) : bool := bool_decide (lower a = lower b).

(** ** Regular expressions: the fragment of Python's [re] in use *)

Inductive category : Type := CatDigit | CatSpace | CatWord.

Inductive set_item : Type :=
| SChar (c : ascii)
| SRange (lo hi : ascii)
| SCat (neg : bool) (k : category).

Inductive regex : Type :=
| REmpty
| RLit (c : ascii)                       (* a literal character *)
| RAny                                   (* .  *)
| RIn (neg : bool) (items : list set_item)   (* [...] and \d \s \w *)
| RSeq (a b : regex)
| RAlt (a b : regex)                     (* a|b *)
| RRep (lo : nat) (hi : option nat) (a : regex)  (* greedy a{lo,hi} *)
| RGroup (n : option nat) (a : regex).   (* (a) numbered, (?:a) not *)

Definition in_category (k : category) (c : ascii) : bool :=
  match k with
  | CatDigit => is_digit c
  | CatSpace => is_space c
  | CatWord => is_word c
  end.

(** Set membership under [re.IGNORECASE]: a literal or a range matches
    when either case variant of the character falls in it. *)
Definition item_matches (c : ascii) (it : set_item) : bool :=
  match it with
  | SChar x => ieq x c
  | SRange lo hi =>
      between (code lo) (code hi) (lower c) || between (code lo) (code hi) (upper c)
  | SCat neg k => xorb neg (in_category k c)
  end.

Definition set_matches (neg : bool) (items : list set_item) (c : ascii) : bool :=
  xorb neg (existsb (item_matches c) items).

(** Can the expression match the empty string? *)
Fixpoint nullable (r : regex) : bool :=
  match r with
  | REmpty => true
  | RLit _ | RAny | RIn _ _ => false
  | RSeq a b => nullable a && nullable b
  | RAlt a b => nullable a || nullable b
  | RRep lo _ a => (lo =? 0)%nat || nullable a
  | RGroup _ a => nullable a
  end.

(** ** The backtracking matcher

    Alternatives are tried left to right and repetitions are greedy, as
    in Python's engine.  A match continues with [k] on the rest of the
    text; [None] makes the matcher backtrack.  [pos] counts the
    characters consumed since the start of the match, and the group table
    maps a group number to the text it captured last. *)

Abbreviation caps := (gmap nat (list ascii)).
Abbreviation cont := (nat → list ascii → caps → option caps).

Definition may_iterate (hi : option nat) : bool :=
  match hi with
  | Some 0 => false
  | _ => true
  end.

(** The end of a repetition: the rest of the pattern, once the lower
    bound is met. *)
Definition rep_stop (lo : nat) (pos : nat) (s : list ascii) (cs : caps)
    (k : cont) : option caps :=
  if decide (lo = 0)%nat then k pos s cs else None.

(** [a{lo,hi}]: one more round of the body first, then the rest of the
    pattern.  A round has to consume text ([re_compile] lets through no
    body that can match the empty string), so the length of the text
    bounds the number of rounds and [fuel], one more than that length,
    does not run out. *)
Fixpoint rep_loop (body : nat → list ascii → caps → cont → option caps)
    (lo : nat) (hi : option nat) (fuel : nat)
    (pos : nat) (s : list ascii) (cs : caps) (k : cont) : option caps :=
  match fuel with
  | O => rep_stop lo pos s cs k
  | S fuel' =>
      if may_iterate hi then
        match body pos s cs (λ pos' s' cs',
                if decide (pos < pos')%nat
                then rep_loop body (pred lo) (pred <$> hi) fuel' pos' s' cs' k
                else None) with
        | Some r => Some r
        | None => rep_stop lo pos s cs k
        end
      else rep_stop lo pos s cs k
  end.

Fixpoint rmatch (r : regex) (pos : nat) (s : list ascii) (cs : caps) (k : cont)
    {struct r} : option caps :=
  match r with
  | REmpty => k pos s cs
  | RLit c =>
      match s with
      | x :: s' => if ieq c x then k (S pos) s' cs else None
      | [] => None
      end
  | RAny =>
      match s with
      | x :: s' => if decide (code x = 10)%nat then None else k (S pos) s' cs
      | [] => None
      end
  | RIn neg items =>
      match s with
      | x :: s' => if set_matches neg items x then k (S pos) s' cs else None
      | [] => None
      end
  | RSeq a b => rmatch a pos s cs (λ p1 s1 c1, rmatch b p1 s1 c1 k)
  | RAlt a b =>
      match rmatch a pos s cs k with
      | Some r => Some r
      | None => rmatch b pos s cs k
      end
  | RRep lo hi a => rep_loop (rmatch a) lo hi (S (length s)) pos s cs k
  | RGroup None a => rmatch a pos s cs k
  | RGroup (Some n) a =>
      rmatch a pos s cs (λ p1 s1 c1, k p1 s1 (<[n := take (p1 - pos) s]> c1))
  end.

(** A match of [r] at the start of [s]: the group table. *)
Definition match_here (r : regex) (s : list ascii) : option caps :=
  rmatch r 0 s ∅ (λ _ _ c, Some c).

(** [re.search]: the leftmost position where the pattern matches. *)
Fixpoint search_from (r : regex) (s : list ascii) : option caps :=
  match match_here r s with
  | Some c => Some c
  | None =>
      match s with
      | [] => None
      | _ :: s' => search_from r s'
      end
  end.

(** ** Parsing a pattern

    The parser follows [re._parser]: a sequence of items, [|] between
    alternatives, groups numbered by their opening parenthesis, and a
    repeat operator acting on the item before it.  Syntax outside the
    fragment (anchors, look-around, back-references, lazy and possessive
    repeats, named or numeric escapes, repeats of an expression that can
    match the empty string) is reported as [PBeyond]. *)

Inductive parsed : Type :=
| POk (r : regex) (rest : list ascii) (groups : nat)
| PErr (msg : string)
| PBeyond (what : string)
| PFuel.

(** SPECIAL_CHARS of [re._parser] *)
Definition special_chars : list ascii :=
  list_ascii_of_string ".\[{()*+?^$|".

Definition is_special (c : ascii) : bool := existsb (Ascii.eqb c) special_chars.

Definition seq_of (items : list regex) : regex := foldr RSeq REmpty items.

(** [alts] holds the alternatives closed so far and [acc] the items of
    the current one, both latest first. *)
Definition finish (alts acc : list regex) : regex :=
  fold_left (λ r a, RAlt a r) alts (seq_of (rev acc)).

(** The tokenizer reads one token ahead, so a pattern that ends in a lone
    backslash fails as soon as the token before it is consumed. *)
Definition err_at (rest : list ascii) (msg : string) : string :=
  match rest with
  | [c] => if Ascii.eqb c "\" then "bad escape (end of pattern)" else msg
  | _ => msg
  end.

(** A backslash escape, inside or outside a set. *)
Definition escape (c : ascii) : option set_item :=
  if Ascii.eqb c "d" then Some (SCat false CatDigit)
  else if Ascii.eqb c "D" then Some (SCat true CatDigit)
  else if Ascii.eqb c "s" then Some (SCat false CatSpace)
  else if Ascii.eqb c "S" then Some (SCat true CatSpace)
  else if Ascii.eqb c "w" then Some (SCat false CatWord)
  else if Ascii.eqb c "W" then Some (SCat true CatWord)
  else if Ascii.eqb c "n" then Some (SChar (ascii_of_nat 10))
  else if Ascii.eqb c "t" then Some (SChar (ascii_of_nat 9))
  else if Ascii.eqb c "r" then Some (SChar (ascii_of_nat 13))
  else if Ascii.eqb c "f" then Some (SChar (ascii_of_nat 12))
  else if Ascii.eqb c "v" then Some (SChar (ascii_of_nat 11))
  else if Ascii.eqb c "a" then Some (SChar (ascii_of_nat 7))
  else if is_alnum c then None
  else Some (SChar c).

Definition item_regex (it : set_item) : regex :=
  match it with
  | SChar c => RLit c
  | _ => RIn false [it]
  end.

(** *** Character sets *)

Inductive set_parsed : Type :=
| SOk (items : list set_item) (rest : list ascii)
| SErr (msg : string)
| SBeyond (what : string)
| SFuel.

Inductive set_tok : Type :=
| TItem (it : set_item) (closing : bool) (rest : list ascii)
| TEnd
| TDangling
| TBeyond.

Definition set_token (s : list ascii) : set_tok :=
  match s with
  | [] => TEnd
  | c :: rest =>
      if Ascii.eqb c "\" then
        match rest with
        | [] => TDangling
        | e :: rest' =>
            match escape e with
            | Some it => TItem it false rest'
            | None => TBeyond
            end
        end
      else TItem (SChar c) (Ascii.eqb c "]") rest
  end.

Fixpoint parse_set (fuel : nat) (s : list ascii) (acc : list set_item) : set_parsed :=
  match fuel with
  | O => SFuel
  | S fuel' =>
      match set_token s with
      | TEnd => SErr "unterminated character set"
      | TDangling => SErr "bad escape (end of pattern)"
      | TBeyond => SBeyond "escape"
      | TItem it closing rest =>
          if closing && negb (bool_decide (acc = [])) then SOk (rev acc) rest
          else
            match rest with
            | d :: rest1 =>
                if Ascii.eqb d "-" then
                  match set_token rest1 with
                  | TEnd => SErr "unterminated character set"
                  | TDangling => SErr "bad escape (end of pattern)"
                  | TBeyond => SBeyond "escape"
                  | TItem it2 closing2 rest2 =>
                      if closing2 then SOk (rev (SChar "-" :: it :: acc)) rest2
                      else
                        match it, it2 with
                        | SChar lo, SChar hi =>
                            if (code hi <? code lo)%nat
                            then SErr (err_at rest2 "bad character range")
                            else parse_set fuel' rest2 (SRange lo hi :: acc)
                        | _, _ => SErr (err_at rest2 "bad character range")
                        end
                  end
                else parse_set fuel' rest (it :: acc)
            | [] => parse_set fuel' rest (it :: acc)
            end
      end
  end.

(** *** Repeat operators *)

Fixpoint span_digits (s : list ascii) : list ascii * list ascii :=
  match s with
  | c :: rest =>
      if is_digit c
      then let '(d, r) := span_digits rest in (c :: d, r)
      else ([], s)
  | [] => ([], [])
  end.

Definition digits_value (d : list ascii) : N :=
  fold_left (λ n c, n * 10 + N.of_nat (code c - 48))%N d 0%N.

(** What follows an opening brace: [Some (lo, hi, rest)] when it is a
    repeat count [{lo}], [{lo,}], [{,hi}], [{lo,hi}] or [{,}]; otherwise
    the brace is a literal character. *)
Definition parse_brace (s : list ascii) : option (N * option N * list ascii) :=
  let '(lo, r1) := span_digits s in
  match r1 with
  | c :: r2 =>
      if Ascii.eqb c "," then
        let '(hi, r3) := span_digits r2 in
        match r3 with
        | c' :: rest =>
            if Ascii.eqb c' "}"
            then Some (digits_value lo,
                       if bool_decide (hi = []) then None else Some (digits_value hi),
                       rest)
            else None
        | [] => None
        end
      else if Ascii.eqb c "}" then
        if bool_decide (lo = []) then None
        else Some (digits_value lo, Some (digits_value lo), r2)
      else None
  | [] => None
  end.

Inductive repeated : Type :=
| QOk (acc : list regex)
| QErr (msg : string)
| QBeyond (what : string).

(** Apply a repeat to the last item of [acc]; [rest] is the pattern
    after the operator. *)
Definition apply_repeat (lo : nat) (hi : option nat)
    (rest : list ascii) (acc : list regex) : repeated :=
  match acc with
  | [] => QErr (err_at rest "nothing to repeat")
  | RRep _ _ _ :: _ => QErr (err_at rest "multiple repeat")
  | item :: acc' =>
      match rest with
      | c :: _ =>
          if Ascii.eqb c "?" then QBeyond "lazy repeat"
          else if Ascii.eqb c "+" then QBeyond "possessive repeat"
          else if nullable item then QBeyond "repeat of an empty match"
          else QOk (RRep lo hi item :: acc')
      | [] =>
          if nullable item then QBeyond "repeat of an empty match"
          else QOk (RRep lo hi item :: acc')
      end
  end.

Definition repeat_limit : N := 1000.

(** *** The pattern *)

Fixpoint parse (fuel : nat) (s : list ascii) (gc : nat)
    (alts acc : list regex) {struct fuel} : parsed :=
  match s with
  | [] => POk (finish alts acc) [] gc
  | c :: rest =>
      match fuel with
      | O => PFuel
      | S fuel' =>
          let repeat lo hi rest' :=
            match apply_repeat lo hi rest' acc with
            | QOk acc' => parse fuel' rest' gc alts acc'
            | QErr m => PErr m
            | QBeyond w => PBeyond w
            end in
          let group n body gc' :=
            match parse fuel' body gc' [] [] with
            | POk r (_ :: rest') gc'' =>
                parse fuel' rest' gc'' alts (RGroup n r :: acc)
            | POk _ [] _ => PErr "missing ), unterminated subpattern"
            | e => e
            end in
          if negb (is_special c) then parse fuel' rest gc alts (RLit c :: acc)
          else if Ascii.eqb c ")" then POk (finish alts acc) s gc
          else if Ascii.eqb c "|" then
            parse fuel' rest gc (seq_of (rev acc) :: alts) []
          else if Ascii.eqb c "\" then
            match rest with
            | [] => PErr "bad escape (end of pattern)"
            | e :: rest' =>
                match escape e with
                | Some it => parse fuel' rest' gc alts (item_regex it :: acc)
                | None => PBeyond "escape"
                end
            end
          else if Ascii.eqb c "." then parse fuel' rest gc alts (RAny :: acc)
          else if Ascii.eqb c "[" then
            let '(neg, body) :=
              match rest with
              | x :: rest' => if Ascii.eqb x "^" then (true, rest') else (false, rest)
              | [] => (false, rest)
              end in
            match parse_set (S (length body)) body [] with
            | SOk items rest' => parse fuel' rest' gc alts (RIn neg items :: acc)
            | SErr m => PErr m
            | SBeyond w => PBeyond w
            | SFuel => PFuel
            end
          else if Ascii.eqb c "(" then
            match rest with
            | x :: rest' =>
                if Ascii.eqb x "?" then
                  match rest' with
                  | y :: body =>
                      if Ascii.eqb y ":" then group None body gc
                      else PBeyond "group extension"
                  | [] => PBeyond "group extension"
                  end
                else group (Some (S gc)) rest (S gc)
            | [] => group (Some (S gc)) rest (S gc)
            end
          else if Ascii.eqb c "?" then repeat 0%nat (Some 1%nat) rest
          else if Ascii.eqb c "*" then repeat 0%nat None rest
          else if Ascii.eqb c "+" then repeat 1%nat None rest
          else if Ascii.eqb c "{" then
            match parse_brace rest with
            | None => parse fuel' rest gc alts (RLit c :: acc)
            | Some (lo, hi, rest') =>
                if (repeat_limit <=? lo)%N || (repeat_limit <=? default 0%N hi)%N
                then PBeyond "repeat count"
                else if bool_decide (default lo hi < lo)%N
                then PErr (err_at rest' "min repeat greater than max repeat")
                else repeat (N.to_nat lo) (N.to_nat <$> hi) rest'
            end
          else PBeyond "anchor"
      end
  end.

(** [re.compile] of a pattern (flags: [re.IGNORECASE]). *)
Definition re_compile (pattern : string) : res regex :=
  let s := list_ascii_of_string pattern in
  match parse (length s) s 0 [] [] with
  | POk r [] _ => Ret r
  | POk _ (_ :: _) _ => Raise (re_error "unbalanced parenthesis")
  | PErr m => Raise (re_error m)
  | PBeyond w => Beyond w
  | PFuel => Beyond "fuel"
  end.

(** [re.search(pattern, text, re.IGNORECASE)]: the group table of the
    leftmost match, or [None]. *)
Definition re_search (pattern text : string) : res (option caps) :=
  r ← re_compile pattern;
  mret (search_from r (list_ascii_of_string text)).

(** [g.replace(",", "")] *)
Definition without_commas (g : list ascii) : string :=
  string_of_list_ascii (filter (λ c, c ≠ ","%char) g).

(** [match.group(1).replace(",", "")]; a group that took no part in the
    match is [None], which has no [replace]. *)
Definition group1_without_commas (m : caps) : res string :=
  match m !! 1%nat with
  | Some g => mret (without_commas g)
  | None => Raise (AttributeError "'NoneType' object has no attribute 'replace'")
  end.

(** ** JSON values and the Python operations applied to them

    The texts of the [TypeError]s are indicative; they differ between
    Python versions and nothing below depends on them. *)

#[local] Unset Elimination Schemes.
Inductive JSON : Type :=
| JNull
| JBool (b : bool)
| JNum (q : Q)
| JStr (s : string)
| JArr (items : list JSON)
| JObj (fields : list (string * JSON)).
#[local] Set Elimination Schemes.

Definition type_name (v : JSON) : string :=
  match v with
  | JNull => "NoneType"
  | JBool _ => "bool"
  | JNum _ => "number"
  | JStr _ => "str"
  | JArr _ => "list"
  | JObj _ => "dict"
  end.

(** [bool(v)] *)
Definition truthy (v : JSON) : bool :=
  match v with
  | JNull => false
  | JBool b => b
  | JNum q => negb (Qeq_bool q 0)
  | JStr s => negb (bool_decide (s = ""))
  | JArr items => negb (bool_decide (length items = 0%nat))
  | JObj fields => negb (bool_decide (length fields = 0%nat))
  end.

Fixpoint assoc (key : string) (fields : list (string * JSON)) : option JSON :=
  match fields with
  | [] => None
  | (k, v) :: fields' => if bool_decide (k = key) then Some v else assoc key fields'
  end.

Fixpoint is_prefix (p s : list ascii) : bool :=
  match p, s with
  | [], _ => true
  | a :: p', b :: s' => Ascii.eqb a b && is_prefix p' s'
  | _ :: _, [] => false
  end.

Fixpoint is_substring (p s : list ascii) : bool :=
  is_prefix p s ||
  match s with
  | [] => false
  | _ :: s' => is_substring p s'
  end.

Definition is_str (key : string) (v : JSON) : bool :=
  match v with
  | JStr s => bool_decide (s = key)
  | _ => false
  end.

(** [key in v] for a string [key] *)
Definition py_contains (key : string) (v : JSON) : res bool :=
  match v with
  | JObj fields => mret (bool_decide (is_Some (assoc key fields)))
  | JArr items => mret (existsb (is_str key) items)
  | JStr s => mret (is_substring (list_ascii_of_string key) (list_ascii_of_string s))
  | _ => Raise (TypeError ("argument of type '" +:+ type_name v +:+ "' is not iterable"))
  end.

(** [v[key]] for a string [key] *)
Definition py_getitem (v : JSON) (key : string) : res JSON :=
  match v with
  | JObj fields =>
      match assoc key fields with
      | Some x => mret x
      | None => Raise (KeyError key)
      end
  | JArr _ | JStr _ =>
      Raise (TypeError (type_name v +:+ " indices must be integers"))
  | _ => Raise (TypeError ("'" +:+ type_name v +:+ "' object is not subscriptable"))
  end.

(** [v[:5]] followed by iteration *)
Definition py_first5 (v : JSON) : res (list JSON) :=
  match v with
  | JArr items => mret (take 5 items)
  | JStr s => mret ((λ c, JStr (String c "")) <$> take 5 (list_ascii_of_string s))
  | JObj _ => Raise (TypeError "unhashable type: 'slice'")
  | _ => Raise (TypeError ("'" +:+ type_name v +:+ "' object is not subscriptable"))
  end.

(** [" " + v] *)
Definition py_space_plus (v : JSON) : res string :=
  match v with
  | JStr s => mret (" " +:+ s)
  | _ => Raise (TypeError "can only concatenate str to str")
  end.

(** ** The metric extractor ([extract_metrics_from_response], lines 221-247) *)

Definition default_metric_names : list string :=
  ["Revenue"; "Net Profit"; "Gross Profit"; "Total Assets"; "Total Liabilities"].

(** The two patterns of lines 236-239, after the metric name. *)
Definition pattern1_tail : string :=
  "\s*[:\-]?\s*\$?\s*(\d{1,3}(?:,\d{3})*(?:\.\d{2})?)".
Definition pattern2_tail : string :=
  "\s*\(?\$?(\d{1,3}(?:,\d{3})*(?:\.\d{2})?)\)?".

Definition patterns (metric : string) : list string :=
  [metric +:+ pattern1_tail; metric +:+ pattern2_tail].

(** Lines 241-245: the first pattern with a match decides; [None] when
    the loop ends without a match. *)
Fixpoint first_match (ps : list string) (combined_text : string) : res (option string) :=
  match ps with
  | [] => mret None
  | pattern :: ps' =>
      m ← re_search pattern combined_text;
      match m with
      | Some g => v ← group1_without_commas g; mret (Some v)
      | None => first_match ps' combined_text
      end
  end.

(** Lines 229-232: the buffer built from the results handed in. *)
Fixpoint combine_text (results : list JSON) (combined_text : string) : res string :=
  match results with
  | [] => mret combined_text
  | result :: results' =>
      has ← py_contains "text" result;
      if has : bool then
        t ← py_getitem result "text";
        piece ← py_space_plus t;
        combine_text results' (combined_text +:+ piece)
      else combine_text results' combined_text
  end.

(** Lines 228-232: [None] when the guard of line 228 fails. *)
Definition search_buffer (response_data : JSON) : res (option string) :=
  guard ← (if truthy response_data
           then py_contains "search_results" response_data
           else mret false);
  if guard : bool then
    results ← py_getitem response_data "search_results";
    first5 ← py_first5 results;
    combined_text ← combine_text first5 "";
    mret (Some combined_text)
  else mret None.

(** Lines 234-245: one round of the loop over the metric names. *)
Fixpoint scan_metrics (names : list string) (combined_text : string)
    (metrics : gmap string string) : res (gmap string string) :=
  match names with
  | [] => mret metrics
  | metric :: names' =>
      found ← first_match (patterns metric) combined_text;
      scan_metrics names' combined_text
        (match found with
         | Some v => <[metric := v]> metrics
         | None => metrics
         end)
  end.

Definition extract_metrics_from_response (response_data : JSON)
    (metric_names : option (list string)) : res (gmap string string) :=
  let metric_names := default default_metric_names metric_names in
  let metrics : gmap string string :=
    list_to_map ((λ name, (name, "N/A")) <$> metric_names) in
  buffer ← search_buffer response_data;
  match buffer with
  | Some combined_text => scan_metrics metric_names combined_text metrics
  | None => mret metrics
  end.

(** ** The remote service and the environment *)

Inductive http_method : Type := GET | POST.

Inductive part_content : Type :=
| PBytes (data : list byte)
| PText (s : string).

Inductive body : Type :=
| NoBody
| Files (parts : list (string * (string * part_content * string)))
    (* files=: field name, then (file name, content, content type) *)
| JsonBody (payload : JSON).            (* json= *)

Record request : Type := {
  req_method : http_method;
  req_url : string;
  req_headers : list (string * string);
  req_body : body
}.

Record response : Type := {
  status_code : Z;
  text : string;
  json_body : string + JSON   (* response.json(): the decode error's text, or the value *)
}.

Inductive outcome : Type :=
| Responded (r : response)
| Failed (msg : string).          (* the transport raised; [msg] is its [str] *)

(** What the program takes from outside: the service, the clock and the
    library functions whose results only travel inside requests. *)
Record env : Type := {
  remote : list request → request → outcome;
      (* the outcome of a request, given the requests made before it *)
  now_isoformat : nat → string;    (* datetime.now().isoformat(), n-th reading *)
  now_timestamp : nat → string;    (* datetime.now().timestamp(), printed *)
  b64encode : list byte → string;  (* base64.b64encode(..).decode('utf-8') *)
  json_dumps : JSON → string;
  py_int : string → string + Z     (* int(s): the ValueError's text, or the value *)
}.

Inductive ui_event : Type :=
| Success (msg : string)
| Error (msg : string)
| Warning (msg : string)
| Notice (msg : string)
| StatusText (msg : string)
| Progress (done total : nat)   (* progress(done / total) *)
| Plain (msg : string)
| Rerun.

Record VectaraClient : Type := {
  api_key : string;
  customer_id : string;
  corpus_id : string;
  base_url : string;
  headers : list (string * string)
}.

Record chat : Type := {
  chat_timestamp : string;
  chat_query : string;
  chat_response : JSON
}.

(** [st.session_state] *)
Record session : Type := {
  vectara_client : option VectaraClient;
  uploaded_files_list : list string;
  chat_history : list chat;
  connected : bool
}.

Record world : Type := {
  calls : list request;      (* requests sent so far, oldest first *)
  ticks : nat;               (* readings of the clock so far *)
  screen : list ui_event;    (* what the page has shown, oldest first *)
  state : session
}.

Definition io (A : Type) : Type := world → res A * world.

#[global] Instance io_ret : MRet io := λ A a w, (Ret a, w).
#[global] Instance io_bind : MBind io := λ A B f m w,
  match m w with
  | (Ret a, w') => f a w'
  | (Raise e, w') => (Raise e, w')
  | (Beyond s, w') => (Beyond s, w')
  end.

(** [try: body except Exception as e: handler e] *)
Definition try_except {A} (body : io A) (handler : exn → io A) : io A := λ w,
  match body w with
  | (Raise e, w') => handler e w'
  | r => r
  end.

Definition lift {A} (r : res A) : io A := λ w, (r, w).

Definition shown (e : ui_event) (w : world) : world :=
  {| calls := calls w; ticks := ticks w; screen := screen w ++ [e]; state := state w |}.

Definition with_session (s : session) (w : world) : world :=
  {| calls := calls w; ticks := ticks w; screen := screen w; state := s |}.

Definition record_call (req : request) (w : world) : world :=
  {| calls := calls w ++ [req]; ticks := ticks w; screen := screen w; state := state w |}.

Definition ticked (w : world) : world :=
  {| calls := calls w; ticks := S (ticks w); screen := screen w; state := state w |}.

Definition emit (e : ui_event) : io unit := λ w, (Ret (), shown e w).

Definition get_session : io session := λ w, (Ret (state w), w).

Definition set_session (s : session) : io unit := λ w, (Ret (), with_session s w).

Section Client.

Variable E : env.

Local Open Scope Z_scope.

(** [requests.get] / [requests.post] *)
Definition send (req : request) : io response := λ w,
  match remote E (calls w) req with
  | Responded r => (Ret r, record_call req w)
  | Failed msg => (Raise (RequestException msg), record_call req w)
  end.

Definition tick : io nat := λ w, (Ret (ticks w), ticked w).

Definition datetime_now_isoformat : io string := n ← tick; mret (now_isoformat E n).
Definition datetime_now_timestamp : io string := n ← tick; mret (now_timestamp E n).

Definition int (s : string) : io Z :=
  lift (match py_int E s with
        | inr z => Ret z
        | inl msg => Raise (ValueError msg)
        end).

(** [response.json()] *)
Definition json (r : response) : io JSON :=
  lift (match json_body r with
        | inr v => Ret v
        | inl msg => Raise (JSONDecodeError msg)
        end).

(** [str(n)] for the status code *)
Definition str (n : Z) : string := pretty n.

(** *** [VectaraClient] (lines 28-206) *)

Definition VectaraClient_init (api_key customer_id corpus_id : string) : VectaraClient :=
  {| api_key := api_key;
     customer_id := customer_id;
     corpus_id := corpus_id;
     base_url := "https://api.vectara.io/v2";
     headers := [("x-api-key", api_key);
                 ("Content-Type", "application/json");
                 ("customer-id", customer_id)] |}.

(** The request of lines 45-46 and 151-152. *)
Definition corpus_request (self : VectaraClient) : request :=
  {| req_method := GET;
     req_url := base_url self +:+ "/corpora/" +:+ corpus_id self;
     req_headers := headers self;
     req_body := NoBody |}.

Definition test_connection (self : VectaraClient) : io (bool * string) :=
  try_except
    (response ← send (corpus_request self);
     if bool_decide (status_code response = 200) then
       mret (true, "Connection successful!")
     else if bool_decide (status_code response = 403) then
       mret (false, "403 Forbidden - Check your API key and permissions")
     else if bool_decide (status_code response = 401) then
       mret (false, "401 Unauthorized - Invalid API key")
     else if bool_decide (status_code response = 404) then
       mret (false, "404 Not Found - Invalid Corpus ID")
     else
       mret (false, "Error " +:+ str (status_code response) +:+ ": " +:+ text response))
    (λ e, mret (false, "Connection error: " +:+ str_exn e)).

(** The request of lines 65-84. *)
Definition upload_request (self : VectaraClient) (file_content : list byte)
    (filename upload_date : string) : request :=
  let metadata := json_dumps E (JObj [("filename", JStr filename);
                                      ("upload_date", JStr upload_date)]) in
  {| req_method := POST;
     req_url := base_url self +:+ "/corpora/" +:+ corpus_id self +:+ "/upload_file";
     req_headers := [("x-api-key", api_key self); ("customer-id", customer_id self)];
     req_body :=
       Files [("file", (filename, PBytes file_content, "application/pdf"));
              ("metadata", ("metadata", PText metadata, "application/json"))] |}.

Definition upload_file (self : VectaraClient) (file_content : list byte)
    (filename : string) : io (bool * string) :=
  try_except
    (upload_date ← datetime_now_isoformat;
     response ← send (upload_request self file_content filename upload_date);
     if bool_decide (status_code response = 200)
        || bool_decide (status_code response = 201) then
       mret (true, "Successfully uploaded: " +:+ filename)
     else if bool_decide (status_code response = 403) then
       mret (false, "403 Forbidden - Check corpus permissions for uploads. Response: "
                    +:+ text response)
     else if bool_decide (status_code response = 401) then
       mret (false, "401 Unauthorized - Invalid API key. Response: " +:+ text response)
     else
       mret (false, "Upload failed (" +:+ str (status_code response) +:+ "): "
                    +:+ text response))
    (λ e, mret (false, "Error uploading " +:+ filename +:+ ": " +:+ str_exn e)).

(** The request of lines 101-131. *)
Definition index_request (self : VectaraClient) (file_content : list byte)
    (filename : string) (customer corpus : Z) (stamp upload_date : string) : request :=
  {| req_method := POST;
     req_url := "https://api.vectara.io/v1/index";
     req_headers := [("x-api-key", api_key self);
                     ("Content-Type", "application/json");
                     ("customer-id", customer_id self)];
     req_body :=
       JsonBody
         (JObj [("customer_id", JNum (inject_Z customer));
                ("corpus_id", JNum (inject_Z corpus));
                ("document",
                 JObj [("document_id", JStr ("doc_" +:+ stamp +:+ "_" +:+ filename));
                       ("title", JStr filename);
                       ("metadata_json",
                        JStr (json_dumps E (JObj [("filename", JStr filename);
                                                  ("upload_date", JStr upload_date)])));
                       ("section", JArr [JObj [("text", JStr (b64encode E file_content))]])])]) |}.

Definition upload_file_v1 (self : VectaraClient) (file_content : list byte)
    (filename : string) : io (bool * string) :=
  try_except
    (customer ← int (customer_id self);
     corpus ← int (corpus_id self);
     stamp ← datetime_now_timestamp;
     upload_date ← datetime_now_isoformat;
     response ← send (index_request self file_content filename customer corpus
                        stamp upload_date);
     if bool_decide (status_code response = 200)
        || bool_decide (status_code response = 201) then
       mret (true, "Successfully uploaded: " +:+ filename)
     else if bool_decide (status_code response = 403) then
       mret (false, "403 Error - Your API key doesn't have INDEX permission. Check API key settings in Vectara Console.")
     else
       mret (false, "Upload failed (" +:+ str (status_code response) +:+ "): "
                    +:+ text response))
    (λ e, mret (false, "Error uploading " +:+ filename +:+ ": " +:+ str_exn e)).

(** The request of lines 166-182. *)
Definition query_request (self : VectaraClient) (query_text : string)
    (num_results : Z) : request :=
  {| req_method := POST;
     req_url := base_url self +:+ "/query";
     req_headers := headers self;
     req_body :=
       JsonBody
         (JObj [("query", JStr query_text);
                ("search",
                 JObj [("corpora", JArr [JObj [("corpus_key", JStr (corpus_id self))]]);
                       ("limit", JNum (inject_Z num_results));
                       ("offset", JNum 0)]);
                ("generation",
                 JObj [("generation_preset_name", JStr "vectara-summary-ext-v1.2.0");
                       ("max_used_search_results", JNum 5)])]) |}.

(** A (result, error) pair; Python's [None] result is [JNull]. *)
Definition query (self : VectaraClient) (query_text : string) (num_results : Z)
    : io (JSON * option string) :=
  try_except
    (response ← send (query_request self query_text num_results);
     if bool_decide (status_code response = 200) then
       v ← json response; mret (v, None)
     else if bool_decide (status_code response = 403) then
       mret (JNull, Some ("403 Forbidden - Check query permissions: " +:+ text response))
     else
       mret (JNull, Some ("Query failed (" +:+ str (status_code response) +:+ "): "
                          +:+ text response)))
    (λ e, mret (JNull, Some ("Error querying: " +:+ str_exn e))).

(** The request of lines 197-198. *)
Definition documents_request (self : VectaraClient) : request :=
  {| req_method := GET;
     req_url := base_url self +:+ "/corpora/" +:+ corpus_id self +:+ "/documents";
     req_headers := headers self;
     req_body := NoBody |}.

Definition list_documents (self : VectaraClient) : io (JSON * option string) :=
  try_except
    (response ← send (documents_request self);
     if bool_decide (status_code response = 200) then
       v ← json response; mret (v, None)
     else
       mret (JNull, Some ("Failed to list documents (" +:+ str (status_code response)
                          +:+ "): " +:+ text response)))
    (λ e, mret (JNull, Some ("Error listing documents: " +:+ str_exn e))).

Inductive permissions : Type :=
| Report (can_read can_view_corpus : bool) (read_error : option string)
| ReportError (error : string).

Definition check_permissions (self : VectaraClient) : io permissions :=
  try_except
    (read_test ← list_documents self;
     let can_read := bool_decide (read_test.2 = None) in
     response ← send (corpus_request self);
     let can_view_corpus := bool_decide (status_code response = 200) in
     mret (Report can_read can_view_corpus (if can_read then None else read_test.2)))
    (λ e, mret (ReportError (str_exn e))).

(** Lines 208-219 *)
Definition initialize_vectara (api_key customer_id corpus_id : string)
    : io (option VectaraClient * option string) :=
  try_except
    (let client := VectaraClient_init api_key customer_id corpus_id in
     '(success, message) ← test_connection client;
     if success : bool then mret (Some client, None)
     else mret (None, Some message))
    (λ e, mret (None, Some (str_exn e))).

End Client.

(** ** The page (lines 284-550)

    Each handler is the code that runs when its button is pressed.  The
    handlers are modelled up to the calls they make on the client, the
    session fields they write and the messages they show; pictographs in
    the messages and the rendering of tables and charts are left out. *)

Record uploaded_file : Type := {
  name : string;
  content : list byte      (* file.read() *)
}.

(** [bool(s)] of a string or [None] *)
Definition nonempty (s : option string) : bool :=
  match s with
  | Some m => negb (bool_decide (m = ""))
  | None => false
  end.

(** [f"{s}"] of a string or [None] *)
Definition fmt (s : option string) : string := default "None" s.

(** [s.split(',')] *)
Fixpoint split_commas (s : list ascii) (cur : list ascii) : list (list ascii) :=
  match s with
  | [] => [rev cur]
  | c :: s' =>
      if Ascii.eqb c "," then rev cur :: split_commas s' []
      else split_commas s' (c :: cur)
  end.

Fixpoint lstrip (s : list ascii) : list ascii :=
  match s with
  | c :: s' => if is_space c then lstrip s' else s
  | [] => []
  end.

(** [s.strip()] *)
Definition strip (s : list ascii) : list ascii := rev (lstrip (rev (lstrip s))).

(** [', '.join(l)] *)
Fixpoint join_commas (l : list string) : string :=
  match l with
  | [] => ""
  | [x] => x
  | x :: l' => x +:+ ", " +:+ join_commas l'
  end.

Section Page.

Variable E : env.

Definition no_client {A} (method : string) : io A :=
  lift (Raise (AttributeError ("'NoneType' object has no attribute '" +:+ method +:+ "'"))).

Definition connect_warning : string :=
  "Please connect to Vectara first using the sidebar.".

(** Lines 310-323: the button "Connect to Vectara". *)
Definition connect_button (api_key customer_id corpus_id : string) : io unit :=
  if negb (bool_decide (api_key = "")) && negb (bool_decide (customer_id = ""))
     && negb (bool_decide (corpus_id = "")) then
    '(client, error) ← initialize_vectara E api_key customer_id corpus_id;
    match client with
    | Some c =>
        s ← get_session;
        set_session {| vectara_client := Some c;
                       uploaded_files_list := uploaded_files_list s;
                       chat_history := chat_history s;
                       connected := true |};;
        emit (Success "Connected successfully!");;
        emit Rerun
    | None =>
        emit (Error ("Connection failed: " +:+ fmt error));;
        emit (Notice "Please check the troubleshooting guide above")
    end
  else emit (Warning "Please fill in all fields").

(** Lines 346-349: the button "Disconnect". *)
Definition disconnect_button : io unit :=
  s ← get_session;
  set_session {| vectara_client := None;
                 uploaded_files_list := uploaded_files_list s;
                 chat_history := chat_history s;
                 connected := false |};;
  emit Rerun.

(** Lines 328-343: the button "View Corpus Documents"; the listing itself
    is summarised by one [Plain]. *)
Definition view_documents_button : io unit :=
  s ← get_session;
  match connected s, vectara_client s with
  | true, Some client =>
      '(docs, error) ← list_documents E client;
      if nonempty error then emit (Error ("Error: " +:+ fmt error))
      else
        listed ← lift (if truthy docs then py_contains "documents" docs else mret false);
        if listed : bool then emit (Plain "Documents in corpus")
        else emit (Notice "No documents found")
  | _, _ => emit (Warning "Not Connected")
  end.

(** Lines 285-301: the button "Test Permissions". *)
Definition test_permissions_button : io unit :=
  s ← get_session;
  match connected s, vectara_client s with
  | true, Some client =>
      perms ← check_permissions E client;
      emit (Plain "Permission Test Results:");;
      match perms with
      | ReportError e => emit (Error ("Error: " +:+ e))
      | Report can_read can_view read_error =>
          (if can_read then mret () else emit (Error ("Read error: " +:+ fmt read_error)));;
          emit (Warning "Cannot test INDEX permission without uploading. If uploads fail with 403, your key is missing INDEX permission.")
      end
  | _, _ => mret ()
  end.

(** Lines 387-407: the body of the upload loop, from file number [i]. *)
Fixpoint upload_loop (client : option VectaraClient) (upload_method : string)
    (files : list uploaded_file) (i total_files success_count : nat) : io nat :=
  match files with
  | [] => mret success_count
  | file :: files' =>
      emit (StatusText ("Uploading " +:+ name file +:+ "..."));;
      let file_content := content file in
      '(success, message) ←
        match client with
        | Some c =>
            if bool_decide (upload_method = "V1 API (Alternative)")
            then upload_file_v1 E c file_content (name file)
            else upload_file E c file_content (name file)
        | None =>
            no_client (if bool_decide (upload_method = "V1 API (Alternative)")
                       then "upload_file_v1" else "upload_file")
        end;
      success_count' ←
        (if success : bool then
           emit (Success message);;
           s ← get_session;
           (if bool_decide (name file ∈ uploaded_files_list s) then mret ()
            else set_session {| vectara_client := vectara_client s;
                                uploaded_files_list := uploaded_files_list s ++ [name file];
                                chat_history := chat_history s;
                                connected := connected s |});;
           mret (S success_count)
         else
           emit (Error message);;
           mret success_count);
      emit (Progress (S i) total_files);;
      upload_loop client upload_method files' (S i) total_files success_count'
  end.

(** Lines 357-409: the upload tab with the button "Upload to Vectara". *)
Definition upload_tab (upload_method : string) (uploaded_files : list uploaded_file)
    (button : bool) : io unit :=
  s ← get_session;
  if negb (connected s) then emit (Warning connect_warning)
  else if negb (bool_decide (length uploaded_files = 0%nat)) && button then
    let total_files := length uploaded_files in
    let client := vectara_client s in
    success_count ← upload_loop client upload_method uploaded_files 0 total_files 0;
    emit (StatusText ("Upload complete! " +:+ pretty success_count +:+ "/"
                      +:+ pretty total_files +:+ " files uploaded successfully."))
  else mret ().

(** Lines 418-454: the query tab with the button "Search". *)
Definition query_tab (query_input : string) (query_button : bool) : io unit :=
  s ← get_session;
  if negb (connected s) then emit (Warning connect_warning)
  else if query_button && negb (bool_decide (query_input = "")) then
    '(response, error) ←
      match vectara_client s with
      | Some client => query E client query_input 10
      | None => no_client "query"
      end;
    if nonempty error then emit (Error ("Query error: " +:+ fmt error))
    else
      stamp ← datetime_now_isoformat E;
      s' ← get_session;
      set_session {| vectara_client := vectara_client s';
                     uploaded_files_list := uploaded_files_list s';
                     chat_history := chat_history s' ++
                       [{| chat_timestamp := stamp; chat_query := query_input;
                           chat_response := response |}];
                     connected := connected s' |};;
      emit Rerun
  else mret ().

Definition default_metrics : list string :=
  ["Revenue"; "Net Profit"; "Gross Profit"; "Total Assets"].

(** Lines 499-501 *)
Definition all_metrics (custom_metrics : string) : list string :=
  if bool_decide (custom_metrics = "") then default_metrics
  else default_metrics ++
       ((λ m, string_of_list_ascii (strip m)) <$>
          split_commas (list_ascii_of_string custom_metrics) []).

(** Lines 483-550: the comparison tab with the button "Generate
    Comparison"; the table is summarised by one [Plain] per metric. *)
Definition comparison_tab (custom_metrics : string) (button : bool) : io unit :=
  s ← get_session;
  if negb (connected s) then emit (Warning connect_warning)
  else if button then
    let names := all_metrics custom_metrics in
    let query_text := "financial statements showing: " +:+ join_commas names in
    '(response, error) ←
      match vectara_client s with
      | Some client => query E client query_text 10
      | None => no_client "query"
      end;
    if negb (nonempty error) && truthy response then
      metrics ← lift (extract_metrics_from_response response (Some names));
      foldr (λ m rest, emit (Plain (m +:+ ": " +:+ default "" (metrics !! m)));; rest)
            (mret ()) names
    else emit (Error ("Error extracting metrics: " +:+ fmt error))
  else mret ().

End Page.

(** ** The page: what the tabs display (lines 332-343, 412-415, 436-438, 457-480)

    Text put on the page by [st.write], [st.text] and [st.markdown] is a
    [Plain]; headers, dividers, containers and expanders are left out,
    and so are the pictographs in the texts. *)

(** [len(v)]; an object counts its keys once each. *)
Definition py_len (v : JSON) : res nat :=
  match v with
  | JStr s => mret (length (list_ascii_of_string s))
  | JArr items => mret (length items)
  | JObj fields => mret (length (remove_dups (fields.*1)))
  | _ => Raise (TypeError ("object of type '" +:+ type_name v +:+ "' has no len()"))
  end.

(** [v[:n]] followed by iteration *)
Definition py_take (n : nat) (v : JSON) : res (list JSON) :=
  match v with
  | JArr items => mret (take n items)
  | JStr s => mret ((λ c, JStr (String c "")) <$> take n (list_ascii_of_string s))
  | JObj _ => Raise (TypeError "unhashable type: 'slice'")
  | _ => Raise (TypeError ("'" +:+ type_name v +:+ "' object is not subscriptable"))
  end.

(** [v.get(key, default)] *)
Definition py_get (v : JSON) (key : string) (dflt : JSON) : res JSON :=
  match v with
  | JObj fields => mret (default dflt (assoc key fields))
  | _ => Raise (AttributeError ("'" +:+ type_name v +:+ "' object has no attribute 'get'"))
  end.

(** [for i, x in enumerate(l, i)] *)
Fixpoint for_enumerate {A} (l : list A) (i : nat) (body : nat → A → io unit) : io unit :=
  match l with
  | [] => mret ()
  | x :: l' => body i x;; for_enumerate l' (S i) body
  end.

(** Lines 436-438: the button "Clear History". *)
Definition clear_history_button : io unit :=
  s ← get_session;
  set_session {| vectara_client := vectara_client s;
                 uploaded_files_list := uploaded_files_list s;
                 chat_history := [];
                 connected := connected s |};;
  emit Rerun.

(** Lines 412-415: the list of uploaded files. *)
Definition uploaded_files_display : io unit :=
  s ← get_session;
  for_enumerate (uploaded_files_list s) 1
    (λ i filename, emit (Plain (pretty i +:+ ". " +:+ filename))).

Section Display.

Variable E : env.

(** [str(v)] of a number, a list or an object, and [format(x, ".3f")] of
    a number ([None] where Python's conversion to a float overflows). *)
Variable py_str : JSON → string.
Variable format_3f : Q → option string.

(** [f"{v}"] *)
Definition fstr (v : JSON) : string :=
  match v with
  | JStr s => s
  | JNull => "None"
  | JBool true => "True"
  | JBool false => "False"
  | _ => py_str v
  end.

(** [f"{v:.3f}"] *)
Definition fstr_3f (v : JSON) : res string :=
  let number (q : Q) : res string :=
    match format_3f q with
    | Some s => mret s
    | None => Beyond "OverflowError"
    end in
  match v with
  | JNum q => number q
  | JBool true => number 1%Q
  | JBool false => number 0%Q
  | JStr _ => Raise (ValueError "Unknown format code 'f' for object of type 'str'")
  | _ => Raise (TypeError ("unsupported format string passed to "
                           +:+ type_name v +:+ ".__format__"))
  end.

(** Lines 357-415: the upload tab as a whole; [upload_tab] is the first
    part of its connected branch. *)
Definition upload_page (upload_method : string) (uploaded_files : list uploaded_file)
    (button : bool) : io unit :=
  s ← get_session;
  if negb (connected s) then emit (Warning connect_warning)
  else
    upload_tab E upload_method uploaded_files button;;
    uploaded_files_display.

(** Lines 337-341: the documents of the corpus, the first ten by id. *)
Definition documents_display (docs : JSON) : io unit :=
  documents ← lift (py_getitem docs "documents");
  n ← lift (py_len documents);
  emit (Plain ("**Documents in corpus:** " +:+ pretty n));;
  first10 ← lift (py_take 10 documents);
  for_enumerate first10 1
    (λ i doc,
       doc_id ← lift (py_get doc "id" (JStr "N/A"));
       emit (Plain (pretty i +:+ ". ID: " +:+ fstr doc_id))).

(** Lines 332-343: the button "View Corpus Documents" with its listing. *)
Definition view_documents_page : io unit :=
  s ← get_session;
  match connected s, vectara_client s with
  | true, Some client =>
      '(docs, error) ← list_documents E client;
      if nonempty error then emit (Error ("Error: " +:+ fmt error))
      else
        listed ← lift (if truthy docs then py_contains "documents" docs else mret false);
        if listed : bool then documents_display docs
        else emit (Notice "No documents found")
  | _, _ => emit (Warning "Not Connected")
  end.

(** Line 477: [text[:300] + "..." if len(text) > 300 else text] *)
Definition excerpt (text : JSON) : res JSON :=
  n ← py_len text;
  if (300 <? n)%nat then
    match text with
    | JStr s => mret (JStr (string_of_list_ascii (take 300 (list_ascii_of_string s)) +:+ "..."))
    | JArr _ => Raise (TypeError "can only concatenate list (not 'str') to list")
    | _ => Raise (TypeError "unhashable type: 'slice'")
    end
  else mret text.

(** Lines 473-478: one source snippet. *)
Definition source_display (j : nat) (result : JSON) : io unit :=
  score ← lift (py_get result "score" (JNum 0));
  text ← lift (py_get result "text" (JStr "N/A"));
  formatted ← lift (fstr_3f score);
  emit (Plain ("**Source " +:+ pretty j +:+ "** (Score: " +:+ formatted +:+ ")"));;
  shown_text ← lift (excerpt text);
  emit (Plain (fstr shown_text));;
  emit (Plain "---").

(** Lines 462-480: one entry of the conversation. *)
Definition chat_display (c : chat) : io unit :=
  emit (Plain ("** " +:+ chat_timestamp c +:+ "**"));;
  emit (Plain ("**Q:** " +:+ chat_query c));;
  has_summary ← lift (py_contains "summary" (chat_response c));
  (if has_summary : bool then
     summary ← lift (py_getitem (chat_response c) "summary");
     emit (Plain ("**A:** " +:+ fstr summary))
   else mret ());;
  has_results ← lift (py_contains "search_results" (chat_response c));
  (if has_results : bool then
     results ← lift (py_getitem (chat_response c) "search_results");
     first3 ← lift (py_take 3 results);
     for_enumerate first3 1 source_display
   else mret ()).

(** Lines 457-480: the conversation, latest entry first. *)
Definition history_display : io unit :=
  s ← get_session;
  foldr (λ c rest, chat_display c;; rest) (mret ()) (rev (chat_history s)).

End Display.

(** * Notions used in the statements *)

(** ** The matcher *)

Definition chars (s : string) : list ascii := list_ascii_of_string s.

(** The words matched by an expression, ignoring case. *)
Fixpoint lang (r : regex) (w : list ascii) : Prop :=
  match r with
  | REmpty => w = []
  | RLit c => ∃ x, w = [x] ∧ ieq c x = true
  | RAny => ∃ x, w = [x] ∧ code x ≠ 10%nat
  | RIn neg items => ∃ x, w = [x] ∧ set_matches neg items x = true
  | RSeq a b => ∃ u v, w = u ++ v ∧ lang a u ∧ lang b v
  | RAlt a b => lang a w ∨ lang b w
  | RRep lo hi a =>
      ∃ ws, w = concat ws ∧ Forall (lang a) ws ∧ (lo ≤ length ws)%nat ∧
            match hi with
            | Some h => (length ws ≤ h)%nat
            | None => True
            end
  | RGroup _ a => lang a w
  end.

(** Does the expression contain the group numbered [n]? *)
Fixpoint has_group (n : nat) (r : regex) : bool :=
  match r with
  | REmpty | RLit _ | RAny | RIn _ _ => false
  | RSeq a b | RAlt a b => has_group n a || has_group n b
  | RRep _ _ a => has_group n a
  | RGroup m a => bool_decide (m = Some n) || has_group n a
  end.

(** Whatever a matcher accepts is a word of [L], followed by the text
    handed to the continuation; groups outside [G] keep their entries. *)
Definition sound (L : list ascii → Prop) (G : nat → bool)
    (m : nat → list ascii → caps → cont → option caps) : Prop :=
  ∀ pos s cs k c, m pos s cs k = Some c →
    ∃ w s1 c1, s = w ++ s1 ∧ L w ∧
      (∀ n, G n = false → c1 !! n = cs !! n) ∧
      k (pos + length w)%nat s1 c1 = Some c.

(** Words made of characters with a given property. *)
Definition made_of (P : ascii → bool) (r : regex) : Prop :=
  ∀ w, lang r w → Forall (λ c, P c = true) w.

(** Two continuations agree on what is left of the text [s]. *)
Definition agree_on (pos : nat) (s : list ascii) (k1 k2 : cont) : Prop :=
  ∀ w s' c, s = w ++ s' → k1 (pos + length w)%nat s' c = k2 (pos + length w)%nat s' c.

(** A matcher that looks at its continuation only on what is left of
    the text it was given. *)
Definition local (m : nat → list ascii → caps → cont → option caps) : Prop :=
  ∀ pos s cs k1 k2, agree_on pos s k1 k2 → m pos s cs k1 = m pos s cs k2.

(** The expression matches at offset [i] of the text. *)
Definition matches_at (r : regex) (s : list ascii) (i : nat) : bool :=
  bool_decide (is_Some (match_here r (drop i s))).

(** ** The two patterns of the extractor *)

(** A metric name free of regex metacharacters. *)
Definition plain (name : string) : Prop :=
  Forall (λ c, is_special c = false) (chars name).

(** The expressions of lines 237-238 after the metric name. *)
Definition digit_re : regex := RIn false [SCat false CatDigit].
Definition space_re : regex := RIn false [SCat false CatSpace].

(** [(?:,\d{3})] and [(?:\.\d{2})] *)
Definition thousands_re : regex :=
  RGroup None (seq_of [RLit ","; RRep 3 (Some 3%nat) digit_re]).
Definition decimals_re : regex :=
  RGroup None (seq_of [RLit "."; RRep 2 (Some 2%nat) digit_re]).

(** [\d{1,3}(?:,\d{3})*(?:\.\d{2})?] *)
Definition number_re : regex :=
  seq_of [RRep 1 (Some 3%nat) digit_re; RRep 0 None thousands_re;
          RRep 0 (Some 1%nat) decimals_re].

(** [\s*[:\-]?\s*\$?\s*] and [\s*\(?\$?], the parts between name and
    number, and [\)?], the end of the second pattern *)
Definition between1 : list regex :=
  [RRep 0 None space_re; RRep 0 (Some 1) (RIn false [SChar ":"; SChar "-"]);
   RRep 0 None space_re; RRep 0 (Some 1) (RLit "$"); RRep 0 None space_re].
Definition between2 : list regex :=
  [RRep 0 None space_re; RRep 0 (Some 1) (RLit "("); RRep 0 (Some 1) (RLit "$")].
Definition after2 : list regex := [RRep 0 (Some 1) (RLit ")")].
Definition literal (name : string) : list regex := RLit <$> chars name.

Definition pattern1_re (name : string) : regex :=
  seq_of (literal name ++ between1 ++ [RGroup (Some 1%nat) number_re]).
Definition pattern2_re (name : string) : regex :=
  seq_of (literal name ++ between2 ++ [RGroup (Some 1%nat) number_re] ++ after2).

(** The value the two patterns find for [name], if any. *)
Definition match_of (combined_text name : string) : option string :=
  match first_match (patterns name) combined_text with
  | Ret r => r
  | _ => None
  end.

(** Digits with an optional two-digit decimal part. *)
Definition numeric (v : string) : Prop :=
  ∃ ds frac, chars v = ds ++ frac ∧ ds ≠ [] ∧
    Forall (λ c, is_digit c = true) ds ∧
    (frac = [] ∨ ∃ a b, frac = ["."%char; a; b] ∧ is_digit a = true ∧ is_digit b = true).

(** What may stand between a label and its number. *)
Definition is_separator (c : ascii) : bool :=
  is_space c || Ascii.eqb c ":" || Ascii.eqb c "-" || Ascii.eqb c "$" || Ascii.eqb c "(".

(** The label [name] stands in [buffer], in any case, with nothing but
    separators between it and the number text [g]. *)
Definition labelled (name : string) (g : list ascii) (buffer : string) : Prop :=
  ∃ before label between after,
    chars buffer = before ++ label ++ between ++ g ++ after ∧
    Forall2 (λ a b, ieq a b = true) (chars name) label ∧
    Forall (λ c, is_separator c = true) between.

(** ** Responses made of snippets *)

(** A snippet as the service returns it, and a response made of snippets. *)
Definition snippet (t : string) : JSON := JObj [("text", JStr t)].
Definition results_of (texts : list string) : JSON :=
  JObj [("search_results", JArr (snippet <$> texts))].

(** The buffer of lines 229-232 for snippets with the given texts. *)
Definition buffer_of (texts : list string) : string :=
  foldl (λ acc t, acc +:+ " " +:+ t) "" texts.

Definition seven_snippets : list string :=
  ["one"; "two"; "three"; "four"; "five"; "Revenue: 600"; "Net Profit: 7"].

(** ** Messages *)

(** [word] occurs in [msg], in any case. *)
Definition mentions (word msg : string) : bool :=
  is_substring (lower <$> chars word) (lower <$> chars msg).

(** The message names the category of the status. *)
Definition names_category (status : Z) (msg : string) : bool :=
  if bool_decide (status = 401%Z) then mentions "unauthorized" msg
  else if bool_decide (status = 403%Z) then mentions "forbidden" msg || mentions "permission" msg
  else if bool_decide (status = 404%Z) then mentions "not found" msg
  else false.

(** ** What each operation returns

    The pair each operation of the client returns, as a function of the
    outcome of its request. *)

Definition connection_verdict (o : outcome) : bool * string :=
  match o with
  | Responded r =>
      if bool_decide (status_code r = 200%Z) then (true, "Connection successful!")
      else if bool_decide (status_code r = 403%Z) then
        (false, "403 Forbidden - Check your API key and permissions")
      else if bool_decide (status_code r = 401%Z) then
        (false, "401 Unauthorized - Invalid API key")
      else if bool_decide (status_code r = 404%Z) then
        (false, "404 Not Found - Invalid Corpus ID")
      else (false, "Error " +:+ str (status_code r) +:+ ": " +:+ text r)
  | Failed msg => (false, "Connection error: " +:+ msg)
  end.

Definition upload_verdict (filename : string) (o : outcome) : bool * string :=
  match o with
  | Responded r =>
      if bool_decide (status_code r = 200%Z) || bool_decide (status_code r = 201%Z) then
        (true, "Successfully uploaded: " +:+ filename)
      else if bool_decide (status_code r = 403%Z) then
        (false, "403 Forbidden - Check corpus permissions for uploads. Response: "
                +:+ text r)
      else if bool_decide (status_code r = 401%Z) then
        (false, "401 Unauthorized - Invalid API key. Response: " +:+ text r)
      else (false, "Upload failed (" +:+ str (status_code r) +:+ "): " +:+ text r)
  | Failed msg => (false, "Error uploading " +:+ filename +:+ ": " +:+ msg)
  end.

Definition index_verdict (filename : string) (o : outcome) : bool * string :=
  match o with
  | Responded r =>
      if bool_decide (status_code r = 200%Z) || bool_decide (status_code r = 201%Z) then
        (true, "Successfully uploaded: " +:+ filename)
      else if bool_decide (status_code r = 403%Z) then
        (false, "403 Error - Your API key doesn't have INDEX permission. Check API key settings in Vectara Console.")
      else (false, "Upload failed (" +:+ str (status_code r) +:+ "): " +:+ text r)
  | Failed msg => (false, "Error uploading " +:+ filename +:+ ": " +:+ msg)
  end.

Definition query_verdict (o : outcome) : JSON * option string :=
  match o with
  | Responded r =>
      if bool_decide (status_code r = 200%Z) then
        match json_body r with
        | inr v => (v, None)
        | inl msg => (JNull, Some ("Error querying: " +:+ msg))
        end
      else if bool_decide (status_code r = 403%Z) then
        (JNull, Some ("403 Forbidden - Check query permissions: " +:+ text r))
      else (JNull, Some ("Query failed (" +:+ str (status_code r) +:+ "): " +:+ text r))
  | Failed msg => (JNull, Some ("Error querying: " +:+ msg))
  end.

Definition documents_verdict (o : outcome) : JSON * option string :=
  match o with
  | Responded r =>
      if bool_decide (status_code r = 200%Z) then
        match json_body r with
        | inr v => (v, None)
        | inl msg => (JNull, Some ("Error listing documents: " +:+ msg))
        end
      else (JNull, Some ("Failed to list documents (" +:+ str (status_code r) +:+ "): "
                         +:+ text r))
  | Failed msg => (JNull, Some ("Error listing documents: " +:+ msg))
  end.

(** [int(s)] returned a value. *)
Definition is_int (x : string + Z) : bool :=
  match x with
  | inr _ => true
  | inl _ => false
  end.

(** ** Success and failure of a request *)

(** The service answered with one of the given statuses. *)
Definition answered (codes : list Z) (o : outcome) : Prop :=
  ∃ r, o = Responded r ∧ status_code r ∈ codes.

(** The service answered with status 200 and a body that decodes to [v]. *)
Definition decoded (v : JSON) (o : outcome) : Prop :=
  ∃ r, o = Responded r ∧ status_code r = 200%Z ∧ json_body r = inr v.

(** A pair that reports a failure: no result, and an error that is a
    message, not an empty text. *)
Definition reports_failure {A} (null : A) (result : A) (error : option string) : Prop :=
  result = null ∧ ∃ msg, error = Some msg ∧ msg ≠ "".

(** ** The upload loop *)

(** Lines 394-397: the upload call the loop makes for one file. *)
Definition upload_with (E : env) (client : VectaraClient) (upload_method : string)
    (file : uploaded_file) : io (bool * string) :=
  if bool_decide (upload_method = "V1 API (Alternative)")
  then upload_file_v1 E client (content file) (name file)
  else upload_file E client (content file) (name file).

(** Line 402-403: the session after a successful upload of [filename]. *)
Definition remembered (filename : string) (w : world) : world :=
  if bool_decide (filename ∈ uploaded_files_list (state w)) then w
  else with_session {| vectara_client := vectara_client (state w);
                       uploaded_files_list := uploaded_files_list (state w) ++ [filename];
                       chat_history := chat_history (state w);
                       connected := connected (state w) |} w.

(** ** Environments and worlds for the examples *)

Definition answer (status : Z) (body : string) : outcome :=
  Responded {| status_code := status; text := body; json_body := inl "Expecting value" |}.

(** An environment whose service gives the same outcome to every request. *)
Definition fixed_env (o : outcome) : env :=
  {| remote := λ _ _, o;
     now_isoformat := λ _, "2024-01-01T00:00:00";
     now_timestamp := λ _, "1704067200.0";
     b64encode := λ _, "";
     json_dumps := λ _, "{}";
     py_int := λ _, inr 1%Z |}.

(** An environment whose service answers by the number of requests made
    before, and fails to connect beyond the scripted ones. *)
Definition scripted_env (script : list outcome) : env :=
  {| remote := λ h _, default (Failed "connection refused") (script !! length h);
     now_isoformat := λ _, "2024-01-01T00:00:00";
     now_timestamp := λ _, "1704067200.0";
     b64encode := λ _, "";
     json_dumps := λ _, "{}";
     py_int := λ _, inr 1%Z |}.

Definition fresh_session : session :=
  {| vectara_client := None; uploaded_files_list := [];
     chat_history := []; connected := false |}.

(** The world when the page is first loaded (lines 18-25). *)
Definition fresh_world : world :=
  {| calls := []; ticks := 0; screen := []; state := fresh_session |}.

(** A session after a successful "Connect". *)
Definition connected_world (client : VectaraClient) : world :=
  {| calls := []; ticks := 0; screen := [];
     state := {| vectara_client := Some client; uploaded_files_list := [];
                 chat_history := []; connected := true |} |}.

(** ** Completeness of the matcher, and occurrences of a labelled number *)

(** Every repetition in the expression has a body that cannot match the
    empty string; [re_compile] lets through no other. *)
Fixpoint rep_ok (r : regex) : bool :=
  match r with
  | REmpty | RLit _ | RAny | RIn _ _ => true
  | RSeq a b | RAlt a b => rep_ok a && rep_ok b
  | RRep _ _ a => negb (nullable a) && rep_ok a
  | RGroup _ a => rep_ok a
  end.

(** A matcher finds every word of [L] after which the continuation
    succeeds. *)
Definition complete (L : list ascii → Prop)
    (m : nat → list ascii → caps → cont → option caps) : Prop :=
  ∀ w, L w → ∀ pos s cs (k : cont),
    (∀ cs', is_Some (k (pos + length w)%nat s cs')) →
    is_Some (m pos (w ++ s) cs k).

Definition spaces (w : list ascii) : Prop := Forall (λ c, is_space c = true) w.

(** What the first pattern allows between label and number: whitespace,
    an optional colon or dash, whitespace, an optional dollar sign,
    whitespace. *)
Definition gap1 (w : list ascii) : Prop :=
  ∃ s1 p s2 d s3, w = s1 ++ p ++ s2 ++ d ++ s3 ∧
    spaces s1 ∧ spaces s2 ∧ spaces s3 ∧
    (p = [] ∨ p = [":"%char] ∨ p = ["-"%char]) ∧ (d = [] ∨ d = ["$"%char]).

(** What the second pattern allows there: whitespace, an optional
    opening parenthesis, an optional dollar sign. *)
Definition gap2 (w : list ascii) : Prop :=
  ∃ s1 p d, w = s1 ++ p ++ d ∧ spaces s1 ∧
    (p = [] ∨ p = ["("%char]) ∧ (d = [] ∨ d = ["$"%char]).

(** The buffer holds the label, in any letter case, then one of the two
    gaps, then a digit. *)
Definition occurs (name : string) (buffer : string) : Prop :=
  ∃ before label gap d after,
    chars buffer = before ++ label ++ gap ++ d :: after ∧
    Forall2 (λ a b, ieq a b = true) (chars name) label ∧
    (gap1 gap ∨ gap2 gap) ∧ is_digit d = true.

(** ** Search results of any shape *)

(** The text of a search result given by its fields, if it has one that
    is a string. *)
Definition text_of (result : list (string * JSON)) : option string :=
  match assoc "text" result with
  | Some (JStr t) => Some t
  | _ => None
  end.

(** ** Requests *)

(** The requests sent between two worlds, and nothing else changed on
    the page. *)
Definition sent (w w' : world) (reqs : list request) : Prop :=
  calls w' = calls w ++ reqs ∧ screen w' = screen w ∧ state w' = state w.

(** ** A further environment for the examples *)

(** An environment whose [int] accepts strings of decimal digits only,
    and whose service gives the same outcome to every request. *)
Definition digits_env (o : outcome) : env :=
  {| remote := λ _ _, o;
     now_isoformat := λ _, "2024-01-01T00:00:00";
     now_timestamp := λ _, "1704067200.0";
     b64encode := λ _, "";
     json_dumps := λ _, "{}";
     py_int := λ s,
       let d := list_ascii_of_string s in
       if forallb is_digit d && negb (bool_decide (d = []))
       then inr (Z.of_N (digits_value d))
       else inl ("invalid literal for int() with base 10: '" +:+ s +:+ "'") |}.

(** ** The upload loop over any number of files *)

Definition is_success (e : ui_event) : bool :=
  match e with
  | Success _ => true
  | _ => false
  end.

(** What the loop shows for its files, from file number [i]: for each
    file its name, then the success message or an error, then the
    progress. *)
Fixpoint loop_events (files : list uploaded_file) (i total : nat)
    (events : list ui_event) : Prop :=
  match files with
  | [] => events = []
  | file :: files' =>
      ∃ outcome events',
        events = StatusText ("Uploading " +:+ name file +:+ "...") :: outcome
                 :: Progress (S i) total :: events' ∧
        (outcome = Success ("Successfully uploaded: " +:+ name file) ∨
         ∃ msg, outcome = Error msg) ∧
        loop_events files' (S i) total events'
  end.

(** ** Using the page *)

(** One press of a button, with the inputs as they stand. *)
Inductive action : Type :=
| Connect (api_key customer_id corpus_id : string)
| Disconnect
| ViewDocuments
| TestPermissions
| Upload (upload_method : string) (uploaded_files : list uploaded_file)
| Ask (query_input : string)
| ClearHistory
| Compare (custom_metrics : string).

(** The handler a press runs.  The buttons "View Corpus Documents" and
    "Disconnect" are on the page only while the session is connected and
    has a client (line 328), "Clear History" only while it is connected
    (line 421). *)
Definition press (E : env) (a : action) : io unit :=
  match a with
  | Connect key customer corpus => connect_button E key customer corpus
  | Disconnect =>
      s ← get_session;
      if connected s && bool_decide (is_Some (vectara_client s))
      then disconnect_button else mret ()
  | ViewDocuments => view_documents_button E
  | TestPermissions => test_permissions_button E
  | Upload upload_method uploaded_files => upload_tab E upload_method uploaded_files true
  | Ask query_input => query_tab E query_input true
  | ClearHistory =>
      s ← get_session;
      if connected s then clear_history_button else mret ()
  | Compare custom_metrics => comparison_tab E custom_metrics true
  end.

(** The world after a sequence of presses; a handler that raises ends
    its run of the page and leaves the session as it was at that point. *)
Definition after_presses (E : env) (actions : list action) (w : world) : world :=
  foldl (λ w a, (press E a w).2) w actions.

(** The session has a client exactly when it is connected, and lists no
    uploaded file twice. *)
Definition consistent (s : session) : Prop :=
  (connected s = true ↔ is_Some (vectara_client s)) ∧ NoDup (uploaded_files_list s).

(** ** Custom metric names *)

(** No white space at either end. *)
Definition trimmed (s : list ascii) : Prop :=
  match s with
  | c :: _ => is_space c = false
  | [] => True
  end ∧
  match rev s with
  | c :: _ => is_space c = false
  | [] => True
  end.

(** A name as the comparison tab reads it back: no comma, no white space
    at either end. *)
Definition clean (name : string) : Prop :=
  (","%char ∉ chars name) ∧ trimmed (chars name).

(** The number of commas of a text. *)
Definition commas (s : string) : nat :=
  length (filter (λ c, c = ","%char) (chars s)).

(** Pieces of text with one comma between each two. *)
Fixpoint comma_joined (pieces : list (list ascii)) : list ascii :=
  match pieces with
  | [] => []
  | [p] => p
  | p :: pieces' => p ++ ","%char :: comma_joined pieces'
  end.

(** The name read from a piece: the piece without the white space at its
    two ends. *)
Definition read_from (piece : list ascii) (name : string) : Prop :=
  ∃ l r, piece = l ++ chars name ++ r ∧ spaces l ∧ spaces r ∧ trimmed (chars name).

(** ** The conversation *)

(** A decoded body that is no text, list or object: [null], a boolean or
    a number. *)
Definition scalar (v : JSON) : bool :=
  match v with
  | JNull | JBool _ | JNum _ => true
  | _ => false
  end.

(** The world after "Clear History" (lines 436-438). *)
Definition cleared (w : world) : world := (clear_history_button w).2.

(** * Properties *)

(** ** Strings and characters *)

Lemma chars_app (a b : string) : chars (a +:+ b) = chars a ++ chars b.
Proof. induction a as [|c a IH]; simpl; [done | by rewrite IH]. Qed.

Lemma chars_of_list (l : list ascii) : chars (string_of_list_ascii l) = l.
Proof. apply list_ascii_of_string_of_list_ascii. Qed.

Lemma ieq_comma (x : ascii) : ieq "," x = true → x = ","%char.
Proof.
  destruct x as [[] [] [] [] [] [] [] []]; vm_compute; intros H;
    first [reflexivity | discriminate H].
Qed.

Lemma ieq_dot (x : ascii) : ieq "." x = true → x = "."%char.
Proof.
  destruct x as [[] [] [] [] [] [] [] []]; vm_compute; intros H;
    first [reflexivity | discriminate H].
Qed.

Lemma digit_not_comma (x : ascii) : is_digit x = true → x ≠ ","%char.
Proof. intros H ->. discriminate H. Qed.

(** ** Soundness of the matcher

    Whatever the matcher accepts is a word of the expression, followed
    by the text handed to the continuation; groups the expression does
    not contain keep their entries. *)

Lemma rep_loop_sound L G body :
  sound L G body →
  ∀ fuel lo hi pos s cs k c,
    rep_loop body lo hi fuel pos s cs k = Some c →
    ∃ ws s1 c1, s = concat ws ++ s1 ∧ Forall L ws ∧ (lo ≤ length ws)%nat ∧
      match hi with Some h => (length ws ≤ h)%nat | None => True end ∧
      (∀ n, G n = false → c1 !! n = cs !! n) ∧
      k (pos + length (concat ws))%nat s1 c1 = Some c.
Proof.
  intros Hbody.
  assert (Hstop : ∀ lo (hi : option nat) pos s cs (k : cont) c,
    rep_stop lo pos s cs k = Some c →
    ∃ ws s1 c1, s = concat ws ++ s1 ∧ Forall L ws ∧ (lo ≤ length ws)%nat ∧
      match hi with Some h => (length ws ≤ h)%nat | None => True end ∧
      (∀ n, G n = false → c1 !! n = cs !! n) ∧
      k (pos + length (concat ws))%nat s1 c1 = Some c).
  { intros lo hi pos s cs k c H. unfold rep_stop in H.
    destruct (decide (lo = 0)%nat) as [->|]; [|done].
    exists [], s, cs. simpl. rewrite Nat.add_0_r.
    split_and!; auto with lia. destruct hi; lia. }
  induction fuel as [|fuel IH]; intros lo hi pos s cs k c H; simpl in H.
  - by apply Hstop.
  - destruct (may_iterate hi) eqn:Hit; [|by apply Hstop].
    match type of H with
    | match ?b with _ => _ end = _ => destruct b as [r|] eqn:Hb
    end; [|by apply Hstop].
    injection H as ->.
    apply Hbody in Hb as (w & s1 & c1 & -> & Hw & Hc1 & Hk).
    destruct (decide _) as [Hlt|]; [|done].
    apply IH in Hk as (ws & s2 & c2 & -> & Hws & Hlo & Hhi & Hc2 & Hk).
    exists (w :: ws), s2, c2. simpl.
    rewrite <- app_assoc, length_app, Nat.add_assoc.
    split_and!; auto with lia.
    + destruct hi as [[|h]|]; simpl in *; try discriminate; auto with lia.
    + intros n Hn. rewrite Hc2, Hc1; auto.
Qed.

Lemma rmatch_sound r : sound (lang r) (λ n, has_group n r) (rmatch r).
Proof.
  induction r as [|c| |neg items|a IHa b IHb|a IHa b IHb|lo hi a IHa|g a IHa];
    intros pos s cs k res H; cbn [rmatch] in H.
  - exists [], s, cs. simpl. rewrite Nat.add_0_r. auto.
  - destruct s as [|x s']; [done|]. destruct (ieq c x) eqn:Hx; [|done].
    exists [x], s', cs. simpl. rewrite Nat.add_1_r. eauto 10.
  - destruct s as [|x s']; [done|]. destruct (decide _); [done|].
    exists [x], s', cs. simpl. rewrite Nat.add_1_r. eauto 10.
  - destruct s as [|x s']; [done|]. destruct (set_matches neg items x) eqn:Hx; [|done].
    exists [x], s', cs. simpl. rewrite Nat.add_1_r. eauto 10.
  - apply IHa in H as (u & s1 & c1 & -> & Hu & Hc1 & H).
    apply IHb in H as (v & s2 & c2 & -> & Hv & Hc2 & H).
    exists (u ++ v), s2, c2. rewrite <- app_assoc, length_app, Nat.add_assoc.
    split_and!.
    + done.
    + simpl. eauto.
    + intros n Hn. simpl in Hn. apply orb_false_iff in Hn as [? ?].
      rewrite Hc2, Hc1; auto.
    + done.
  - destruct (rmatch a pos s cs k) as [r|] eqn:Ha.
    + injection H as ->. apply IHa in Ha as (w & s1 & c1 & -> & Hw & Hc1 & H).
      exists w, s1, c1. split_and!; simpl; auto.
      intros n Hn. apply orb_false_iff in Hn as [? ?]. auto.
    + apply IHb in H as (w & s1 & c1 & -> & Hw & Hc1 & H).
      exists w, s1, c1. split_and!; simpl; auto.
      intros n Hn. apply orb_false_iff in Hn as [? ?]. auto.
  - eapply rep_loop_sound in H as (ws & s1 & c1 & -> & Hws & Hlo & Hhi & Hc1 & H);
      [|exact IHa].
    exists (concat ws), s1, c1. split_and!; simpl; eauto.
  - destruct g as [n|].
    + apply IHa in H as (w & s1 & c1 & -> & Hw & Hc1 & H).
      exists w, s1, (<[n := w]> c1).
      replace (pos + length w - pos)%nat with (length w) in H by lia.
      rewrite take_app_length in H.
      split_and!; simpl; auto.
      intros m Hm. apply orb_false_iff in Hm as [Hm ?].
      apply bool_decide_eq_false in Hm.
      rewrite lookup_insert_ne by congruence. auto.
    + apply IHa in H as (w & s1 & c1 & -> & Hw & Hc1 & H).
      exists w, s1, c1. split_and!; simpl; auto.
Qed.

(** ** The fuel of a repetition is enough

    A matcher looks at its continuation only on what is left of the text
    it was given; hence a round that makes progress leaves less text,
    and fuel beyond the length of the text changes nothing. *)

Lemma agree_on_here pos s k1 k2 c : agree_on pos s k1 k2 → k1 pos s c = k2 pos s c.
Proof. intros H. specialize (H [] s c eq_refl). simpl in H. by rewrite Nat.add_0_r in H. Qed.

Lemma agree_on_next pos x s k1 k2 c :
  agree_on pos (x :: s) k1 k2 → k1 (S pos) s c = k2 (S pos) s c.
Proof. intros H. specialize (H [x] s c eq_refl). simpl in H. by rewrite Nat.add_1_r in H. Qed.

Lemma agree_on_later pos w s k1 k2 :
  agree_on pos (w ++ s) k1 k2 → agree_on (pos + length w) s k1 k2.
Proof.
  intros H w' s' c ->. specialize (H (w ++ w') s' c). rewrite length_app in H.
  rewrite <- Nat.add_assoc. apply H. by rewrite app_assoc.
Qed.

Lemma rep_loop_local body :
  local body → ∀ fuel lo hi, local (rep_loop body lo hi fuel).
Proof.
  intros Hbody. induction fuel as [|fuel IH]; intros lo hi pos s cs k1 k2 Hk; simpl.
  - unfold rep_stop. destruct (decide _); [by apply agree_on_here|done].
  - assert (rep_stop lo pos s cs k1 = rep_stop lo pos s cs k2) as Hstop.
    { unfold rep_stop. destruct (decide _); [by apply agree_on_here|done]. }
    rewrite Hstop. destruct (may_iterate hi); [|done].
    erewrite Hbody; [reflexivity|].
    intros w s' c ->. destruct (decide _); [|done].
    apply IH. by apply agree_on_later.
Qed.

Lemma rmatch_local r : local (rmatch r).
Proof.
  induction r as [|c| |neg items|a IHa b IHb|a IHa b IHb|lo hi a IHa|g a IHa];
    intros pos s cs k1 k2 Hk; cbn [rmatch].
  - by apply agree_on_here.
  - destruct s as [|x s']; [done|]. destruct (ieq c x); [|done].
    by eapply agree_on_next.
  - destruct s as [|x s']; [done|]. destruct (decide _); [done|].
    by eapply agree_on_next.
  - destruct s as [|x s']; [done|]. destruct (set_matches neg items x); [|done].
    by eapply agree_on_next.
  - apply IHa. intros w s' c ->. apply IHb. by apply agree_on_later.
  - by rewrite (IHa _ _ _ _ _ Hk), (IHb _ _ _ _ _ Hk).
  - by apply rep_loop_local.
  - destruct g as [n|]; [|by apply IHa].
    apply IHa. intros w s' c ->. apply Hk. done.
Qed.

Lemma rep_loop_fuel body :
  local body →
  ∀ fuel lo hi pos s cs k,
    (length s < fuel)%nat →
    rep_loop body lo hi (S fuel) pos s cs k = rep_loop body lo hi fuel pos s cs k.
Proof.
  intros Hbody. induction fuel as [|fuel IH]; intros lo hi pos s cs k Hlen; [lia|].
  cbn [rep_loop]. destruct (may_iterate hi); [|done].
  erewrite Hbody; [reflexivity|].
  intros w s' c ->. destruct (decide _) as [Hpos|]; [|done].
  apply IH. rewrite length_app in Hlen. lia.
Qed.

(** The matcher gives the same answer with any fuel above the length of
    the text: the fuel it is given does not run out. *)
Lemma rep_loop_fuel_enough r lo hi extra pos s cs k :
  rep_loop (rmatch r) lo hi (S (length s) + extra) pos s cs k
  = rep_loop (rmatch r) lo hi (S (length s)) pos s cs k.
Proof.
  induction extra as [|extra IH]; [by rewrite Nat.add_0_r|].
  rewrite <- IH. rewrite Nat.add_succ_r.
  apply rep_loop_fuel; [apply rmatch_local | lia].
Qed.

(** ** The fuel of the parser is enough *)

Lemma span_digits_length s :
  (length (span_digits s).2 ≤ length s)%nat.
Proof.
  induction s as [|c s IH]; simpl; [lia|].
  destruct (is_digit c); [|simpl; lia].
  destruct (span_digits s) as [d r]. simpl in *. lia.
Qed.

Lemma parse_brace_length s lo hi rest :
  parse_brace s = Some (lo, hi, rest) → (length rest < length s)%nat.
Proof.
  unfold parse_brace. pose proof (span_digits_length s) as H1.
  destruct (span_digits s) as [d r1]. simpl in H1.
  destruct r1 as [|c r2]; [done|]. simpl in H1.
  destruct (Ascii.eqb c ",").
  - pose proof (span_digits_length r2) as H2.
    destruct (span_digits r2) as [d' r3]. simpl in H2.
    destruct r3 as [|c' r4]; [done|]. simpl in H2.
    destruct (Ascii.eqb c' "}"); [|done]. intros [= _ _ <-]. lia.
  - destruct (Ascii.eqb c "}"); [|done].
    destruct (bool_decide (d = [])); [done|]. intros [= _ _ <-]. lia.
Qed.

Lemma set_token_length s it closing rest :
  set_token s = TItem it closing rest → (length rest < length s)%nat.
Proof.
  destruct s as [|c s]; [done|]. simpl.
  destruct (Ascii.eqb c "\").
  - destruct s as [|e s]; [done|]. destruct (escape e); [|done].
    intros [= _ _ <-]. simpl. lia.
  - intros [= _ _ <-]. simpl. lia.
Qed.

Lemma parse_set_enough fuel :
  ∀ s acc, (length s < fuel)%nat →
    match parse_set fuel s acc with
    | SFuel => False
    | SOk _ rest => (length rest < length s)%nat
    | _ => True
    end.
Proof.
  induction fuel as [|fuel IH]; intros s acc Hlen; [lia|].
  cbn [parse_set].
  destruct (set_token s) as [it closing rest| | |] eqn:Htok; try done.
  apply set_token_length in Htok.
  destruct (closing && negb (bool_decide (acc = []))); [done|].
  assert (Hnext : ∀ acc', match parse_set fuel rest acc' with
                          | SFuel => False
                          | SOk _ rest' => (length rest' < length s)%nat
                          | _ => True
                          end).
  { intros acc'. specialize (IH rest acc' ltac:(lia)).
    destruct (parse_set fuel rest acc'); try done. lia. }
  destruct rest as [|d rest1]; [apply Hnext|].
  destruct (Ascii.eqb d "-"); [|apply Hnext].
  destruct (set_token rest1) as [it2 closing2 rest2| | |] eqn:Htok2; try done.
  apply set_token_length in Htok2. simpl in Htok.
  destruct closing2; [lia|].
  assert (Hrange : ∀ acc', match parse_set fuel rest2 acc' with
                           | SFuel => False
                           | SOk _ rest' => (length rest' < length s)%nat
                           | _ => True
                           end).
  { intros acc'. specialize (IH rest2 acc' ltac:(lia)).
    destruct (parse_set fuel rest2 acc'); try done. lia. }
  destruct it as [lo| |]; try done. destruct it2 as [hi| |]; try done.
  destruct (code hi <? code lo)%nat; [done|]. apply Hrange.
Qed.

Lemma parse_enough fuel :
  ∀ s gc alts acc, (length s ≤ fuel)%nat →
    match parse fuel s gc alts acc with
    | PFuel => False
    | POk _ rest _ => (length rest ≤ length s)%nat
    | _ => True
    end.
Proof.
  induction fuel as [|fuel IH]; intros s gc alts acc Hlen.
  { destruct s; [simpl; lia | simpl in Hlen; lia]. }
  destruct s as [|c rest]; [simpl; lia|].
  simpl in Hlen.
  assert (Hnext : ∀ rest' gc' alts' acc', (length rest' ≤ length rest)%nat →
            match parse fuel rest' gc' alts' acc' with
            | PFuel => False
            | POk _ rest'' _ => (length rest'' ≤ length (c :: rest))%nat
            | _ => True
            end).
  { intros rest' gc' alts' acc' Hr. specialize (IH rest' gc' alts' acc' ltac:(lia)).
    destruct (parse fuel rest' gc' alts' acc'); try done. simpl. lia. }
  assert (Hrepeat : ∀ lo hi rest', (length rest' ≤ length rest)%nat →
            match match apply_repeat lo hi rest' acc with
                  | QOk acc' => parse fuel rest' gc alts acc'
                  | QErr m => PErr m
                  | QBeyond w => PBeyond w
                  end with
            | PFuel => False
            | POk _ rest'' _ => (length rest'' ≤ length (c :: rest))%nat
            | _ => True
            end).
  { intros lo hi rest' Hr. destruct (apply_repeat lo hi rest' acc); try done.
    by apply Hnext. }
  assert (Hgroup : ∀ n body gc', (length body ≤ length rest)%nat →
            match match parse fuel body gc' [] [] with
                  | POk r (_ :: rest') gc'' =>
                      parse fuel rest' gc'' alts (RGroup n r :: acc)
                  | POk _ [] _ => PErr "missing ), unterminated subpattern"
                  | e => e
                  end with
            | PFuel => False
            | POk _ rest'' _ => (length rest'' ≤ length (c :: rest))%nat
            | _ => True
            end).
  { intros n body gc' Hb. pose proof (IH body gc' [] [] ltac:(lia)) as Hin.
    destruct (parse fuel body gc' [] []) as [r [|x rest'] gc''| | |]; try done.
    apply Hnext. simpl in Hin. lia. }
  cbn [parse].
  destruct (negb (is_special c)); [by apply Hnext|].
  destruct (Ascii.eqb c ")"); [simpl; lia|].
  destruct (Ascii.eqb c "|"); [by apply Hnext|].
  destruct (Ascii.eqb c "\").
  { destruct rest as [|e rest']; [done|]. destruct (escape e); [|done].
    apply Hnext. simpl. lia. }
  destruct (Ascii.eqb c "."); [by apply Hnext|].
  destruct (Ascii.eqb c "[").
  { set (nb := match rest with
               | x :: rest' => if Ascii.eqb x "^" then (true, rest') else (false, rest)
               | [] => (false, rest)
               end).
    assert (length nb.2 ≤ length rest)%nat as Hnb.
    { unfold nb. destruct rest as [|x rest']; [done|].
      destruct (Ascii.eqb x "^"); simpl; lia. }
    destruct nb as [neg body]. simpl in Hnb.
    pose proof (parse_set_enough (S (length body)) body [] ltac:(lia)) as Hset.
    destruct (parse_set (S (length body)) body []); try done.
    apply Hnext. lia. }
  destruct (Ascii.eqb c "(").
  { destruct rest as [|x rest']; [by apply Hgroup|].
    destruct (Ascii.eqb x "?"); [|by apply Hgroup].
    destruct rest' as [|y body]; [done|].
    destruct (Ascii.eqb y ":"); [|done]. apply Hgroup. simpl. lia. }
  destruct (Ascii.eqb c "?"); [by apply Hrepeat|].
  destruct (Ascii.eqb c "*"); [by apply Hrepeat|].
  destruct (Ascii.eqb c "+"); [by apply Hrepeat|].
  destruct (Ascii.eqb c "{"); [|done].
  destruct (parse_brace rest) as [[[lo hi] rest']|] eqn:Hbrace; [|by apply Hnext].
  apply parse_brace_length in Hbrace.
  destruct (_ || _); [done|]. destruct (bool_decide _); [done|].
  apply Hrepeat. lia.
Qed.

(** [re_compile] never runs out of fuel. *)
Lemma parse_total pattern :
  parse (length (chars pattern)) (chars pattern) 0 [] [] ≠ PFuel.
Proof.
  pose proof (parse_enough (length (chars pattern)) (chars pattern) 0 [] []
                ltac:(lia)) as H.
  by destruct (parse _ _ _ _ _).
Qed.

Lemma seq_of_app_sound l1 l2 pos s cs k c :
  rmatch (seq_of (l1 ++ l2)) pos s cs k = Some c →
  ∃ w s1 c1, s = w ++ s1 ∧ lang (seq_of l1) w ∧
    (∀ n, has_group n (seq_of l1) = false → c1 !! n = cs !! n) ∧
    rmatch (seq_of l2) (pos + length w)%nat s1 c1 k = Some c.
Proof.
  revert pos s cs. induction l1 as [|x l1 IH]; intros pos s cs H.
  - exists [], s, cs. simpl. rewrite Nat.add_0_r. auto.
  - simpl in H. apply rmatch_sound in H as (u & s1 & c1 & -> & Hu & Hc1 & H).
    apply IH in H as (v & s2 & c2 & -> & Hv & Hc2 & H).
    exists (u ++ v), s2, c2. rewrite <- app_assoc, length_app, Nat.add_assoc.
    split_and!; [done | simpl; eauto | | done].
    intros n Hn. simpl in Hn. apply orb_false_iff in Hn as [? ?].
    rewrite Hc2, Hc1; auto.
Qed.

Lemma search_from_some r s c :
  search_from r s = Some c → ∃ before s', s = before ++ s' ∧ match_here r s' = Some c.
Proof.
  induction s as [|x s IH]; simpl.
  - destruct (match_here r []) eqn:H; [|done]. intros [= ->]. by exists [], [].
  - destruct (match_here r (x :: s)) eqn:H.
    + intros [= ->]. by exists [], (x :: s).
    + intros (before & s' & -> & Hm)%IH. by exists (x :: before), s'.
Qed.

Lemma rmatch_seq a b pos s cs k :
  rmatch (RSeq a b) pos s cs k = rmatch a pos s cs (λ p1 s1 c1, rmatch b p1 s1 c1 k).
Proof. reflexivity. Qed.

Lemma rmatch_group n a pos s cs k :
  rmatch (RGroup (Some n) a) pos s cs k
  = rmatch a pos s cs (λ p1 s1 c1, k p1 s1 (<[n := take (p1 - pos) s]> c1)).
Proof. reflexivity. Qed.

(** A match of "name, separators, (number), rest": the first group holds
    a word of the number expression, found right after the separators. *)
Lemma pattern_sound name between after s c :
  match_here (seq_of (literal name ++ between ++ [RGroup (Some 1%nat) number_re] ++ after)) s
    = Some c →
  has_group 1 (seq_of after) = false →
  ∃ label mid g rest, s = label ++ mid ++ g ++ rest ∧
    lang (seq_of (literal name)) label ∧ lang (seq_of between) mid ∧
    lang number_re g ∧ c !! 1%nat = Some g.
Proof.
  unfold match_here. intros H Hafter.
  apply seq_of_app_sound in H as (label & s1 & c1 & -> & Hlabel & _ & H).
  apply seq_of_app_sound in H as (mid & s2 & c2 & -> & Hmid & _ & H).
  change (seq_of ([RGroup (Some 1%nat) number_re] ++ after))
    with (RSeq (RGroup (Some 1%nat) number_re) (seq_of after)) in H.
  rewrite rmatch_seq, rmatch_group in H.
  apply rmatch_sound in H as (g & s3 & c3 & -> & Hg & _ & H).
  apply rmatch_sound in H as (w & s4 & c4 & -> & _ & Hc4 & H).
  injection H as <-.
  exists label, mid, g, (w ++ s4). split_and!; try done.
  rewrite Hc4 by done.
  match goal with |- <[_ := ?t]> _ !! _ = _ => replace t with g end.
  - apply lookup_insert_eq.
  - match goal with |- _ = take ?n _ => replace n with (length g) by lia end.
    by rewrite take_app_length.
Qed.

Lemma lang_literal name label :
  lang (seq_of (literal name)) label →
  Forall2 (λ a b, ieq a b = true) (chars name) label.
Proof.
  unfold literal. generalize (chars name) as n. intros n. revert label.
  induction n as [|c n IH]; intros label; simpl.
  - intros ->. constructor.
  - intros (u & v & -> & (x & -> & Hx) & Hv). constructor; auto.
Qed.

Lemma made_of_empty P : made_of P REmpty.
Proof. intros w ->. constructor. Qed.

Lemma made_of_lit P c : (∀ x, ieq c x = true → P x = true) → made_of P (RLit c).
Proof. intros H w (x & -> & Hx). repeat constructor. auto. Qed.

Lemma made_of_in P neg items :
  (∀ x, set_matches neg items x = true → P x = true) → made_of P (RIn neg items).
Proof. intros H w (x & -> & Hx). repeat constructor. auto. Qed.

Lemma made_of_seq P a b : made_of P a → made_of P b → made_of P (RSeq a b).
Proof. intros Ha Hb w (u & v & -> & Hu & Hv). apply Forall_app. auto. Qed.

Lemma made_of_rep P lo hi a : made_of P a → made_of P (RRep lo hi a).
Proof.
  intros Ha w (ws & -> & Hws & _). induction Hws; simpl; [constructor|].
  apply Forall_app. auto.
Qed.

Lemma made_of_group P g a : made_of P a → made_of P (RGroup g a).
Proof. intros Ha w Hw. by apply Ha. Qed.

Lemma separator_cases (x : ascii) :
  (is_space x = true → is_separator x = true) ∧
  (ieq "$" x = true → is_separator x = true) ∧
  (ieq "(" x = true → is_separator x = true) ∧
  (set_matches false [SChar ":"; SChar "-"] x = true → is_separator x = true).
Proof.
  destruct x as [[] [] [] [] [] [] [] []]; vm_compute; split_and!; intros H;
    try first [reflexivity | discriminate H].
Qed.

Lemma space_re_separators : made_of is_separator space_re.
Proof.
  apply made_of_in. intros x Hx. destruct (separator_cases x) as (H & _).
  apply H. revert Hx. unfold set_matches. simpl. by destruct (is_space x).
Qed.

Ltac separators :=
  repeat first
    [ apply made_of_seq | apply made_of_rep | apply made_of_empty
    | apply space_re_separators
    | apply made_of_lit;
      let x := fresh in let Hx := fresh in
      intros x Hx; destruct (separator_cases x) as (? & ? & ? & ?); by auto
    | apply made_of_in;
      let x := fresh in let Hx := fresh in
      intros x Hx; destruct (separator_cases x) as (? & ? & ? & ?); by auto ].

Lemma between1_separators : made_of is_separator (seq_of between1).
Proof. unfold between1. simpl. separators. Qed.

Lemma between2_separators : made_of is_separator (seq_of between2).
Proof. unfold between2. simpl. separators. Qed.

(** ** The shape of a captured number *)

Lemma lang_digit w : lang digit_re w → ∃ x, w = [x] ∧ is_digit x = true.
Proof.
  intros (x & -> & Hx). exists x. split; [done|].
  revert Hx. unfold set_matches. simpl. by destruct (is_digit x).
Qed.

Lemma lang_digits ws :
  Forall (lang digit_re) ws →
  Forall (λ c, is_digit c = true) (concat ws) ∧ length (concat ws) = length ws.
Proof.
  induction 1 as [|w ws Hw _ [IH1 IH2]]; simpl; [by split|].
  apply lang_digit in Hw as (x & -> & Hx). simpl. split; [by constructor | by f_equal].
Qed.

Lemma filter_digits (l : list ascii) :
  Forall (λ c, is_digit c = true) l → filter (λ c, c ≠ ","%char) l = l.
Proof.
  induction 1 as [|x l Hx _ IH]; [done|].
  rewrite filter_cons_True by by apply digit_not_comma. by f_equal.
Qed.

Lemma lang_thousands ws :
  Forall (lang thousands_re) ws →
  Forall (λ c, is_digit c = true) (filter (λ c, c ≠ ","%char) (concat ws)).
Proof.
  induction 1 as [|w ws Hw _ IH]; simpl; [constructor|].
  destruct Hw as (u & v & -> & (x & -> & Hx) & (d & e & -> & (ds & -> & Hds & _) & ->)).
  apply ieq_comma in Hx as ->. apply lang_digits in Hds as [Hds _].
  rewrite app_nil_r, filter_app. simpl.
  rewrite filter_cons_False by (intros H; by apply H).
  rewrite filter_digits by done. by apply Forall_app.
Qed.

Lemma lang_decimals w :
  lang (RRep 0 (Some 1%nat) decimals_re) w →
  w = [] ∨ ∃ a b, w = ["."%char; a; b] ∧ is_digit a = true ∧ is_digit b = true.
Proof.
  intros (ws & -> & Hws & _ & Hhi).
  destruct Hws as [|w ws Hw Hws]; [by left|].
  destruct ws; [|simpl in Hhi; lia]. right. simpl. rewrite app_nil_r.
  destruct Hw as (u & v & -> & (x & -> & Hx) & (d & e & -> & (ds & -> & Hds & Hlo & Hlen) & ->)).
  apply ieq_dot in Hx as ->.
  destruct Hds as [|d1 ? Hd1 [|d2 ? Hd2 [|]]]; simpl in *; try lia.
  apply lang_digit in Hd1 as (a & -> & Ha). apply lang_digit in Hd2 as (b & -> & Hb).
  exists a, b. subst. done.
Qed.

Lemma number_shape g : lang number_re g → numeric (without_commas g).
Proof.
  intros (u1 & r1 & -> & (ws1 & -> & Hws1 & Hlo1 & _) &
          (u2 & r2 & -> & (ws2 & -> & Hws2 & _) & (u3 & r3 & -> & Hu3 & ->))).
  apply lang_digits in Hws1 as [Hd1 Hlen1].
  apply lang_thousands in Hws2. apply lang_decimals in Hu3.
  unfold numeric, without_commas. rewrite chars_of_list, app_nil_r, !filter_app.
  rewrite (filter_digits (concat ws1)) by done.
  exists (concat ws1 ++ filter (λ c, c ≠ ","%char) (concat ws2)),
         (filter (λ c, c ≠ ","%char) u3).
  split_and!.
  - by rewrite app_assoc.
  - intros H. apply app_eq_nil in H as [H _]. rewrite H in Hlen1. simpl in *. lia.
  - by apply Forall_app.
  - destruct Hu3 as [->|(a & b & -> & Ha & Hb)]; [by left|right].
    exists a, b. split_and!; try done.
    rewrite filter_cons_True by done.
    rewrite !filter_cons_True by by apply digit_not_comma. done.
Qed.

(** ** Compiling the two patterns of a plain name *)

Lemma parse_literal c fuel rest gc alts acc :
  is_special c = false →
  parse (S fuel) (c :: rest) gc alts acc = parse fuel rest gc alts (RLit c :: acc).
Proof. intros H. cbn [parse]. by rewrite H. Qed.

Lemma parse_plain n :
  Forall (λ c, is_special c = false) n →
  ∀ fuel rest gc alts acc,
    parse (length n + fuel) (n ++ rest) gc alts acc
    = parse fuel rest gc alts (rev (RLit <$> n) ++ acc).
Proof.
  induction 1 as [|c n Hc _ IH]; intros fuel rest gc alts acc; [done|].
  change (parse (S (length n + fuel)) (c :: (n ++ rest)) gc alts acc
          = parse fuel rest gc alts (rev (RLit <$> c :: n) ++ acc)).
  rewrite parse_literal, IH by done.
  simpl. by rewrite <- app_assoc.
Qed.

Lemma parse_tail1 acc :
  parse (length (chars pattern1_tail)) (chars pattern1_tail) 0 [] acc
  = POk (finish [] (RGroup (Some 1%nat) number_re :: rev between1 ++ acc)) [] 1.
Proof. vm_compute. reflexivity. Qed.

Lemma parse_tail2 acc :
  parse (length (chars pattern2_tail)) (chars pattern2_tail) 0 [] acc
  = POk (finish [] (rev after2 ++ RGroup (Some 1%nat) number_re :: rev between2 ++ acc)) [] 1.
Proof. vm_compute. reflexivity. Qed.

Lemma finish_rev (items : list regex) : finish [] (rev items) = seq_of items.
Proof. unfold finish. simpl. by rewrite rev_involutive. Qed.

Lemma compile_pattern1 name :
  plain name → re_compile (name +:+ pattern1_tail) = Ret (pattern1_re name).
Proof.
  intros Hname. unfold re_compile.
  change (list_ascii_of_string (name +:+ pattern1_tail)) with (chars (name +:+ pattern1_tail)).
  rewrite chars_app, length_app, parse_plain, parse_tail1 by done.
  unfold pattern1_re. rewrite <- finish_rev. do 2 f_equal.
  rewrite !rev_app_distr. simpl. by rewrite app_nil_r.
Qed.

Lemma compile_pattern2 name :
  plain name → re_compile (name +:+ pattern2_tail) = Ret (pattern2_re name).
Proof.
  intros Hname. unfold re_compile.
  change (list_ascii_of_string (name +:+ pattern2_tail)) with (chars (name +:+ pattern2_tail)).
  rewrite chars_app, length_app, parse_plain, parse_tail2 by done.
  unfold pattern2_re. rewrite <- finish_rev. do 2 f_equal.
  rewrite !rev_app_distr. simpl. by rewrite app_nil_r.
Qed.

(** ** One metric name *)

Lemma re_search_plain1 name text :
  plain name →
  re_search (name +:+ pattern1_tail) text
  = Ret (search_from (pattern1_re name) (chars text)).
Proof. intros H. unfold re_search. by rewrite compile_pattern1. Qed.

Lemma re_search_plain2 name text :
  plain name →
  re_search (name +:+ pattern2_tail) text
  = Ret (search_from (pattern2_re name) (chars text)).
Proof. intros H. unfold re_search. by rewrite compile_pattern2. Qed.

Lemma search_pattern name between after text c :
  search_from (seq_of (literal name ++ between ++ [RGroup (Some 1%nat) number_re] ++ after))
    (chars text) = Some c →
  has_group 1 (seq_of after) = false →
  made_of is_separator (seq_of between) →
  ∃ g, c !! 1%nat = Some g ∧ lang number_re g ∧ labelled name g text.
Proof.
  intros (before & s & Htext & H)%search_from_some Hafter Hsep.
  apply pattern_sound in H as (label & mid & g & rest & -> & Hlabel & Hmid & Hg & Hc);
    [|done].
  exists g. split_and!; try done.
  exists before, label, mid, rest. split_and!; [done | by apply lang_literal | by apply Hsep].
Qed.

Lemma group1_of c g :
  c !! 1%nat = Some g → group1_without_commas c = Ret (without_commas g).
Proof. intros H. unfold group1_without_commas. by rewrite H. Qed.

(** For a plain name the scan returns: either a number that follows the
    label in the text, or nothing when neither pattern matches. *)
Lemma first_match_plain name text :
  plain name →
  ∃ r, first_match (patterns name) text = Ret r ∧
    match r with
    | Some v => ∃ g, v = without_commas g ∧ lang number_re g ∧ labelled name g text
    | None => re_search (name +:+ pattern1_tail) text = Ret None ∧
              re_search (name +:+ pattern2_tail) text = Ret None
    end.
Proof.
  intros Hname. unfold patterns, first_match.
  rewrite re_search_plain1, re_search_plain2 by done.
  change (Ret ?x ≫= ?f) with (f x). cbv beta.
  destruct (search_from (pattern1_re name) (chars text)) as [c|] eqn:H1.
  - unfold pattern1_re in H1.
    rewrite <- (app_nil_r [RGroup (Some 1%nat) number_re]) in H1.
    apply search_pattern in H1 as (g & Hc & Hg & Hl);
      [|done|apply between1_separators].
    rewrite (group1_of _ _ Hc). exists (Some (without_commas g)). split; [done|].
    by exists g.
  - change (Ret ?x ≫= ?f) with (f x). cbv beta.
    destruct (search_from (pattern2_re name) (chars text)) as [c|] eqn:H2.
    + apply search_pattern in H2 as (g & Hc & Hg & Hl);
        [|done|apply between2_separators].
      rewrite (group1_of _ _ Hc). exists (Some (without_commas g)). split; [done|].
      by exists g.
    + by exists None.
Qed.

Lemma first_match_none name text :
  re_search (name +:+ pattern1_tail) text = Ret None →
  re_search (name +:+ pattern2_tail) text = Ret None →
  first_match (patterns name) text = Ret None.
Proof. intros H1 H2. unfold patterns, first_match. by rewrite H1, H2. Qed.

(** ** The loop over the metric names *)

Lemma scan_metrics_lookup names text :
  Forall (λ name, returns (first_match (patterns name) text)) names →
  ∀ metrics : gmap string string, ∃ m,
    scan_metrics names text metrics = Ret m ∧
    ∀ k, m !! k =
         if decide (k ∈ names)
         then match match_of text k with
              | Some v => Some v
              | None => metrics !! k
              end
         else metrics !! k.
Proof.
  induction 1 as [|name names [r Hr] _ IH]; intros metrics.
  - exists metrics. split; [done|]. intros k. by rewrite decide_False by apply not_elem_of_nil.
  - cbn [scan_metrics]. rewrite Hr. change (Ret ?x ≫= ?f) with (f x). cbv beta.
    destruct (IH (match r with Some v => <[name:=v]> metrics | None => metrics end))
      as (m & Hm & Hlook).
    exists m. split; [done|]. intros k. rewrite Hlook.
    destruct (decide (k ∈ names)) as [Hin|Hnin].
    + rewrite decide_True by (apply elem_of_cons; auto).
      destruct (match_of text k) eqn:Hk; [done|].
      destruct (decide (k = name)) as [->|Hne].
      * unfold match_of in Hk. rewrite Hr in Hk. by subst r.
      * destruct r; [by rewrite lookup_insert_ne|done].
    + destruct (decide (k = name)) as [->|Hne].
      * rewrite decide_True by (apply elem_of_cons; auto).
        unfold match_of. rewrite Hr. destruct r; [by rewrite lookup_insert_eq|done].
      * rewrite decide_False by (apply not_elem_of_cons; auto).
        destruct r; [by rewrite lookup_insert_ne|done].
Qed.

Lemma initial_metrics_lookup (names : list string) (k : string) :
  (list_to_map ((λ name, (name, "N/A")) <$> names) : gmap string string) !! k
  = if decide (k ∈ names) then Some "N/A" else None.
Proof.
  induction names as [|name names IH].
  - rewrite fmap_nil, list_to_map_nil, lookup_empty.
    by rewrite decide_False by apply not_elem_of_nil.
  - rewrite fmap_cons, list_to_map_cons.
    destruct (decide (k = name)) as [->|Hne].
    + rewrite lookup_insert_eq. by rewrite decide_True by (apply elem_of_cons; auto).
    + rewrite lookup_insert_ne, IH by done.
      destruct (decide (k ∈ names)).
      * by rewrite decide_True by (apply elem_of_cons; auto).
      * by rewrite decide_False by (apply not_elem_of_cons; auto).
Qed.

Lemma plain_default_names : Forall plain default_metric_names.
Proof. repeat constructor. Qed.

(** What the extractor returns on plain names, once the buffer is known. *)
Lemma extract_lookup response_data names buffer :
  Forall plain names →
  search_buffer response_data = Ret buffer →
  ∃ m, extract_metrics_from_response response_data (Some names) = Ret m ∧
    ∀ k, m !! k =
         if decide (k ∈ names)
         then Some (default "N/A" (text ← buffer; match_of text k))
         else None.
Proof.
  intros Hnames Hbuf. unfold extract_metrics_from_response. rewrite Hbuf.
  change (Ret ?x ≫= ?f) with (f x). cbv beta zeta.
  change (default default_metric_names (Some names)) with names.
  destruct buffer as [text|].
  - destruct (scan_metrics_lookup names text) with
      (metrics := (list_to_map ((λ name, (name, "N/A")) <$> names) : gmap string string))
      as (m & Hm & Hlook).
    { eapply Forall_impl; [exact Hnames|]. intros name Hname.
      destruct (first_match_plain name text Hname) as (r & Hr & _). by exists r. }
    exists m. split; [done|]. intros k. rewrite Hlook, initial_metrics_lookup.
    destruct (decide (k ∈ names)); [|done]. simpl. by destruct (match_of text k).
  - eexists. split; [done|]. intros k. rewrite initial_metrics_lookup.
    by destruct (decide (k ∈ names)).
Qed.

(** ** The buffer *)

Lemma search_buffer_null : search_buffer JNull = Ret None.
Proof. reflexivity. Qed.

Lemma search_buffer_no_results fields :
  assoc "search_results" fields = None → search_buffer (JObj fields) = Ret None.
Proof.
  intros H. unfold search_buffer. destruct (truthy (JObj fields)); [|done].
  simpl. rewrite H. by rewrite bool_decide_eq_false_2 by by intros [? ?].
Qed.

Lemma search_buffer_results fields items :
  assoc "search_results" fields = Some (JArr items) →
  search_buffer (JObj fields)
  = (combined_text ← combine_text (take 5 items) ""; mret (Some combined_text)).
Proof.
  intros H. unfold search_buffer.
  assert (truthy (JObj fields) = true) as -> by by destruct fields.
  simpl. rewrite H. by rewrite bool_decide_eq_true_2 by by eexists.
Qed.

Lemma combine_text_snippets texts acc :
  combine_text (snippet <$> texts) acc = Ret (foldl (λ acc t, acc +:+ " " +:+ t) acc texts).
Proof.
  revert acc. induction texts as [|t texts IH]; intros acc; [done|].
  simpl. by rewrite IH.
Qed.

Lemma search_buffer_snippets texts :
  search_buffer (results_of texts) = Ret (Some (buffer_of (take 5 texts))).
Proof.
  unfold results_of. erewrite search_buffer_results by reflexivity.
  rewrite <- fmap_take, combine_text_snippets. reflexivity.
Qed.

(** ** The leftmost match *)

Lemma search_from_skip r before rest :
  (∀ i, (i < length before)%nat → matches_at r (before ++ rest) i = false) →
  search_from r (before ++ rest) = search_from r rest.
Proof.
  induction before as [|x before IH]; intros H; [done|].
  simpl. pose proof (H 0%nat ltac:(simpl; lia)) as H0.
  unfold matches_at in H0. simpl in H0. apply bool_decide_eq_false in H0.
  destruct (match_here r (x :: before ++ rest)) eqn:Hm; [by destruct H0; eexists|].
  apply IH. intros i Hi. apply (H (S i)). simpl. lia.
Qed.

Lemma search_from_here r s c : match_here r s = Some c → search_from r s = Some c.
Proof. intros H. destruct s; simpl; by rewrite H. Qed.

Lemma revenue_match_here rest :
  ∃ c, match_here (pattern1_re "Revenue") (chars "Revenue: $1,234.56" ++ rest) = Some c ∧
       c !! 1%nat = Some (chars "1,234.56").
Proof. eexists. split; vm_compute; reflexivity. Qed.

Lemma revenue_match_of before after :
  (∀ i, (i < length (chars before))%nat →
        matches_at (pattern1_re "Revenue")
          (chars (before +:+ "Revenue: $1,234.56" +:+ after)) i = false) →
  match_of (before +:+ "Revenue: $1,234.56" +:+ after) "Revenue" = Some "1234.56".
Proof.
  intros H. unfold match_of, patterns, first_match.
  rewrite re_search_plain1 by repeat constructor.
  rewrite !chars_app in *. rewrite search_from_skip by done.
  destruct (revenue_match_here (chars after)) as (c & Hc & Hg).
  rewrite (search_from_here _ _ _ Hc).
  change (Ret ?x ≫= ?f) with (f x). cbv beta.
  cbv iota. by rewrite (group1_of _ _ Hg).
Qed.

(** ** The extractor: statements *)

Lemma not_numeric_letter c rest :
  is_digit c = false → ¬ numeric (String c rest).
Proof.
  intros Hc (ds & frac & H & Hne & Hd & _). destruct ds as [|d ds]; [done|].
  simpl in H. injection H as -> _. inversion Hd; subst. congruence.
Qed.

(** C3, as stated, fails: the buffer holds "Revenue: $1,234.56", yet an
    earlier "Revenue 7" is the leftmost match and "7" is recorded. *)
Lemma revenue_round_trip_earlier_match :
  let response := results_of ["Revenue 7"; "Revenue: $1,234.56"] in
  ∃ buffer m,
    search_buffer response = Ret (Some buffer) ∧
    is_substring (chars "Revenue: $1,234.56") (chars buffer) = true ∧
    extract_metrics_from_response response (Some ["Revenue"]) = Ret m ∧
    m !! "Revenue" = Some "7".
Proof.
  eexists _, _. split_and!; [reflexivity | reflexivity | vm_compute; reflexivity |].
  vm_compute. reflexivity.
Qed.

(** C3 (amended): when the buffer holds "Revenue: $1,234.56" and the
    first pattern for "Revenue" matches at no earlier position of the
    buffer, extraction over plain metric names that include "Revenue"
    maps "Revenue" to "1234.56". *)
Theorem revenue_round_trip response_data names before after :
  Forall plain names →
  "Revenue" ∈ names →
  search_buffer response_data
    = Ret (Some (before +:+ "Revenue: $1,234.56" +:+ after)) →
  (∀ i, (i < length (chars before))%nat →
        matches_at (pattern1_re "Revenue")
          (chars (before +:+ "Revenue: $1,234.56" +:+ after)) i = false) →
  ∃ m, extract_metrics_from_response response_data (Some names) = Ret m ∧
       m !! "Revenue" = Some "1234.56".
Proof.
  intros Hnames Hin Hbuf Hfirst.
  destruct (extract_lookup _ _ _ Hnames Hbuf) as (m & Hm & Hlook).
  exists m. split; [done|].
  rewrite Hlook, decide_True by done. simpl.
  by rewrite revenue_match_of.
Qed.

Lemma revenue_round_trip_witness :
  ∃ m, extract_metrics_from_response (results_of ["Revenue: $1,234.56"])
         (Some ["Revenue"]) = Ret m ∧
       m !! "Revenue" = Some "1234.56".
Proof.
  apply (revenue_round_trip _ _ " " "").
  - repeat constructor.
  - apply elem_of_cons. by left.
  - reflexivity.
  - intros [|i] Hi; [vm_compute; reflexivity | simpl in Hi; lia].
Defined.

(** C4: a metric name goes into the pattern as it is, without escaping
    (lines 237-238), so a name with an unbalanced parenthesis is not a
    pattern and the call raises [re.error] at line 242, where the claim
    has it never raise, whatever the name. *)
Lemma absent_metric_raises :
  extract_metrics_from_response (results_of ["Revenue: 5"]) (Some ["("])
  = Raise (re_error "missing ), unterminated subpattern").
Proof. vm_compute. reflexivity. Qed.

(** C5: the buffer is made of the first five search results, a space
    and the text of each in the order received; it, and with it every
    extracted value, is the same for two responses that agree on their
    first five results, whatever follows them. *)
Theorem only_first_five fields1 fields2 results1 results2 metric_names :
  assoc "search_results" fields1 = Some (JArr results1) →
  assoc "search_results" fields2 = Some (JArr results2) →
  take 5 results1 = take 5 results2 →
  search_buffer (JObj fields1) = search_buffer (JObj fields2) ∧
  extract_metrics_from_response (JObj fields1) metric_names
  = extract_metrics_from_response (JObj fields2) metric_names ∧
  ∀ texts, search_buffer (results_of texts) = Ret (Some (buffer_of (take 5 texts))).
Proof.
  intros H1 H2 H5.
  assert (Hbuf : search_buffer (JObj fields1) = search_buffer (JObj fields2)).
  { by rewrite (search_buffer_results _ _ H1), (search_buffer_results _ _ H2), H5. }
  split_and!; [done | | apply search_buffer_snippets].
  unfold extract_metrics_from_response. by rewrite Hbuf.
Qed.

Lemma only_first_five_witness :
  search_buffer (results_of seven_snippets)
  = search_buffer (results_of (take 5 seven_snippets)) ∧
  extract_metrics_from_response (results_of seven_snippets) None
  = extract_metrics_from_response (results_of (take 5 seven_snippets)) None ∧
  ∀ texts, search_buffer (results_of texts) = Ret (Some (buffer_of (take 5 texts))).
Proof.
  apply (only_first_five _ _ (snippet <$> seven_snippets)
           (snippet <$> take 5 seven_snippets)); reflexivity.
Defined.

Example buffer_of_seven_snippets :
  search_buffer (results_of seven_snippets) = Ret (Some " one two three four five").
Proof. reflexivity. Qed.

(** The sixth snippet names a revenue; the extractor does not see it. *)
Example sixth_snippet_unseen :
  ∃ m, extract_metrics_from_response (results_of seven_snippets) (Some ["Revenue"])
       = Ret m ∧ m !! "Revenue" = Some "N/A".
Proof. eexists. split; vm_compute; reflexivity. Qed.

(** C9: the extractor reads and writes no state of the program: run from
    any two worlds it gives the same outcome and leaves each world as it
    was, and two successive calls on the same inputs agree. *)
Theorem extract_idempotent response_data metric_names (w w' : world) :
  let extract := extract_metrics_from_response response_data metric_names in
  let call : io (gmap string string) := lift extract in
  call w = (extract, w) ∧
  (call w').1 = (call w).1 ∧
  (a ← call; b ← call; mret (a, b)) w = ((a ← extract; mret (a, a)), w).
Proof.
  intros extract call. split_and!; [done | done |].
  unfold call, lift, mbind, io_bind, mret, io_ret, res_bind.
  by destruct extract.
Qed.

(** C10: a metric name goes into the pattern as it is, without escaping
    (lines 237-238), so a name with a group of its own shifts the number
    out of group 1, which line 244 reads: the value recorded is text of
    the label, neither "N/A" nor a number. *)
Lemma extract_values_label_text :
  ∃ m, extract_metrics_from_response (results_of ["Profit Loss 5"])
         (Some ["Profit (Loss)"]) = Ret m ∧
       m !! "Profit (Loss)" = Some "Loss" ∧
       "Loss" ≠ "N/A" ∧ ¬ numeric "Loss".
Proof.
  eexists. split_and!; [vm_compute; reflexivity | vm_compute; reflexivity | done |].
  by apply not_numeric_letter.
Qed.

(** X23: for plain metric names (the default five when none are given)
    and a response whose buffer can be built (null, without search
    results, or made of snippets), the call returns a mapping whose keys
    are exactly the names and whose values are "N/A" or digits with an
    optional two-digit decimal part. *)
Theorem extract_keys_and_values response_data metric_names buffer :
  Forall plain (default default_metric_names metric_names) →
  search_buffer response_data = Ret buffer →
  ∃ m : gmap string string,
    extract_metrics_from_response response_data metric_names = Ret m ∧
    dom m = list_to_set (default default_metric_names metric_names) ∧
    ∀ k v, m !! k = Some v → v = "N/A" ∨ numeric v.
Proof.
  intros Hnames Hbuf.
  set (names := default default_metric_names metric_names) in *.
  assert (Heq : extract_metrics_from_response response_data metric_names
                = extract_metrics_from_response response_data (Some names)).
  { by destruct metric_names. }
  destruct (extract_lookup _ _ _ Hnames Hbuf) as (m & Hm & Hlook).
  exists m. rewrite Heq. split_and!; [done | |].
  - apply set_eq. intros k. rewrite elem_of_dom, elem_of_list_to_set, Hlook.
    destruct (decide (k ∈ names)); split; try done; by intros [? ?].
  - intros k v. rewrite Hlook. destruct (decide (k ∈ names)) as [Hin|]; [|done].
    intros [= <-]. destruct buffer as [text|]; [|by left]. simpl.
    assert (Hname : plain k).
    { rewrite Forall_forall in Hnames. by apply Hnames. }
    destruct (first_match_plain k text Hname) as (r & Hr & Hspec).
    unfold match_of. rewrite Hr. destruct r as [v|]; [|by left].
    right. simpl. destruct Hspec as (g & -> & Hg & _). by apply number_shape.
Qed.

Lemma extract_keys_and_values_witness :
  ∃ m : gmap string string,
    extract_metrics_from_response (results_of ["Revenue: $1,234.56"]) None = Ret m ∧
    dom m = list_to_set default_metric_names ∧
    ∀ k v, m !! k = Some v → v = "N/A" ∨ numeric v.
Proof.
  apply (extract_keys_and_values (results_of ["Revenue: $1,234.56"]) None
           (Some " Revenue: $1,234.56")).
  - repeat constructor.
  - reflexivity.
Defined.

(** *** Inputs outside these statements *)

(** An alternation in the name leaves group 1 unset when its first branch
    matches, and [None] has no [replace]. *)
Example alternation_in_name_raises :
  extract_metrics_from_response (results_of ["a"]) (Some ["a|b"])
  = Raise (AttributeError "'NoneType' object has no attribute 'replace'").
Proof. vm_compute. reflexivity. Qed.

(** A dot in the name matches any character: a number is recorded though
    the label "a.c" is not in the text. *)
Example dot_in_name_matches_other_text :
  ∃ m, extract_metrics_from_response (results_of ["abc 5"]) (Some ["a.c"]) = Ret m ∧
       m !! "a.c" = Some "5".
Proof. eexists. split; vm_compute; reflexivity. Qed.

(** A search result that is no snippet makes the call raise. *)
Example non_snippet_raises :
  extract_metrics_from_response (JObj [("search_results", JArr [JNum 5])]) None
  = Raise (TypeError "argument of type 'number' is not iterable").
Proof. reflexivity. Qed.

(** A number longer than the pattern allows is recorded in part. *)
Example long_number_in_part :
  ∃ m, extract_metrics_from_response (results_of ["Revenue 12345"]) (Some ["Revenue"])
       = Ret m ∧ m !! "Revenue" = Some "123".
Proof. eexists. split; vm_compute; reflexivity. Qed.

(** ** The client: what each operation does with the outcome of its request *)

Ltac run :=
  unfold try_except, send, int, json, datetime_now_isoformat,
    datetime_now_timestamp, tick, lift, mbind, io_bind, mret, io_ret.

Lemma test_connection_run E self w :
  test_connection E self w
  = (Ret (connection_verdict (remote E (calls w) (corpus_request self))),
     record_call (corpus_request self) w).
Proof.
  unfold test_connection, connection_verdict. run.
  destruct (remote E (calls w) (corpus_request self)) as [r|msg]; [|done].
  repeat (case_bool_decide; [done|]). done.
Qed.

Lemma upload_file_run E self file_content filename w :
  let req := upload_request E self file_content filename (now_isoformat E (ticks w)) in
  upload_file E self file_content filename w
  = (Ret (upload_verdict filename (remote E (calls w) req)), record_call req (ticked w)).
Proof.
  unfold upload_file, upload_verdict. run. cbn [calls ticked].
  destruct (remote E (calls w) _) as [r|msg]; [|done].
  destruct (bool_decide (status_code r = 200%Z) || bool_decide (status_code r = 201%Z));
    [done|].
  repeat (case_bool_decide; [done|]). done.
Qed.

Lemma upload_file_v1_run E self file_content filename w :
  upload_file_v1 E self file_content filename w
  = match py_int E (customer_id self), py_int E (corpus_id self) with
    | inr customer, inr corpus =>
        let req := index_request E self file_content filename customer corpus
                     (now_timestamp E (ticks w)) (now_isoformat E (S (ticks w))) in
        (Ret (index_verdict filename (remote E (calls w) req)),
         record_call req (ticked (ticked w)))
    | inl msg, _ | inr _, inl msg =>
        (Ret (false, "Error uploading " +:+ filename +:+ ": " +:+ msg), w)
    end.
Proof.
  unfold upload_file_v1, index_verdict. run.
  destruct (py_int E (customer_id self)) as [m1|customer]; [done|].
  destruct (py_int E (corpus_id self)) as [m2|corpus]; [done|].
  cbn [calls ticks ticked].
  destruct (remote E (calls w) _) as [r|msg]; [|done].
  destruct (bool_decide (status_code r = 200%Z) || bool_decide (status_code r = 201%Z));
    [done|].
  repeat (case_bool_decide; [done|]). done.
Qed.

Lemma query_run E self query_text num_results w :
  let req := query_request self query_text num_results in
  query E self query_text num_results w
  = (Ret (query_verdict (remote E (calls w) req)), record_call req w).
Proof.
  unfold query, query_verdict. run.
  destruct (remote E (calls w) _) as [r|msg]; [|done].
  case_bool_decide; [by destruct (json_body r)|].
  repeat (case_bool_decide; [done|]). done.
Qed.

Lemma list_documents_run E self w :
  list_documents E self w
  = (Ret (documents_verdict (remote E (calls w) (documents_request self))),
     record_call (documents_request self) w).
Proof.
  unfold list_documents, documents_verdict. run.
  destruct (remote E (calls w) _) as [r|msg]; [|done].
  case_bool_decide; [by destruct (json_body r)|]. done.
Qed.

Lemma check_permissions_run E self w :
  ∃ report,
    check_permissions E self w
    = (Ret report,
       record_call (corpus_request self) (record_call (documents_request self) w)).
Proof.
  unfold check_permissions, try_except, mbind, io_bind. rewrite list_documents_run.
  unfold send, mret, io_ret.
  destruct (remote E _ (corpus_request self)); eexists; reflexivity.
Qed.

Lemma initialize_vectara_run E api_key customer_id corpus_id w :
  let client := VectaraClient_init api_key customer_id corpus_id in
  let verdict := connection_verdict (remote E (calls w) (corpus_request client)) in
  initialize_vectara E api_key customer_id corpus_id w
  = (Ret (if verdict.1 then (Some client, None) else (None, Some verdict.2)),
     record_call (corpus_request client) w).
Proof.
  intros client verdict.
  unfold initialize_vectara, try_except, mbind, io_bind. rewrite test_connection_run.
  fold client. fold verdict. by destruct verdict as [[] msg].
Qed.

(** ** The client: statements *)

Lemma answered_200 (r : response) :
  answered [200%Z] (Responded r) ↔ status_code r = 200%Z.
Proof.
  unfold answered. split.
  - intros (r' & [= <-] & H). by apply list_elem_of_singleton in H.
  - intros H. exists r. split; [done|]. by apply list_elem_of_singleton.
Qed.

Lemma answered_200_201 (r : response) :
  answered [200%Z; 201%Z] (Responded r)
  ↔ bool_decide (status_code r = 200%Z) || bool_decide (status_code r = 201%Z) = true.
Proof.
  rewrite orb_true_iff, !bool_decide_eq_true. unfold answered. split.
  - intros (r' & [= <-] & H). rewrite !elem_of_cons, elem_of_nil in H. tauto.
  - intros H. exists r. split; [done|]. rewrite !elem_of_cons. tauto.
Qed.

Lemma not_answered_failed codes msg : ¬ answered codes (Failed msg).
Proof. by intros (r & ? & _). Qed.

(** The verdict on a connection: success exactly on status 200; on any
    other outcome a message that is not empty. *)
Lemma connection_verdict_failure o :
  ((connection_verdict o).1 = true ↔ answered [200%Z] o) ∧
  ((connection_verdict o).1 = false → (connection_verdict o).2 ≠ "") ∧
  (∀ e, o = Failed e → connection_verdict o = (false, "Connection error: " +:+ e)).
Proof.
  unfold connection_verdict. destruct o as [r|msg].
  - rewrite answered_200.
    repeat case_bool_decide; (split_and!; [done | done | done]).
  - split_and!; [|done|by intros e [= <-]].
    split; [done|]. by intros ?%not_answered_failed.
Qed.

Lemma upload_verdict_failure filename o :
  ((upload_verdict filename o).1 = true ↔ answered [200%Z; 201%Z] o) ∧
  ((upload_verdict filename o).1 = false → (upload_verdict filename o).2 ≠ "") ∧
  (∀ e, o = Failed e →
     upload_verdict filename o = (false, "Error uploading " +:+ filename +:+ ": " +:+ e)).
Proof.
  unfold upload_verdict. destruct o as [r|msg].
  - rewrite answered_200_201.
    destruct (bool_decide (status_code r = 200%Z) || bool_decide (status_code r = 201%Z));
      [done|].
    repeat case_bool_decide; (split_and!; [done | done | done]).
  - split_and!; [|done|by intros e [= <-]].
    split; [done|]. by intros ?%not_answered_failed.
Qed.

Lemma index_verdict_failure filename o :
  ((index_verdict filename o).1 = true ↔ answered [200%Z; 201%Z] o) ∧
  ((index_verdict filename o).1 = false → (index_verdict filename o).2 ≠ "") ∧
  (∀ e, o = Failed e →
     index_verdict filename o = (false, "Error uploading " +:+ filename +:+ ": " +:+ e)).
Proof.
  unfold index_verdict. destruct o as [r|msg].
  - rewrite answered_200_201.
    destruct (bool_decide (status_code r = 200%Z) || bool_decide (status_code r = 201%Z));
      [done|].
    repeat case_bool_decide; (split_and!; [done | done | done]).
  - split_and!; [|done|by intros e [= <-]].
    split; [done|]. by intros ?%not_answered_failed.
Qed.

Lemma query_verdict_failure o :
  ((query_verdict o).2 = None ↔ decoded (query_verdict o).1 o) ∧
  ((query_verdict o).2 ≠ None → reports_failure JNull (query_verdict o).1 (query_verdict o).2) ∧
  (∀ e, o = Failed e → query_verdict o = (JNull, Some ("Error querying: " +:+ e))).
Proof.
  unfold query_verdict, decoded, reports_failure. destruct o as [r|msg].
  - case_bool_decide as H200.
    + destruct (json_body r) as [msg|v] eqn:Hbody; cbn [fst snd].
      * split_and!; [|by eauto|done].
        split; [done|]. intros (r' & [= <-] & _ & Hb). congruence.
      * split_and!; [|done|done]. split; [|done]. intros _. by exists r.
    + case_bool_decide; cbn [fst snd]; (split_and!; [|by eauto|done]);
        (split; [done|]); intros (r' & [= <-] & ? & _); done.
  - cbn [fst snd]. split_and!; [|by eauto|by intros e [= <-]].
    split; [done|]. by intros (? & ? & _).
Qed.

Lemma documents_verdict_failure o :
  ((documents_verdict o).2 = None ↔ decoded (documents_verdict o).1 o) ∧
  ((documents_verdict o).2 ≠ None →
   reports_failure JNull (documents_verdict o).1 (documents_verdict o).2) ∧
  (∀ e, o = Failed e →
     documents_verdict o = (JNull, Some ("Error listing documents: " +:+ e))) ∧
  (∀ v, decoded v o → (documents_verdict o).2 = None).
Proof.
  unfold documents_verdict, decoded, reports_failure. destruct o as [r|msg].
  - case_bool_decide as H200.
    + destruct (json_body r) as [msg|v] eqn:Hbody; cbn [fst snd].
      * split_and!; [|by eauto|done|].
        -- split; [done|]. intros (r' & [= <-] & _ & Hb). congruence.
        -- intros v (r' & [= <-] & _ & Hb). congruence.
      * split_and!; [|done|done|done]. split; [|done]. intros _. by exists r.
    + cbn [fst snd]. split_and!; [|by eauto|done|].
      * split; [done|]. intros (r' & [= <-] & ? & _). done.
      * intros v (r' & [= <-] & ? & _). done.
  - cbn [fst snd]. split_and!; [|by eauto|by intros e [= <-]|].
    + split; [done|]. by intros (? & ? & _).
    + by intros v (? & ? & _).
Qed.

(** The report of [check_permissions], as a function of the outcomes of
    its two requests. *)
Lemma check_permissions_report E self (w : world) :
  let listing := documents_verdict (remote E (calls w) (documents_request self)) in
  (check_permissions E self w).1
  = Ret (match remote E (calls w ++ [documents_request self]) (corpus_request self) with
         | Responded r =>
             let can_read := bool_decide (listing.2 = None) in
             Report can_read (bool_decide (status_code r = 200%Z))
               (if can_read then None else listing.2)
         | Failed msg => ReportError msg
         end).
Proof.
  intros listing.
  unfold check_permissions, try_except, mbind, io_bind. rewrite list_documents_run.
  unfold send, mret, io_ret. cbn [calls record_call]. fold listing.
  by destruct (remote E (calls w ++ [documents_request self]) (corpus_request self)).
Qed.

(** C8: no operation of the client raises, whatever the service does,
    and each reports a failure in what it returns.  [test_connection]
    and the two uploads return a pair (ok, message) in which ok is true
    exactly when the request was answered with a status of success (200;
    200 or 201 for an upload; for the indexing upload after both
    identifiers were read as integers), and the message of a failure is
    not empty.  [query] and [list_documents] return a pair (result,
    error) in which the error is null exactly when the request was
    answered 200 with a body that decodes, the result being that body;
    otherwise the result is null and the error a message.  The report of
    [check_permissions] is an error exactly when the corpus request
    failed in transport, and otherwise says "can view" exactly on status
    200 and "can read" exactly when the listing succeeded, with the
    listing's error when it did not.  [initialize_vectara] returns the
    client and no error exactly on status 200, and otherwise no client
    and an error.  An exception of the transport ends as the message:
    its text after the operation's prefix. *)
Theorem operations_never_raise E self file_content filename query_text num_results
    key customer corpus (w : world) :
  let outcome_of := remote E (calls w) in
  (∃ ok msg,
     (test_connection E self w).1 = Ret (ok, msg) ∧
     (ok = true ↔ answered [200%Z] (outcome_of (corpus_request self))) ∧
     (ok = false → msg ≠ "") ∧
     (∀ e, outcome_of (corpus_request self) = Failed e →
        msg = "Connection error: " +:+ e)) ∧
  (∃ ok msg,
     let req := upload_request E self file_content filename (now_isoformat E (ticks w)) in
     (upload_file E self file_content filename w).1 = Ret (ok, msg) ∧
     (ok = true ↔ answered [200%Z; 201%Z] (outcome_of req)) ∧
     (ok = false → msg ≠ "") ∧
     (∀ e, outcome_of req = Failed e →
        msg = "Error uploading " +:+ filename +:+ ": " +:+ e)) ∧
  (∃ ok msg,
     let req customer corpus :=
       index_request E self file_content filename customer corpus
         (now_timestamp E (ticks w)) (now_isoformat E (S (ticks w))) in
     (upload_file_v1 E self file_content filename w).1 = Ret (ok, msg) ∧
     (ok = true ↔
      ∃ customer corpus,
        py_int E (customer_id self) = inr customer ∧
        py_int E (corpus_id self) = inr corpus ∧
        answered [200%Z; 201%Z] (outcome_of (req customer corpus))) ∧
     (ok = false → msg ≠ "") ∧
     (∀ customer corpus e,
        py_int E (customer_id self) = inr customer →
        py_int E (corpus_id self) = inr corpus →
        outcome_of (req customer corpus) = Failed e →
        msg = "Error uploading " +:+ filename +:+ ": " +:+ e)) ∧
  (∃ result error,
     let req := query_request self query_text num_results in
     (query E self query_text num_results w).1 = Ret (result, error) ∧
     (error = None ↔ decoded result (outcome_of req)) ∧
     (error ≠ None → reports_failure JNull result error) ∧
     (∀ e, outcome_of req = Failed e → error = Some ("Error querying: " +:+ e))) ∧
  (∃ result error,
     (list_documents E self w).1 = Ret (result, error) ∧
     (error = None ↔ decoded result (outcome_of (documents_request self))) ∧
     (error ≠ None → reports_failure JNull result error) ∧
     (∀ e, outcome_of (documents_request self) = Failed e →
        error = Some ("Error listing documents: " +:+ e))) ∧
  (∃ report,
     let listing := outcome_of (documents_request self) in
     let probe := remote E (calls w ++ [documents_request self]) (corpus_request self) in
     (check_permissions E self w).1 = Ret report ∧
     match report with
     | ReportError e => probe = Failed e
     | Report can_read can_view_corpus read_error =>
         (∃ r, probe = Responded r) ∧
         (can_view_corpus = true ↔ answered [200%Z] probe) ∧
         (can_read = true ↔ ∃ v, decoded v listing) ∧
         (can_read = true → read_error = None) ∧
         (can_read = false → ∃ m, read_error = Some m ∧ m ≠ "") ∧
         (∀ e, listing = Failed e →
            read_error = Some ("Error listing documents: " +:+ e))
     end) ∧
  (∃ client error,
     let made := VectaraClient_init key customer corpus in
     (initialize_vectara E key customer corpus w).1 = Ret (client, error) ∧
     (client = Some made ∧ error = None ∧ answered [200%Z] (outcome_of (corpus_request made))
      ∨ ¬ answered [200%Z] (outcome_of (corpus_request made)) ∧
        reports_failure None client error) ∧
     (∀ e, outcome_of (corpus_request made) = Failed e →
        error = Some ("Connection error: " +:+ e))).
Proof.
  intros outcome_of. subst outcome_of. split_and!.
  - rewrite test_connection_run. cbn [fst].
    destruct (connection_verdict_failure (remote E (calls w) (corpus_request self)))
      as (Hok & Hmsg & Hexn).
    destruct (connection_verdict _) as [ok msg]. exists ok, msg.
    split_and!; [done | done | done |]. by intros e [= -> ->]%Hexn.
  - rewrite upload_file_run. cbn zeta. cbn [fst].
    destruct (upload_verdict_failure filename
                (remote E (calls w)
                   (upload_request E self file_content filename (now_isoformat E (ticks w)))))
      as (Hok & Hmsg & Hexn).
    destruct (upload_verdict _ _) as [ok msg]. exists ok, msg.
    split_and!; [done | done | done |]. by intros e [= -> ->]%Hexn.
  - rewrite upload_file_v1_run.
    destruct (py_int E (customer_id self)) as [m1|a].
    { eexists _, _. split_and!; [done | | done | done].
      split; [done|]. by intros (? & ? & ? & _). }
    destruct (py_int E (corpus_id self)) as [m2|b].
    { eexists _, _. split_and!; [done | | done | done].
      split; [done|]. by intros (? & ? & _ & ? & _). }
    cbn zeta. cbn [fst].
    destruct (index_verdict_failure filename
                (remote E (calls w)
                   (index_request E self file_content filename a b
                      (now_timestamp E (ticks w)) (now_isoformat E (S (ticks w))))))
      as (Hok & Hmsg & Hexn).
    destruct (index_verdict _ _) as [ok msg]. exists ok, msg.
    split_and!; [done | | done |].
    + rewrite Hok. split; [by exists a, b|]. by intros (? & ? & [= <-] & [= <-] & ?).
    + by intros ? ? e [= <-] [= <-] [= -> ->]%Hexn.
  - rewrite query_run. cbn zeta. cbn [fst].
    destruct (query_verdict_failure
                (remote E (calls w) (query_request self query_text num_results)))
      as (Hok & Hmsg & Hexn).
    destruct (query_verdict _) as [result error]. exists result, error.
    split_and!; [done | done | done |]. by intros e [= -> ->]%Hexn.
  - rewrite list_documents_run. cbn [fst].
    destruct (documents_verdict_failure (remote E (calls w) (documents_request self)))
      as (Hok & Hmsg & Hexn & _).
    destruct (documents_verdict _) as [result error]. exists result, error.
    split_and!; [done | done | done |]. by intros e [= -> ->]%Hexn.
  - eexists. cbn zeta. split; [apply check_permissions_report|]. cbn zeta.
    destruct (remote E (calls w ++ [documents_request self]) (corpus_request self))
      as [r|msg]; [|done].
    destruct (documents_verdict_failure (remote E (calls w) (documents_request self)))
      as (Hok & Hmsg & Hexn & Hdec).
    destruct (documents_verdict _) as [result error]. cbn [fst snd] in *.
    split_and!.
    + by exists r.
    + by rewrite answered_200, bool_decide_eq_true.
    + rewrite bool_decide_eq_true. split; [intros H%Hok; by exists result|].
      intros [v Hv]. by apply (Hdec v).
    + intros ?%bool_decide_eq_true. by rewrite bool_decide_eq_true_2.
    + intros Hno%bool_decide_eq_false. rewrite bool_decide_eq_false_2 by done.
      destruct (Hmsg Hno) as (_ & m & -> & Hm). by exists m.
    + intros e [= _ ->]%Hexn. by rewrite bool_decide_eq_false_2.
  - rewrite initialize_vectara_run. cbn zeta. cbn [fst].
    destruct (connection_verdict_failure
                (remote E (calls w) (corpus_request (VectaraClient_init key customer corpus))))
      as (Hok & Hmsg & Hexn).
    destruct (connection_verdict _) as [[] msg]; cbn [fst snd] in *; eexists _, _;
      (split_and!; [reflexivity | |]).
    + left. split_and!; [done | done |]. by apply Hok.
    + intros e [=]%Hexn.
    + right. split; [by intros ?%Hok|]. split; [done|]. exists msg. split; [done|].
      by apply Hmsg.
    + by intros e [= <-]%Hexn.
Qed.

(** C6: on status 200 with the JSON body [null], [query] returns a pair
    whose result and error are both null (lines 184-185), where the claim
    has exactly one of the two non-null. *)
Lemma query_null_body :
  let E := fixed_env (Responded {| status_code := 200; text := "null";
                                   json_body := inr JNull |}) in
  (query E (VectaraClient_init "key" "1" "corpus") "total revenue" 10 fresh_world).1
  = Ret (JNull, None).
Proof. reflexivity. Qed.

(** X24: [query] returns a pair of which at most one component is
    non-null.  The error is null exactly when the service answered 200
    with a body that decodes, and the result is then that body (null
    when the body is JSON null); otherwise the result is null and the
    error is a string. *)
Theorem query_result_or_error E self query_text num_results (w : world) :
  ∃ result error,
    (query E self query_text num_results w).1 = Ret (result, error) ∧
    (error = None ∨ result = JNull) ∧
    (error = None ↔
     ∃ r, remote E (calls w) (query_request self query_text num_results) = Responded r ∧
          status_code r = 200%Z ∧ json_body r = inr result).
Proof.
  rewrite query_run. cbn [fst]. unfold query_verdict.
  destruct (remote E (calls w) _) as [r|msg].
  - case_bool_decide as H200.
    + destruct (json_body r) as [msg|v] eqn:Hbody; eexists _, _;
        (split_and!; [done | eauto |]).
      * split; [done|]. intros (r' & [= <-] & _ & Hb). congruence.
      * split; [|done]. intros _. by exists r.
    + case_bool_decide; eexists _, _; (split_and!; [done | eauto |]);
        (split; [done|]); intros (r' & [= <-] & ? & _); done.
  - eexists _, _. split_and!; [done | eauto |]. split; [done|]. by intros (? & ? & _).
Qed.

(** X1: [list_documents] obeys the same rule as [query]: it returns a
    pair of which at most one component is non-null, and the error is
    null exactly when the service answered 200 with a body that decodes,
    the result being that body. *)
Lemma list_documents_result_or_error E self (w : world) :
  ∃ result error,
    (list_documents E self w).1 = Ret (result, error) ∧
    (error = None ∨ result = JNull) ∧
    (error = None ↔
     ∃ r, remote E (calls w) (documents_request self) = Responded r ∧
          status_code r = 200%Z ∧ json_body r = inr result).
Proof.
  rewrite list_documents_run. cbn [fst]. unfold documents_verdict.
  destruct (remote E (calls w) _) as [r|msg].
  - case_bool_decide as H200.
    + destruct (json_body r) as [msg|v] eqn:Hbody; eexists _, _;
        (split_and!; [done | eauto |]).
      * split; [done|]. intros (r' & [= <-] & _ & Hb). congruence.
      * split; [|done]. intros _. by exists r.
    + eexists _, _. split_and!; [done | eauto |].
      split; [done|]. intros (r' & [= <-] & ? & _). done.
  - eexists _, _. split_and!; [done | eauto |]. split; [done|]. by intros (? & ? & _).
Qed.

(** C1, as stated, fails: the multipart upload has no branch for 404, so
    the message for that status does not name the category. *)
Lemma upload_not_found_unnamed :
  let E := fixed_env (answer 404 "") in
  (upload_file E (VectaraClient_init "key" "1" "corpus") [] "report.pdf" fresh_world).1
  = Ret (false, "Upload failed (404): ") ∧
  names_category 404 "Upload failed (404): " = false.
Proof. split; reflexivity. Qed.

Lemma names_forbidden_response t :
  names_category 403
    ("403 Forbidden - Check corpus permissions for uploads. Response: " +:+ t) = true.
Proof. vm_compute. reflexivity. Qed.

(** One of the three statuses with a category of their own, or another. *)
Lemma status_cases (s : Z) :
  s = 401%Z ∨ s = 403%Z ∨ s = 404%Z ∨ s ∉ [401; 403; 404]%Z.
Proof.
  destruct (decide (s = 401%Z)); [by left|].
  destruct (decide (s = 403%Z)); [by right; left|].
  destruct (decide (s = 404%Z)); [by right; right; left|].
  right; right; right. rewrite !elem_of_cons, elem_of_nil. tauto.
Qed.

(** Settles what is said of a message once the status is a known number
    or known to be none of 401, 403, 404. *)
Ltac settle :=
  eexists; split; [reflexivity|];
  split_and!;
    (let H := fresh in
     intros H;
     first
       [ exfalso; rewrite ?elem_of_cons, ?elem_of_nil in *; first [tauto | lia]
       | reflexivity
       | vm_compute; reflexivity ]).

(** C1 (amended): when the service answers with a status other than 200
    and 201, every operation reports a failure, and for 401, 403 and 404
    the message carries the status code.  The message names the category
    in words for 401, 403 and 404 in [test_connection], for 401 and 403
    in the multipart upload, and for 403 in the indexing upload and in
    [query]; for every other status, and for every status in
    [list_documents], it is the operation's generic text with the status
    code and the raw response text. *)
Theorem error_classification E self file_content filename query_text num_results
    (w : world) r :
  (∀ h req, remote E h req = Responded r) →
  status_code r ≠ 200%Z →
  status_code r ≠ 201%Z →
  let s := status_code r in
  let classified (named : list Z) (generic sep m : string) : Prop :=
    (s ∈ named → names_category s m = true) ∧
    (s ∉ named → m = generic +:+ str s +:+ sep +:+ text r) ∧
    (s ∈ [401; 403; 404]%Z → mentions (str s) m = true) in
  (∃ m, (test_connection E self w).1 = Ret (false, m) ∧
        classified [401; 403; 404]%Z "Error " ": " m) ∧
  (∃ m, (upload_file E self file_content filename w).1 = Ret (false, m) ∧
        classified [401; 403]%Z "Upload failed (" "): " m) ∧
  (is_int (py_int E (customer_id self)) && is_int (py_int E (corpus_id self)) = true →
   ∃ m, (upload_file_v1 E self file_content filename w).1 = Ret (false, m) ∧
        classified [403]%Z "Upload failed (" "): " m) ∧
  (∃ m, (query E self query_text num_results w).1 = Ret (JNull, Some m) ∧
        classified [403]%Z "Query failed (" "): " m) ∧
  (∃ m, (list_documents E self w).1 = Ret (JNull, Some m) ∧
        classified [] "Failed to list documents (" "): " m).
Proof.
  intros Hremote H200 H201 s classified. subst classified. cbv beta.
  assert (Hother : s ∉ [401; 403; 404]%Z →
                   bool_decide (s = 401%Z) = false ∧ bool_decide (s = 403%Z) = false ∧
                   bool_decide (s = 404%Z) = false).
  { rewrite !elem_of_cons, elem_of_nil. intros H.
    split_and!; apply bool_decide_eq_false_2; tauto. }
  split_and!.
  - rewrite test_connection_run, Hremote. cbn [fst connection_verdict].
    rewrite !bool_decide_eq_false_2 by done. fold s.
    destruct (status_cases s) as [Hs|[Hs|[Hs|Hs]]];
      [rewrite Hs; settle .. |].
    destruct (Hother Hs) as (H1 & H3 & H4). rewrite ?H1, ?H3, ?H4. settle.
  - rewrite upload_file_run. cbn zeta. rewrite Hremote. cbn [fst upload_verdict].
    rewrite !bool_decide_eq_false_2 by done. cbn [orb]. fold s.
    destruct (status_cases s) as [Hs|[Hs|[Hs|Hs]]];
      [rewrite Hs; settle .. |].
    destruct (Hother Hs) as (H1 & H3 & H4). rewrite ?H1, ?H3, ?H4. settle.
  - intros Hint. rewrite upload_file_v1_run.
    destruct (py_int E (customer_id self)) as [m1|a]; [done|].
    destruct (py_int E (corpus_id self)) as [m2|b]; [done|].
    cbn zeta. rewrite Hremote. cbn [fst index_verdict].
    rewrite !bool_decide_eq_false_2 by done. cbn [orb]. fold s.
    destruct (status_cases s) as [Hs|[Hs|[Hs|Hs]]];
      [rewrite Hs; settle .. |].
    destruct (Hother Hs) as (H1 & H3 & H4). rewrite ?H1, ?H3, ?H4. settle.
  - rewrite query_run. cbn zeta. rewrite Hremote. cbn [fst query_verdict].
    rewrite !bool_decide_eq_false_2 by done. fold s.
    destruct (status_cases s) as [Hs|[Hs|[Hs|Hs]]];
      [rewrite Hs; settle .. |].
    destruct (Hother Hs) as (H1 & H3 & H4). rewrite ?H1, ?H3, ?H4. settle.
  - rewrite list_documents_run, Hremote. cbn [fst documents_verdict].
    rewrite !bool_decide_eq_false_2 by done. fold s.
    destruct (status_cases s) as [Hs|[Hs|[Hs|Hs]]];
      [rewrite Hs; settle .. |].
    settle.
Qed.

Lemma error_classification_witness :
  let E := fixed_env (answer 403 "no INDEX permission") in
  ∃ m, (test_connection E (VectaraClient_init "key" "1" "corpus") fresh_world).1
       = Ret (false, m) ∧
       names_category 403 m = true.
Proof.
  destruct (error_classification
              (fixed_env (answer 403 "no INDEX permission"))
              (VectaraClient_init "key" "1" "corpus") [] "report.pdf"
              "total revenue" 10 fresh_world
              {| status_code := 403; text := "no INDEX permission";
                 json_body := inl "Expecting value" |}
              (λ _ _, eq_refl) ltac:(done) ltac:(done))
    as [(m & Hm & Hnamed & _) _].
  exists m. split; [exact Hm|]. apply Hnamed.
  apply elem_of_cons. right. apply elem_of_cons. by left.
Defined.

(** ** The page *)

(** C2, as stated, fails: a client that has never been checked sends its
    upload request all the same. *)
Lemma unvalidated_client_calls_remote :
  let E := fixed_env (answer 401 "") in
  let client := VectaraClient_init "key" "1" "corpus" in
  calls fresh_world = [] ∧
  length (calls (upload_file E client [] "report.pdf" fresh_world).2) = 1%nat ∧
  length (calls (query E client "total revenue" 10 fresh_world).2) = 1%nat ∧
  length (calls (list_documents E client fresh_world).2) = 1%nat.
Proof. split_and!; reflexivity. Qed.

(** C2 (amended): the client keeps no record of a connectivity check, so
    its operations send their request whether or not one was ever made.
    The check is enforced by the page: while the session is not
    connected, the upload, query and comparison tabs and the sidebar
    buttons send nothing, and pressing "Connect" leaves the session
    connected only if all fields are filled and the corpus request was
    answered with status 200. *)
Theorem validation_gate E self file_content filename query_text num_results
    method files custom key customer corpus (w : world) :
  connected (state w) = false →
  calls (upload_file E self file_content filename w).2
    = calls w ++ [upload_request E self file_content filename (now_isoformat E (ticks w))] ∧
  calls (query E self query_text num_results w).2
    = calls w ++ [query_request self query_text num_results] ∧
  calls (list_documents E self w).2 = calls w ++ [documents_request self] ∧
  upload_tab E method files true w = (Ret (), shown (Warning connect_warning) w) ∧
  query_tab E query_text true w = (Ret (), shown (Warning connect_warning) w) ∧
  comparison_tab E custom true w = (Ret (), shown (Warning connect_warning) w) ∧
  view_documents_button E w = (Ret (), shown (Warning "Not Connected") w) ∧
  test_permissions_button E w = (Ret (), w) ∧
  connected (state (connect_button E key customer corpus w).2)
  = negb (bool_decide (key = "")) && negb (bool_decide (customer = ""))
    && negb (bool_decide (corpus = ""))
    && match remote E (calls w) (corpus_request (VectaraClient_init key customer corpus)) with
       | Responded r => bool_decide (status_code r = 200%Z)
       | Failed _ => false
       end.
Proof.
  intros Hw. split_and!.
  - by rewrite upload_file_run.
  - by rewrite query_run.
  - by rewrite list_documents_run.
  - unfold upload_tab, mbind, io_bind, get_session. by rewrite Hw.
  - unfold query_tab, mbind, io_bind, get_session. by rewrite Hw.
  - unfold comparison_tab, mbind, io_bind, get_session. by rewrite Hw.
  - unfold view_documents_button, mbind, io_bind, get_session. by rewrite Hw.
  - unfold test_permissions_button, mbind, io_bind, get_session. by rewrite Hw.
  - unfold connect_button.
    destruct (negb (bool_decide (key = "")) && negb (bool_decide (customer = ""))
              && negb (bool_decide (corpus = ""))); [|done].
    unfold mbind, io_bind. rewrite initialize_vectara_run. cbn zeta.
    unfold connection_verdict.
    destruct (remote E (calls w) _) as [r|msg]; [|done].
    case_bool_decide; [done|].
    repeat (case_bool_decide; [done|]). done.
Qed.

Lemma validation_gate_witness :
  let E := fixed_env (answer 401 "") in
  let client := VectaraClient_init "key" "1" "corpus" in
  upload_tab E "V2 API (Recommended)" [{| name := "report.pdf"; content := [] |}] true
    fresh_world
  = (Ret (), shown (Warning connect_warning) fresh_world).
Proof.
  exact (proj1 (proj2 (proj2 (proj2
    (validation_gate (fixed_env (answer 401 ""))
       (VectaraClient_init "key" "1" "corpus") [] "report.pdf" "total revenue" 10
       "V2 API (Recommended)" [{| name := "report.pdf"; content := [] |}] ""
       "key" "1" "corpus" fresh_world eq_refl))))).
Defined.

(** ** The upload loop *)

Lemma upload_with_run E client method file (w : world) r :
  (∀ req, remote E (calls w) req = Responded r) →
  (method = "V1 API (Alternative)" →
   is_int (py_int E (customer_id client)) && is_int (py_int E (corpus_id client)) = true) →
  ∃ ok msg req w1,
    upload_with E client method file w = (Ret (ok, msg), w1) ∧
    calls w1 = calls w ++ [req] ∧ screen w1 = screen w ∧ state w1 = state w ∧
    (status_code r = 200%Z ∨ status_code r = 201%Z →
     ok = true ∧ msg = "Successfully uploaded: " +:+ name file) ∧
    (status_code r = 403%Z → ok = false ∧ names_category 403 msg = true).
Proof.
  intros Hremote Hint. unfold upload_with. case_bool_decide as Hm.
  - rewrite upload_file_v1_run. specialize (Hint Hm).
    destruct (py_int E (customer_id client)) as [|a]; [done|].
    destruct (py_int E (corpus_id client)) as [|b]; [done|].
    cbn zeta. rewrite Hremote.
    destruct (index_verdict (name file) (Responded r)) as [ok msg] eqn:Hv.
    eexists ok, msg, _, _.
    split_and!; [reflexivity | reflexivity | reflexivity | reflexivity | |].
    + intros Hs. unfold index_verdict in Hv.
      assert (bool_decide (status_code r = 200%Z) || bool_decide (status_code r = 201%Z)
              = true) as Hb by (destruct Hs as [-> | ->]; reflexivity).
      rewrite Hb in Hv. by injection Hv as <- <-.
    + intros Hs. unfold index_verdict in Hv. rewrite Hs in Hv. by injection Hv as <- <-.
  - rewrite upload_file_run. cbn zeta. rewrite Hremote.
    destruct (upload_verdict (name file) (Responded r)) as [ok msg] eqn:Hv.
    eexists ok, msg, _, _.
    split_and!; [reflexivity | reflexivity | reflexivity | reflexivity | |].
    + intros Hs. unfold upload_verdict in Hv.
      assert (bool_decide (status_code r = 200%Z) || bool_decide (status_code r = 201%Z)
              = true) as Hb by (destruct Hs as [-> | ->]; reflexivity).
      rewrite Hb in Hv. by injection Hv as <- <-.
    + intros Hs. unfold upload_verdict in Hv. rewrite Hs in Hv.
      injection Hv as <- <-. split; [done|]. apply names_forbidden_response.
Qed.

Lemma upload_loop_step E client method file files i total n (w : world) ok msg w1 :
  upload_with E client method file
    (shown (StatusText ("Uploading " +:+ name file +:+ "...")) w) = (Ret (ok, msg), w1) →
  upload_loop E (Some client) method (file :: files) i total n w
  = upload_loop E (Some client) method files (S i) total (if ok then S n else n)
      (shown (Progress (S i) total)
         (if ok then remembered (name file) (shown (Success msg) w1)
          else shown (Error msg) w1)).
Proof.
  intros H. cbn [upload_loop]. unfold upload_with in H.
  unfold mbind, io_bind, emit at 1. rewrite H.
  unfold emit, get_session, set_session, mret, io_ret, remembered.
  destruct ok; [|reflexivity].
  cbn [state shown].
  by destruct (bool_decide (name file ∈ uploaded_files_list (state w1))).
Qed.

(** C7: with three files whose uploads are answered success, 403,
    success, the loop sends all three requests, reports each file on its
    own (success, error, success, each followed by the progress) and
    ends with "2/3 files uploaded successfully". *)
Theorem batch_upload_continues E client method f1 f2 f3 (w : world) r1 r2 r3 :
  vectara_client (state w) = Some client →
  connected (state w) = true →
  (∀ h req, length h = length (calls w) → remote E h req = Responded r1) →
  (∀ h req, length h = S (length (calls w)) → remote E h req = Responded r2) →
  (∀ h req, length h = S (S (length (calls w))) → remote E h req = Responded r3) →
  status_code r1 = 200%Z ∨ status_code r1 = 201%Z →
  status_code r2 = 403%Z →
  status_code r3 = 200%Z ∨ status_code r3 = 201%Z →
  (method = "V1 API (Alternative)" →
   is_int (py_int E (customer_id client)) && is_int (py_int E (corpus_id client)) = true) →
  ∃ req1 req2 req3 msg2 w',
    upload_tab E method [f1; f2; f3] true w = (Ret (), w') ∧
    calls w' = calls w ++ [req1; req2; req3] ∧
    names_category 403 msg2 = true ∧
    screen w' = screen w ++
      [StatusText ("Uploading " +:+ name f1 +:+ "...");
       Success ("Successfully uploaded: " +:+ name f1);
       Progress 1 3;
       StatusText ("Uploading " +:+ name f2 +:+ "...");
       Error msg2;
       Progress 2 3;
       StatusText ("Uploading " +:+ name f3 +:+ "...");
       Success ("Successfully uploaded: " +:+ name f3);
       Progress 3 3;
       StatusText "Upload complete! 2/3 files uploaded successfully."].
Proof.
  intros Hclient Hconn H1 H2 H3 Hs1 Hs2 Hs3 Hint.
  assert (Hcalls : ∀ f x, calls (remembered f x) = calls x).
  { intros f x. unfold remembered. by case_bool_decide. }
  assert (Hscreen : ∀ f x, screen (remembered f x) = screen x).
  { intros f x. unfold remembered. by case_bool_decide. }
  unfold upload_tab, mbind at 1, io_bind at 1, get_session.
  rewrite Hconn, Hclient. cbn [negb length].
  rewrite (bool_decide_eq_false_2 (3 = 0)%nat) by done. cbn [negb andb].
  unfold mbind, io_bind.
  (* first file *)
  destruct (upload_with_run E client method f1
              (shown (StatusText ("Uploading " +:+ name f1 +:+ "...")) w) r1)
    as (ok1 & m1 & req1 & w1 & Hrun1 & Hc1 & Hsc1 & Hst1 & Hok1 & _); [by auto | done |].
  destruct (Hok1 Hs1) as [-> ->].
  rewrite (upload_loop_step _ _ _ _ _ _ _ _ _ _ _ _ Hrun1).
  (* second file *)
  match goal with |- context [upload_loop _ _ _ [f2; f3] _ _ _ ?x] => set (wa := x) end.
  assert (Hca : calls wa = calls w ++ [req1]).
  { unfold wa. cbn [calls shown]. by rewrite Hcalls. }
  destruct (upload_with_run E client method f2
              (shown (StatusText ("Uploading " +:+ name f2 +:+ "...")) wa) r2)
    as (ok2 & m2 & req2 & w2 & Hrun2 & Hc2 & Hsc2 & Hst2 & _ & Hok2).
  { intros req. apply H2. cbn [calls shown]. rewrite Hca, length_app. simpl. lia. }
  { done. }
  destruct (Hok2 Hs2) as [-> Hm2].
  rewrite (upload_loop_step _ _ _ _ _ _ _ _ _ _ _ _ Hrun2).
  (* third file *)
  match goal with |- context [upload_loop _ _ _ [f3] _ _ _ ?x] => set (wb := x) end.
  assert (Hcb : calls wb = calls w ++ [req1; req2]).
  { unfold wb. cbn [calls shown]. rewrite Hc2. cbn [calls shown].
    by rewrite Hca, <- app_assoc. }
  destruct (upload_with_run E client method f3
              (shown (StatusText ("Uploading " +:+ name f3 +:+ "...")) wb) r3)
    as (ok3 & m3 & req3 & w3 & Hrun3 & Hc3 & Hsc3 & Hst3 & Hok3 & _).
  { intros req. apply H3. cbn [calls shown]. rewrite Hcb, length_app. simpl. lia. }
  { done. }
  destruct (Hok3 Hs3) as [-> ->].
  rewrite (upload_loop_step _ _ _ _ _ _ _ _ _ _ _ _ Hrun3).
  cbn [upload_loop]. unfold mret, io_ret, emit.
  eexists req1, req2, req3, m2, _. split_and!; [reflexivity | | done |].
  - cbn [calls shown]. rewrite Hcalls. cbn [calls shown]. rewrite Hc3.
    cbn [calls shown]. by rewrite Hcb, <- app_assoc.
  - cbn [screen shown]. rewrite Hscreen. cbn [screen shown]. rewrite Hsc3.
    unfold wb. cbn [screen shown]. rewrite Hsc2. unfold wa. cbn [screen shown].
    rewrite Hscreen. cbn [screen shown]. rewrite Hsc1. cbn [screen shown].
    rewrite <- !app_assoc. reflexivity.
Qed.

Lemma batch_upload_continues_witness :
  let E := scripted_env [answer 200 "ok"; answer 403 "no INDEX permission"; answer 201 "ok"] in
  let client := VectaraClient_init "key" "1" "corpus" in
  let f1 := {| name := "q1.pdf"; content := [] |} in
  let f2 := {| name := "q2.pdf"; content := [] |} in
  let f3 := {| name := "q3.pdf"; content := [] |} in
  ∃ req1 req2 req3 msg2 w',
    upload_tab E "V2 API (Recommended)" [f1; f2; f3] true (connected_world client)
    = (Ret (), w') ∧
    calls w' = calls (connected_world client) ++ [req1; req2; req3] ∧
    names_category 403 msg2 = true ∧
    screen w' = screen (connected_world client) ++
      [StatusText "Uploading q1.pdf..."; Success "Successfully uploaded: q1.pdf";
       Progress 1 3;
       StatusText "Uploading q2.pdf..."; Error msg2; Progress 2 3;
       StatusText "Uploading q3.pdf..."; Success "Successfully uploaded: q3.pdf";
       Progress 3 3;
       StatusText "Upload complete! 2/3 files uploaded successfully."].
Proof.
  intros E client f1 f2 f3.
  apply (batch_upload_continues E client "V2 API (Recommended)" f1 f2 f3
           (connected_world client)
           {| status_code := 200; text := "ok"; json_body := inl "Expecting value" |}
           {| status_code := 403; text := "no INDEX permission";
              json_body := inl "Expecting value" |}
           {| status_code := 201; text := "ok"; json_body := inl "Expecting value" |}).
  - reflexivity.
  - reflexivity.
  - intros h req Hh. simpl. rewrite Hh. reflexivity.
  - intros h req Hh. simpl. rewrite Hh. reflexivity.
  - intros h req Hh. simpl. rewrite Hh. reflexivity.
  - by left.
  - reflexivity.
  - by right.
  - intros [=].
Defined.

Lemma upload_with_returns E client method file (w : world) :
  ∃ ok msg w1, upload_with E client method file w = (Ret (ok, msg), w1) ∧
               screen w1 = screen w.
Proof.
  unfold upload_with. case_bool_decide.
  - rewrite upload_file_v1_run.
    destruct (py_int E (customer_id client)) as [|a]; [by eexists _, _, _|].
    destruct (py_int E (corpus_id client)) as [|b]; [by eexists _, _, _|].
    cbn zeta. destruct (index_verdict _ _) as [ok msg]. by eexists _, _, _.
  - rewrite upload_file_run. cbn zeta.
    destruct (upload_verdict _ _) as [ok msg]. by eexists _, _, _.
Qed.

(** Whatever the outcomes, the loop goes through every file: it returns,
    and shows three messages per file (its name, the outcome, the
    progress). *)
Lemma upload_loop_attempts_all E client method files :
  ∀ i total n (w : world),
    ∃ n' w', upload_loop E (Some client) method files i total n w = (Ret n', w') ∧
      (n' ≤ n + length files)%nat ∧
      length (screen w') = (length (screen w) + 3 * length files)%nat.
Proof.
  induction files as [|file files IH]; intros i total n w.
  - exists n, w. split_and!; [done | simpl; lia | simpl; lia].
  - destruct (upload_with_returns E client method file
                (shown (StatusText ("Uploading " +:+ name file +:+ "...")) w))
      as (ok & msg & w1 & Hrun & Hscreen).
    rewrite (upload_loop_step _ _ _ _ _ _ _ _ _ _ _ _ Hrun).
    match goal with |- context [upload_loop _ _ _ files _ _ ?k ?x] =>
      destruct (IH (S i) total k x) as (n' & w' & -> & Hn & Hlen) end.
    exists n', w'. split_and!; [done | destruct ok; simpl; lia |].
    rewrite Hlen. cbn [screen shown].
    assert (length (screen (if ok then remembered (name file) (shown (Success msg) w1)
                            else shown (Error msg) w1))
            = S (length (screen w1))) as Hone.
    { destruct ok; unfold remembered; try case_bool_decide;
        cbn [screen shown with_session]; rewrite length_app; simpl; lia. }
    rewrite length_app, Hone, Hscreen. cbn [screen shown].
    rewrite length_app. simpl. lia.
Qed.

(** * Further properties *)

(** ** Completeness of the matcher *)

Lemma lang_nullable r : lang r [] → nullable r = true.
Proof.
  induction r as [|c| |neg items|a IHa b IHb|a IHa b IHb|lo hi a IHa|g a IHa]; simpl.
  - done.
  - by intros (x & ? & _).
  - by intros (x & ? & _).
  - by intros (x & ? & _).
  - intros (u & v & H & Hu & Hv). symmetry in H. apply app_eq_nil in H as [-> ->].
    by rewrite IHa, IHb.
  - intros [H|H]; [rewrite IHa | rewrite IHb]; auto using orb_true_r.
  - intros (ws & H & Hws & Hlo & _). destruct ws as [|w ws].
    + simpl in Hlo. assert (lo = 0)%nat as -> by lia. done.
    + symmetry in H. simpl in H. apply app_eq_nil in H as [-> _].
      inversion Hws; subst. rewrite IHa by done. apply orb_true_r.
  - auto.
Qed.

Lemma rep_loop_complete (L : list ascii → Prop) body :
  complete L body →
  (∀ w, L w → w ≠ []) →
  ∀ ws, Forall L ws →
  ∀ fuel lo hi pos s cs (k : cont),
    (length (concat ws ++ s) < fuel)%nat →
    (lo ≤ length ws)%nat →
    match hi with Some h => (length ws ≤ h)%nat | None => True end →
    (∀ cs', is_Some (k (pos + length (concat ws))%nat s cs')) →
    is_Some (rep_loop body lo hi fuel pos (concat ws ++ s) cs k).
Proof.
  intros Hbody Hne ws Hws.
  induction Hws as [|w ws Hw Hws IH]; intros fuel lo hi pos s cs k Hfuel Hlo Hhi Hk.
  - destruct fuel as [|fuel]; [lia|]. simpl in *.
    assert (lo = 0)%nat as -> by lia.
    assert (is_Some (rep_stop 0 pos s cs k)) as Hstop.
    { unfold rep_stop. simpl. specialize (Hk cs). by rewrite Nat.add_0_r in Hk. }
    destruct (may_iterate hi); [|done].
    by destruct (body pos s cs _).
  - destruct fuel as [|fuel]; [lia|]. cbn [rep_loop].
    assert (may_iterate hi = true) as ->.
    { destruct hi as [[|h]|]; simpl in *; try done; lia. }
    assert (w ≠ []) as Hwne by by apply Hne.
    assert (0 < length w)%nat as Hlen by (destruct w; simpl; [done|lia]).
    change (concat (w :: ws)) with (w ++ concat ws). rewrite <- app_assoc.
    match goal with |- is_Some (match ?b with _ => _ end) =>
      assert (is_Some b) as [r ->]; [|done] end.
    apply Hbody; [done|]. intros cs'.
    rewrite decide_True by lia.
    apply IH.
    + simpl in Hfuel. rewrite <- app_assoc, length_app in Hfuel. lia.
    + simpl in Hlo. lia.
    + destruct hi as [h|]; simpl in *; [lia|done].
    + intros cs''. specialize (Hk cs''). simpl in Hk.
      by rewrite length_app, Nat.add_assoc in Hk.
Qed.

Lemma rmatch_complete r : rep_ok r = true → complete (lang r) (rmatch r).
Proof.
  induction r as [|c| |neg items|a IHa b IHb|a IHa b IHb|lo hi a IHa|g a IHa];
    intros Hok w Hw pos s cs k Hk; cbn [rmatch]; simpl in Hw, Hok.
  - subst w. specialize (Hk cs). simpl in Hk. by rewrite Nat.add_0_r in Hk.
  - destruct Hw as (x & -> & Hx). simpl. rewrite Hx.
    specialize (Hk cs). simpl in Hk. by rewrite Nat.add_1_r in Hk.
  - destruct Hw as (x & -> & Hx). simpl. rewrite decide_False by done.
    specialize (Hk cs). simpl in Hk. by rewrite Nat.add_1_r in Hk.
  - destruct Hw as (x & -> & Hx). simpl. rewrite Hx.
    specialize (Hk cs). simpl in Hk. by rewrite Nat.add_1_r in Hk.
  - apply andb_true_iff in Hok as [Ha Hb].
    destruct Hw as (u & v & -> & Hu & Hv). rewrite <- app_assoc.
    apply IHa; [done..|]. intros cs'. apply IHb; [done..|].
    intros cs''. specialize (Hk cs''). by rewrite length_app, Nat.add_assoc in Hk.
  - apply andb_true_iff in Hok as [Ha Hb]. destruct Hw as [Hw|Hw].
    + destruct (IHa Ha w Hw pos s cs k Hk) as [r ->]. done.
    + destruct (rmatch a pos (w ++ s) cs k); [done|]. by apply IHb.
  - apply andb_true_iff in Hok as [Hnull Ha].
    destruct Hw as (ws & -> & Hws & Hlo & Hhi).
    apply rep_loop_complete with (L := lang a); auto with lia.
    intros w Hw ->. apply lang_nullable in Hw. by rewrite Hw in Hnull.
  - destruct g as [n|]; [|by apply IHa].
    apply IHa; [done..|]. intros cs'. apply Hk.
Qed.

(** A word of the expression anywhere in the text makes the search
    succeed. *)
Lemma search_from_complete r before w after :
  rep_ok r = true → lang r w → is_Some (search_from r (before ++ w ++ after)).
Proof.
  intros Hok Hw.
  assert (is_Some (match_here r (w ++ after))) as Hhere.
  { unfold match_here. by apply rmatch_complete. }
  induction before as [|x before IH]; simpl.
  - destruct Hhere as [c Hc]. rewrite (search_from_here _ _ _ Hc). done.
  - by destruct (match_here r (x :: before ++ w ++ after)).
Qed.

(** ** The words of the two patterns *)

Lemma lang_seq_of_app l1 l2 w1 w2 :
  lang (seq_of l1) w1 → lang (seq_of l2) w2 → lang (seq_of (l1 ++ l2)) (w1 ++ w2).
Proof.
  revert w1. induction l1 as [|a l1 IH]; intros w1; simpl.
  - by intros ->.
  - intros (u & v & -> & Hu & Hv) H2. exists u, (v ++ w2).
    rewrite <- app_assoc. split_and!; [done..|]. by apply IH.
Qed.

Lemma literal_lang name label :
  Forall2 (λ a b, ieq a b = true) (chars name) label →
  lang (seq_of (literal name)) label.
Proof.
  unfold literal. induction 1 as [|c x n label Hx _ IH]; simpl; [done|].
  exists [x], label. split_and!; [done | by exists x | done].
Qed.

Lemma rep_ok_literal name : rep_ok (seq_of (literal name)) = true.
Proof. unfold literal. induction (chars name) as [|c n IH]; simpl; [done|exact IH]. Qed.

Lemma rep_ok_seq_of_app l1 l2 :
  rep_ok (seq_of l1) = true → rep_ok (seq_of l2) = true → rep_ok (seq_of (l1 ++ l2)) = true.
Proof.
  intros H1 H2. induction l1 as [|a l1 IH]; simpl in *; [done|].
  apply andb_true_iff in H1 as [Ha H1]. rewrite Ha. simpl. by apply IH.
Qed.

Lemma rep_ok_pattern1 name : rep_ok (pattern1_re name) = true.
Proof. unfold pattern1_re. apply rep_ok_seq_of_app; [apply rep_ok_literal | reflexivity]. Qed.

Lemma rep_ok_pattern2 name : rep_ok (pattern2_re name) = true.
Proof. unfold pattern2_re. apply rep_ok_seq_of_app; [apply rep_ok_literal | reflexivity]. Qed.

Lemma spaces_lang w : spaces w → lang (RRep 0 None space_re) w.
Proof.
  intros H. exists ((λ c, [c]) <$> w). split_and!; [| |simpl; lia|done].
  - induction w as [|c w IH]; simpl; [done|]. inversion H; subst. f_equal. by apply IH.
  - induction H as [|c w Hc _ IH]; simpl; constructor; [|done].
    exists c. split; [done|]. unfold set_matches. simpl. by rewrite Hc.
Qed.

Lemma lang_spaces w : lang (RRep 0 None space_re) w → spaces w.
Proof.
  intros (ws & -> & Hws & _). induction Hws as [|w ws Hw _ IH]; simpl; [constructor|].
  apply Forall_app. split; [|done].
  destruct Hw as (x & -> & Hx). repeat constructor.
  revert Hx. unfold set_matches. simpl. by destruct (is_space x).
Qed.

Lemma optional_lang a w :
  w = [] ∨ lang a w → lang (RRep 0 (Some 1%nat) a) w.
Proof.
  intros [->|H].
  - exists []. simpl. split_and!; auto with lia.
  - exists [w]. simpl. rewrite app_nil_r. split_and!; auto with lia.
Qed.

Lemma lang_optional a w :
  lang (RRep 0 (Some 1%nat) a) w → w = [] ∨ lang a w.
Proof.
  intros (ws & -> & Hws & _ & Hhi). destruct Hws as [|w ws Hw Hws]; [by left|].
  destruct ws; [|simpl in Hhi; lia]. right. simpl. by rewrite app_nil_r.
Qed.

Lemma colon_or_dash (x : ascii) :
  set_matches false [SChar ":"; SChar "-"] x = true ↔ x = ":"%char ∨ x = "-"%char.
Proof.
  split.
  - destruct x as [[] [] [] [] [] [] [] []]; vm_compute; intros H;
      first [discriminate H | by left | by right].
  - by intros [-> | ->].
Qed.

Lemma ieq_dollar (x : ascii) : ieq "$" x = true ↔ x = "$"%char.
Proof.
  split; [|by intros ->].
  destruct x as [[] [] [] [] [] [] [] []]; vm_compute; intros H;
    first [reflexivity | discriminate H].
Qed.

Lemma ieq_paren (x : ascii) : ieq "(" x = true ↔ x = "("%char.
Proof.
  split; [|by intros ->].
  destruct x as [[] [] [] [] [] [] [] []]; vm_compute; intros H;
    first [reflexivity | discriminate H].
Qed.

Lemma lang_cons a l u v :
  lang a u → lang (seq_of l) v → lang (seq_of (a :: l)) (u ++ v).
Proof. intros Hu Hv. by exists u, v. Qed.

Lemma lang_cons_inv a l w :
  lang (seq_of (a :: l)) w → ∃ u v, w = u ++ v ∧ lang a u ∧ lang (seq_of l) v.
Proof. intros H. exact H. Qed.

Lemma lang_nil_inv w : lang (seq_of []) w → w = [].
Proof. intros H. exact H. Qed.

Lemma colon_or_dash_lang p :
  p = [] ∨ p = [":"%char] ∨ p = ["-"%char] ↔
  lang (RRep 0 (Some 1%nat) (RIn false [SChar ":"; SChar "-"])) p.
Proof.
  split.
  - intros Hp. apply optional_lang. destruct Hp as [->|[-> | ->]]; [by left|right..];
      (eexists; split; [done|]); apply colon_or_dash; auto.
  - intros [->|(x & -> & [-> | ->]%colon_or_dash)]%lang_optional; auto.
Qed.

Lemma dollar_lang d :
  d = [] ∨ d = ["$"%char] ↔ lang (RRep 0 (Some 1%nat) (RLit "$")) d.
Proof.
  split.
  - intros Hd. apply optional_lang. destruct Hd as [->| ->]; [by left|right].
    eexists. split; [done|]. by apply ieq_dollar.
  - intros [->|(x & -> & ->%ieq_dollar)]%lang_optional; auto.
Qed.

Lemma paren_lang p :
  p = [] ∨ p = ["("%char] ↔ lang (RRep 0 (Some 1%nat) (RLit "(")) p.
Proof.
  split.
  - intros Hp. apply optional_lang. destruct Hp as [->| ->]; [by left|right].
    eexists. split; [done|]. by apply ieq_paren.
  - intros [->|(x & -> & ->%ieq_paren)]%lang_optional; auto.
Qed.

Lemma gap1_lang w : gap1 w ↔ lang (seq_of between1) w.
Proof.
  unfold between1. split.
  - intros (s1 & p & s2 & d & s3 & -> & H1 & H2 & H3 & Hp & Hd).
    apply lang_cons; [by apply spaces_lang|].
    apply lang_cons; [by apply colon_or_dash_lang|].
    apply lang_cons; [by apply spaces_lang|].
    apply lang_cons; [by apply dollar_lang|].
    rewrite <- (app_nil_r s3). apply lang_cons; [by apply spaces_lang|done].
  - intros (s1 & ? & -> & H1%lang_spaces &
            (p & ? & -> & Hp%colon_or_dash_lang &
            (s2 & ? & -> & H2%lang_spaces &
            (d & ? & -> & Hd%dollar_lang &
            (s3 & ? & -> & H3%lang_spaces & ->%lang_nil_inv)%lang_cons_inv
            )%lang_cons_inv)%lang_cons_inv)%lang_cons_inv)%lang_cons_inv.
    exists s1, p, s2, d, s3. rewrite app_nil_r. split_and!; done.
Qed.

Lemma gap2_lang w : gap2 w ↔ lang (seq_of between2) w.
Proof.
  unfold between2. split.
  - intros (s1 & p & d & -> & H1 & Hp & Hd).
    apply lang_cons; [by apply spaces_lang|].
    apply lang_cons; [by apply paren_lang|].
    rewrite <- (app_nil_r d). apply lang_cons; [by apply dollar_lang|done].
  - intros (s1 & ? & -> & H1%lang_spaces &
            (p & ? & -> & Hp%paren_lang &
            (d & ? & -> & Hd%dollar_lang & ->%lang_nil_inv)%lang_cons_inv
            )%lang_cons_inv)%lang_cons_inv.
    exists s1, p, d. rewrite app_nil_r. split_and!; done.
Qed.

Lemma digit_lang d : is_digit d = true → lang number_re [d].
Proof.
  intros Hd. unfold number_re. cbn [seq_of foldr lang].
  exists [d], []. split_and!; [done | |].
  - exists [[d]]. simpl. split_and!; auto with lia.
    repeat constructor. exists d. split; [done|].
    unfold set_matches. simpl. by rewrite Hd.
  - exists [], []. split_and!; [done | |].
    + exists []. simpl. split_and!; auto with lia.
    + exists [], []. split_and!; [done | | done].
      exists []. simpl. split_and!; auto with lia.
Qed.

Lemma lang_number_head g :
  lang number_re g → ∃ d g', g = d :: g' ∧ is_digit d = true.
Proof.
  intros (u1 & r1 & -> & (ws1 & -> & Hws1 & Hlo1 & _) & _).
  destruct Hws1 as [|w ws Hw Hws]; [simpl in Hlo1; lia|].
  apply lang_digit in Hw as (x & -> & Hx). simpl. eauto.
Qed.

(** ** A labelled number is found, and nothing else is *)

Lemma match_of_occurs name text v :
  plain name → match_of text name = Some v → occurs name text ∧ numeric v.
Proof.
  intros Hname. unfold match_of, patterns, first_match.
  rewrite re_search_plain1, re_search_plain2 by done.
  change (Ret ?x ≫= ?f) with (f x). cbv beta.
  assert (Hfound : ∀ between after c,
    search_from (seq_of (literal name ++ between ++ [RGroup (Some 1%nat) number_re] ++ after))
      (chars text) = Some c →
    has_group 1 (seq_of after) = false →
    (∀ w, lang (seq_of between) w → gap1 w ∨ gap2 w) →
    ∃ g, c !! 1%nat = Some g ∧ occurs name text ∧ numeric (without_commas g)).
  { intros between after c (before & s & Htext & H)%search_from_some Hafter Hgap.
    apply pattern_sound in H as (label & mid & g & rest & -> & Hlabel & Hmid & Hg & Hc);
      [|done].
    exists g. split_and!; [done | | by apply number_shape].
    destruct (lang_number_head g Hg) as (d & g' & -> & Hd).
    exists before, label, mid, d, (g' ++ rest).
    split_and!; [done | by apply lang_literal | by apply Hgap | done]. }
  destruct (search_from (pattern1_re name) (chars text)) as [c|] eqn:H1.
  - unfold pattern1_re in H1.
    rewrite <- (app_nil_r [RGroup (Some 1%nat) number_re]) in H1.
    apply Hfound in H1 as (g & Hc & Hocc & Hnum); [|done|].
    + rewrite (group1_of _ _ Hc). simpl. by intros [= <-].
    + intros w Hw. left. by apply gap1_lang.
  - change (Ret ?x ≫= ?f) with (f x). cbv beta.
    destruct (search_from (pattern2_re name) (chars text)) as [c|] eqn:H2; [|done].
    apply Hfound in H2 as (g & Hc & Hocc & Hnum); [|done|].
    + rewrite (group1_of _ _ Hc). simpl. by intros [= <-].
    + intros w Hw. right. by apply gap2_lang.
Qed.

Lemma occurs_match_of name text :
  plain name → occurs name text → is_Some (match_of text name).
Proof.
  intros Hname (before & label & gap & d & after & Htext & Hlabel & Hgap & Hd).
  destruct (first_match_plain name text Hname) as (r & Hr & Hspec).
  unfold match_of. rewrite Hr. destruct r as [v|]; [done|].
  destruct Hspec as [H1 H2]. rewrite re_search_plain1 in H1 by done.
  rewrite re_search_plain2 in H2 by done.
  injection H1 as H1. injection H2 as H2. exfalso.
  assert (chars text = before ++ (label ++ gap ++ [d]) ++ after) as Hsplit.
  { rewrite Htext, <- !app_assoc. done. }
  destruct Hgap as [Hgap|Hgap].
  - pose proof (search_from_complete (pattern1_re name) before (label ++ gap ++ [d]) after
                  (rep_ok_pattern1 name)) as [c Hc].
    + unfold pattern1_re. apply lang_seq_of_app; [by apply literal_lang|].
      apply lang_seq_of_app; [by apply gap1_lang|].
      rewrite <- (app_nil_r [d]). apply lang_cons; [by apply digit_lang|done].
    + rewrite <- Hsplit in Hc. congruence.
  - pose proof (search_from_complete (pattern2_re name) before (label ++ gap ++ [d]) after
                  (rep_ok_pattern2 name)) as [c Hc].
    + unfold pattern2_re. apply lang_seq_of_app; [by apply literal_lang|].
      apply lang_seq_of_app; [by apply gap2_lang|].
      apply (lang_cons _ after2 [d] []); [by apply digit_lang|].
      apply (lang_cons _ [] [] []); [apply optional_lang; by left|done].
    + rewrite <- Hsplit in Hc. congruence.
Qed.

Lemma numeric_not_sentinel v : numeric v → v ≠ "N/A".
Proof. intros H ->. revert H. by apply not_numeric_letter. Qed.

(** X2: for plain metric names and a response with a buffer, a metric is
    left at "N/A" exactly when the buffer holds no occurrence of its
    label (in any letter case) followed by one of the two gaps and a
    digit; otherwise a number is recorded. *)
Theorem sentinel_iff_no_labelled_number response_data names text name :
  Forall plain names →
  name ∈ names →
  search_buffer response_data = Ret (Some text) →
  ∃ m v, extract_metrics_from_response response_data (Some names) = Ret m ∧
    m !! name = Some v ∧
    (v = "N/A" ↔ ¬ occurs name text) ∧
    (occurs name text → numeric v).
Proof.
  intros Hnames Hin Hbuf.
  destruct (extract_lookup _ _ _ Hnames Hbuf) as (m & Hm & Hlook).
  assert (Hname : plain name).
  { rewrite Forall_forall in Hnames. by apply Hnames. }
  exists m, (default "N/A" (match_of text name)).
  split_and!; [done | by rewrite Hlook, decide_True | |].
  - destruct (match_of text name) as [v|] eqn:Hv; simpl.
    + destruct (match_of_occurs _ _ _ Hname Hv) as [Hocc Hnum]. split.
      * intros ->. by apply numeric_not_sentinel in Hnum.
      * intros Hno. by destruct Hno.
    + split; [|done]. intros _ Hocc.
      apply (occurs_match_of _ _ Hname) in Hocc as [v Hv']. congruence.
  - intros Hocc. destruct (occurs_match_of _ _ Hname Hocc) as [v Hv].
    rewrite Hv. simpl. by destruct (match_of_occurs _ _ _ Hname Hv).
Qed.

Lemma sentinel_iff_no_labelled_number_witness :
  ∃ m v, extract_metrics_from_response (results_of ["net profit ($42"])
           (Some ["Revenue"; "Net Profit"]) = Ret m ∧
    m !! "Net Profit" = Some v ∧
    (v = "N/A" ↔ ¬ occurs "Net Profit" " net profit ($42") ∧
    (occurs "Net Profit" " net profit ($42" → numeric v).
Proof.
  apply (sentinel_iff_no_labelled_number (results_of ["net profit ($42"])
           ["Revenue"; "Net Profit"] " net profit ($42" "Net Profit").
  - repeat constructor.
  - apply elem_of_cons. right. apply elem_of_cons. by left.
  - reflexivity.
Defined.

Lemma occurs_empty_name text :
  occurs "" text ↔ ∃ d, d ∈ chars text ∧ is_digit d = true.
Proof.
  split.
  - intros (before & label & gap & d & after & Htext & Hlabel & Hgap & Hd).
    exists d. split; [|done]. rewrite Htext, !elem_of_app, elem_of_cons. auto.
  - intros (d & Hin & Hd). apply list_elem_of_split in Hin as (before & after & Htext).
    exists before, [], [], d, after. split_and!; [done | constructor | | done].
    left. exists [], [], [], [], []. split_and!; auto; constructor.
Qed.

(** X3: the empty metric name, as a trailing comma in the custom metrics
    yields, has no label to look for: it is given a number as soon as the
    buffer holds a digit anywhere, and "N/A" only when it holds none. *)
Theorem empty_name_takes_any_number response_data names text :
  Forall plain names →
  "" ∈ names →
  search_buffer response_data = Ret (Some text) →
  ∃ m v, extract_metrics_from_response response_data (Some names) = Ret m ∧
    m !! "" = Some v ∧
    ((∃ d, d ∈ chars text ∧ is_digit d = true) → numeric v) ∧
    ((¬ ∃ d, d ∈ chars text ∧ is_digit d = true) → v = "N/A").
Proof.
  intros Hnames Hin Hbuf.
  destruct (extract_lookup _ _ _ Hnames Hbuf) as (m & Hm & Hlook).
  assert (Hname : plain "") by constructor.
  exists m, (default "N/A" (match_of text "")).
  split_and!; [done | by rewrite Hlook, decide_True | |].
  - intros Hd%occurs_empty_name.
    destruct (occurs_match_of _ _ Hname Hd) as [v Hv]. rewrite Hv. simpl.
    by destruct (match_of_occurs _ _ _ Hname Hv).
  - intros Hno. destruct (match_of text "") as [v|] eqn:Hv; [|done].
    destruct (match_of_occurs _ _ _ Hname Hv) as [Hocc _].
    by apply occurs_empty_name in Hocc.
Qed.

Lemma empty_name_takes_any_number_witness :
  ∃ m v, extract_metrics_from_response (results_of ["Founded in 1998"])
           (Some (all_metrics "Cash Flow,")) = Ret m ∧
    m !! "" = Some v ∧
    ((∃ d, d ∈ chars " Founded in 1998" ∧ is_digit d = true) → numeric v) ∧
    ((¬ ∃ d, d ∈ chars " Founded in 1998" ∧ is_digit d = true) → v = "N/A").
Proof.
  apply (empty_name_takes_any_number (results_of ["Founded in 1998"])
           (all_metrics "Cash Flow,") " Founded in 1998").
  - repeat constructor.
  - apply (bool_decide_unpack _). vm_compute. exact I.
  - reflexivity.
Defined.

(** ** Numbers written without thousands separators *)

Lemma lang_thousands_comma ws :
  Forall (lang thousands_re) ws → ws ≠ [] → ","%char ∈ concat ws.
Proof.
  intros [|w ws' Hw _] Hne; [done|].
  destruct Hw as (u & v & -> & (x & -> & Hx) & _).
  apply ieq_comma in Hx as ->. simpl. apply elem_of_cons. by left.
Qed.

Lemma number_without_comma g :
  lang number_re g → ","%char ∉ g →
  ∃ ds frac, g = ds ++ frac ∧ (1 ≤ length ds ≤ 3)%nat ∧
    Forall (λ c, is_digit c = true) ds ∧
    (frac = [] ∨ ∃ a b, frac = ["."%char; a; b] ∧ is_digit a = true ∧ is_digit b = true).
Proof.
  intros (u1 & r1 & -> & (ws1 & -> & Hws1 & Hlo1 & Hhi1) &
          (u2 & r2 & -> & (ws2 & -> & Hws2 & _) & (u3 & r3 & -> & Hu3 & Hr3))) Hno.
  simpl in Hr3. subst r3.
  apply lang_digits in Hws1 as [Hd1 Hlen1]. apply lang_decimals in Hu3.
  destruct ws2 as [|w ws2].
  - exists (concat ws1), u3. simpl. rewrite app_nil_r. split_and!; try done; lia.
  - destruct Hno. apply elem_of_app. right. apply elem_of_app. left.
    by apply lang_thousands_comma.
Qed.

Lemma without_commas_id g : ","%char ∉ g → without_commas g = string_of_list_ascii g.
Proof.
  intros H. unfold without_commas. f_equal.
  induction g as [|c g IH]; [done|].
  apply not_elem_of_cons in H as [Hc Hg].
  rewrite filter_cons_True by done. f_equal. by apply IH.
Qed.

(** X4: for metric names free of regex metacharacters and a response
    whose buffer holds no comma, a recorded number has at most three
    digits before its optional two-digit fraction: a figure written
    without thousands separators is cut after its third digit. *)
Theorem ungrouped_number_cut response_data names text name :
  Forall plain names →
  name ∈ names →
  search_buffer response_data = Ret (Some text) →
  ","%char ∉ chars text →
  ∃ m v, extract_metrics_from_response response_data (Some names) = Ret m ∧
    m !! name = Some v ∧
    (v = "N/A" ∨
     ∃ ds frac, chars v = ds ++ frac ∧ (1 ≤ length ds ≤ 3)%nat ∧
       Forall (λ c, is_digit c = true) ds ∧
       (frac = [] ∨
        ∃ a b, frac = ["."%char; a; b] ∧ is_digit a = true ∧ is_digit b = true)).
Proof.
  intros Hnames Hin Hbuf Hno.
  destruct (extract_lookup _ _ _ Hnames Hbuf) as (m & Hm & Hlook).
  assert (Hname : plain name).
  { rewrite Forall_forall in Hnames. by apply Hnames. }
  exists m, (default "N/A" (match_of text name)).
  split_and!; [done | by rewrite Hlook, decide_True |].
  destruct (first_match_plain name text Hname) as (r & Hr & Hspec).
  unfold match_of. rewrite Hr. destruct r as [v|]; [|by left]. right. simpl.
  destruct Hspec as (g & -> & Hg & before & label & between & after & Htext & _).
  assert (","%char ∉ g) as Hgno.
  { intros Hin'. apply Hno. rewrite Htext, !elem_of_app. auto. }
  rewrite without_commas_id, chars_of_list by done.
  by apply number_without_comma.
Qed.

Lemma ungrouped_number_cut_witness :
  ∃ m v, extract_metrics_from_response (results_of ["Revenue 12345"])
           (Some ["Revenue"]) = Ret m ∧
    m !! "Revenue" = Some v ∧
    (v = "N/A" ∨
     ∃ ds frac, chars v = ds ++ frac ∧ (1 ≤ length ds ≤ 3)%nat ∧
       Forall (λ c, is_digit c = true) ds ∧
       (frac = [] ∨
        ∃ a b, frac = ["."%char; a; b] ∧ is_digit a = true ∧ is_digit b = true)).
Proof.
  apply (ungrouped_number_cut (results_of ["Revenue 12345"]) ["Revenue"]
           " Revenue 12345" "Revenue").
  - repeat constructor.
  - apply elem_of_cons. by left.
  - reflexivity.
  - apply (bool_decide_unpack _). vm_compute. exact I.
Defined.

(** ** Responses without search results *)

(** X5: a response that is falsy (null, false, zero, an empty string,
    list or object) or an object without the key "search_results" gives
    "N/A" for every requested name, whatever the names are: no pattern is
    compiled.  A true boolean or a non-zero number makes the call raise. *)
Theorem extract_without_results response_data metric_names :
  let names := default default_metric_names metric_names in
  let all_sentinel : gmap string string := list_to_map ((λ name, (name, "N/A")) <$> names) in
  (truthy response_data = false ∨
   (∃ fields, response_data = JObj fields ∧ assoc "search_results" fields = None) →
   extract_metrics_from_response response_data metric_names = Ret all_sentinel ∧
   ∀ name, name ∈ names → all_sentinel !! name = Some "N/A") ∧
  (truthy response_data = true →
   (∃ b, response_data = JBool b) ∨ (∃ q, response_data = JNum q) →
   ∃ msg, extract_metrics_from_response response_data metric_names = Raise (TypeError msg)).
Proof.
  intros names all_sentinel. split.
  - intros H. split.
    + unfold extract_metrics_from_response. fold names. cbv zeta. fold all_sentinel.
      assert (search_buffer response_data = Ret None) as ->; [|done].
      destruct H as [H|(fields & -> & H)].
      * unfold search_buffer. by rewrite H.
      * by apply search_buffer_no_results.
    + intros name Hin. unfold all_sentinel. rewrite initial_metrics_lookup.
      by rewrite decide_True.
  - intros Ht [[b ->]|[q ->]]; unfold extract_metrics_from_response, search_buffer;
      rewrite Ht; simpl; eauto.
Qed.

Lemma extract_without_results_witness :
  extract_metrics_from_response (JObj [("summary", JStr "no data")]) (Some ["("; "Revenue"])
  = Ret (list_to_map [("(", "N/A"); ("Revenue", "N/A")]).
Proof.
  apply (extract_without_results (JObj [("summary", JStr "no data")])
           (Some ["("; "Revenue"])).
  right. by eexists.
Defined.

(** ** Search results without a text *)

Lemma combine_text_objects (results : list (list (string * JSON))) :
  Forall (λ result, ∀ v, assoc "text" result = Some v → ∃ t, v = JStr t) results →
  ∀ acc, combine_text (JObj <$> results) acc
         = Ret (foldl (λ acc t, acc +:+ " " +:+ t) acc (omap text_of results)).
Proof.
  induction 1 as [|result results Hresult _ IH]; intros acc; [done|].
  rewrite fmap_cons. cbn [combine_text py_contains omap list_omap].
  unfold text_of at 1.
  destruct (assoc "text" result) as [v|] eqn:Hv.
  - rewrite bool_decide_eq_true_2 by by eexists.
    destruct (Hresult v eq_refl) as [t ->].
    change (mret true ≫= ?f) with (f true). cbv beta iota.
    cbn [py_getitem]. rewrite Hv.
    change (mret (JStr t) ≫= ?f) with (f (JStr t)). cbv beta.
    change (py_space_plus (JStr t) ≫= ?f) with (f (" " +:+ t)). cbv beta.
    apply IH.
  - rewrite bool_decide_eq_false_2 by by intros [? ?].
    change (mret false ≫= ?f) with (f false). cbv beta iota. apply IH.
Qed.

(** X6: the buffer over results with other keys.  For a response whose
    search results are objects whose "text", where present, is a string,
    the buffer is built without raising from the first five results
    alone: those of them without a "text" are skipped and not replaced by
    later results, and keys other than "text" are ignored. *)
Theorem buffer_skips_results_without_text fields
    (results : list (list (string * JSON))) :
  assoc "search_results" fields = Some (JArr (JObj <$> results)) →
  Forall (λ result, ∀ v, assoc "text" result = Some v → ∃ t, v = JStr t)
    (take 5 results) →
  search_buffer (JObj fields) = Ret (Some (buffer_of (omap text_of (take 5 results)))).
Proof.
  intros Hfields Htexts.
  rewrite (search_buffer_results _ _ Hfields), <- fmap_take.
  by rewrite combine_text_objects.
Qed.

Lemma buffer_skips_results_without_text_witness :
  search_buffer
    (JObj [("summary", JStr "s");
           ("search_results",
            JArr (JObj <$> [[("score", JNum 1)]; [("text", JStr "Revenue: 5"); ("score", JNum 1)];
                            []; []; []; [("text", JStr "Net Profit: 7")]]))])
  = Ret (Some " Revenue: 5").
Proof.
  apply (buffer_skips_results_without_text
           [("summary", JStr "s");
            ("search_results",
             JArr (JObj <$> [[("score", JNum 1)]; [("text", JStr "Revenue: 5"); ("score", JNum 1)];
                             []; []; []; [("text", JStr "Net Profit: 7")]]))]
           [[("score", JNum 1)]; [("text", JStr "Revenue: 5"); ("score", JNum 1)];
            []; []; []; [("text", JStr "Net Profit: 7")]]).
  - reflexivity.
  - repeat constructor; intros v [=]; subst; by eexists.
Defined.

(** ** The client: further statements *)

(** X7: an upload reports success exactly when the service answered its
    request with status 200 or 201 (for the indexing upload, after both
    identifiers were read as integers), and the message then ends with
    the file name as given. *)
Theorem upload_success_iff E self file_content filename (w : world) :
  (∃ ok msg,
     (upload_file E self file_content filename w).1 = Ret (ok, msg) ∧
     (ok = true ↔
      ∃ r, remote E (calls w)
             (upload_request E self file_content filename (now_isoformat E (ticks w)))
           = Responded r ∧
           (status_code r = 200%Z ∨ status_code r = 201%Z)) ∧
     (ok = true → msg = "Successfully uploaded: " +:+ filename)) ∧
  (∃ ok msg,
     (upload_file_v1 E self file_content filename w).1 = Ret (ok, msg) ∧
     (ok = true ↔
      ∃ customer corpus r,
        py_int E (customer_id self) = inr customer ∧
        py_int E (corpus_id self) = inr corpus ∧
        remote E (calls w)
          (index_request E self file_content filename customer corpus
             (now_timestamp E (ticks w)) (now_isoformat E (S (ticks w))))
        = Responded r ∧
        (status_code r = 200%Z ∨ status_code r = 201%Z)) ∧
     (ok = true → msg = "Successfully uploaded: " +:+ filename)).
Proof.
  assert (Hor : ∀ r : response,
    bool_decide (status_code r = 200%Z) || bool_decide (status_code r = 201%Z) = true
    ↔ status_code r = 200%Z ∨ status_code r = 201%Z).
  { intros r. rewrite orb_true_iff, !bool_decide_eq_true. done. }
  split.
  - rewrite upload_file_run. cbn zeta. cbn [fst]. unfold upload_verdict.
    destruct (remote E (calls w) _) as [r|msg] eqn:Hr.
    + destruct (bool_decide (status_code r = 200%Z) || bool_decide (status_code r = 201%Z))
        eqn:Hs.
      * eexists _, _. split_and!; [done | | done].
        split; [|done]. intros _. exists r. split; [done|]. by apply Hor.
      * assert (∀ m, ∃ ok msg, Ret (false, m) = Ret (ok, msg) ∧
                  (ok = true ↔ ∃ r0, Responded r = Responded r0 ∧
                     (status_code r0 = 200%Z ∨ status_code r0 = 201%Z)) ∧
                  (ok = true → msg = "Successfully uploaded: " +:+ filename)) as Hfalse.
        { intros m. exists false, m. split_and!; [done | | done].
          split; [done|]. intros (r0 & [= <-] & H%Hor). congruence. }
        repeat case_bool_decide; apply Hfalse.
    + eexists _, _. split_and!; [done | | done]. split; [done|]. by intros (? & ? & _).
  - rewrite upload_file_v1_run.
    destruct (py_int E (customer_id self)) as [m1|customer].
    { eexists _, _. split_and!; [done | | done]. split; [done|]. by intros (? & ? & ? & ? & _). }
    destruct (py_int E (corpus_id self)) as [m2|corpus].
    { eexists _, _. split_and!; [done | | done].
      split; [done|]. by intros (? & ? & ? & _ & ? & _). }
    cbn zeta. cbn [fst]. unfold index_verdict.
    destruct (remote E (calls w) _) as [r|msg] eqn:Hr.
    + destruct (bool_decide (status_code r = 200%Z) || bool_decide (status_code r = 201%Z))
        eqn:Hs.
      * eexists _, _. split_and!; [done | | done].
        split; [|done]. intros _. exists customer, corpus, r.
        split_and!; [done | done | done |]. by apply Hor.
      * assert (∀ m, ∃ ok msg, Ret (false, m) = Ret (ok, msg) ∧
                  (ok = true ↔ ∃ customer0 corpus0 r0,
                     @inr string Z customer = inr customer0 ∧
                     @inr string Z corpus = inr corpus0 ∧
                     remote E (calls w)
                       (index_request E self file_content filename customer0 corpus0
                          (now_timestamp E (ticks w)) (now_isoformat E (S (ticks w))))
                     = Responded r0 ∧
                     (status_code r0 = 200%Z ∨ status_code r0 = 201%Z)) ∧
                  (ok = true → msg = "Successfully uploaded: " +:+ filename)) as Hfalse.
        { intros m. exists false, m. split_and!; [done | | done].
          split; [done|]. intros (a & b & r0 & [= <-] & [= <-] & Hr0 & H%Hor).
          rewrite Hr in Hr0. injection Hr0 as <-. congruence. }
        repeat case_bool_decide; apply Hfalse.
    + eexists _, _. split_and!; [done | | done].
      split; [done|]. intros (a & b & r0 & [= <-] & [= <-] & Hr0 & _). congruence.
Qed.

(** X8: when the customer id or the corpus id is not read as an integer,
    the indexing upload fails with the text of that error and sends
    nothing: the world is left as it was. *)
Theorem index_upload_needs_integer_ids E self file_content filename (w : world) msg :
  py_int E (customer_id self) = inl msg ∨
  (is_int (py_int E (customer_id self)) = true ∧ py_int E (corpus_id self) = inl msg) →
  upload_file_v1 E self file_content filename w
  = (Ret (false, "Error uploading " +:+ filename +:+ ": " +:+ msg), w).
Proof.
  intros H. rewrite upload_file_v1_run.
  destruct H as [-> | [H1 ->]]; [done|].
  by destruct (py_int E (customer_id self)).
Qed.

Lemma index_upload_needs_integer_ids_witness :
  upload_file_v1 (digits_env (answer 200 "ok"))
    (VectaraClient_init "key" "1234" "hello_world") [] "report.pdf" fresh_world
  = (Ret (false, "Error uploading report.pdf: invalid literal for int() with base 10: 'hello_world'"),
     fresh_world).
Proof.
  apply (index_upload_needs_integer_ids (digits_env (answer 200 "ok"))
           (VectaraClient_init "key" "1234" "hello_world") [] "report.pdf" fresh_world
           "invalid literal for int() with base 10: 'hello_world'").
  right. split; reflexivity.
Defined.

(** X9: no operation retries: whatever the outcome, each sends exactly
    one request (the indexing upload none when an identifier is not an
    integer, the permission check its two probes), and none touches the
    session or the page. *)
Theorem single_attempt E self file_content filename query_text num_results
    key customer corpus (w : world) :
  sent w (test_connection E self w).2 [corpus_request self] ∧
  sent w (upload_file E self file_content filename w).2
    [upload_request E self file_content filename (now_isoformat E (ticks w))] ∧
  (∃ reqs, sent w (upload_file_v1 E self file_content filename w).2 reqs ∧
     length reqs = (if is_int (py_int E (customer_id self))
                       && is_int (py_int E (corpus_id self)) then 1 else 0)%nat) ∧
  sent w (query E self query_text num_results w).2
    [query_request self query_text num_results] ∧
  sent w (list_documents E self w).2 [documents_request self] ∧
  sent w (check_permissions E self w).2 [documents_request self; corpus_request self] ∧
  sent w (initialize_vectara E key customer corpus w).2
    [corpus_request (VectaraClient_init key customer corpus)].
Proof.
  split_and!.
  - by rewrite test_connection_run.
  - by rewrite upload_file_run.
  - rewrite upload_file_v1_run.
    destruct (py_int E (customer_id self)) as [|a].
    { exists []. unfold sent. by rewrite app_nil_r. }
    destruct (py_int E (corpus_id self)) as [|b].
    { exists []. unfold sent. by rewrite app_nil_r. }
    eexists [_]. done.
  - by rewrite query_run.
  - by rewrite list_documents_run.
  - destruct (check_permissions_run E self w) as [report ->].
    unfold sent. cbn [snd calls record_call screen state]. by rewrite <- app_assoc.
  - by rewrite initialize_vectara_run.
Qed.

(** X10: the permission report.  The listing is probed first and the
    corpus second.  When the corpus probe is answered, the report says
    "can view" exactly for status 200 and "can read" exactly when the
    listing was answered 200 with a body that decodes, and it carries the
    listing's error message exactly when it cannot read; when the corpus
    probe fails in transport, the report is that error alone. *)
Theorem permission_report E self (w : world) :
  let listing := remote E (calls w) (documents_request self) in
  let probe := remote E (calls w ++ [documents_request self]) (corpus_request self) in
  (∀ msg, probe = Failed msg → (check_permissions E self w).1 = Ret (ReportError msg)) ∧
  (∀ r, probe = Responded r →
     ∃ can_read read_error,
       (check_permissions E self w).1
       = Ret (Report can_read (bool_decide (status_code r = 200%Z)) read_error) ∧
       (can_read = true ↔
        ∃ r' v, listing = Responded r' ∧ status_code r' = 200%Z ∧ json_body r' = inr v) ∧
       (can_read = true ↔ read_error = None) ∧
       (list_documents E self w).1 = Ret ((documents_verdict listing).1, read_error)).
Proof.
  intros listing probe.
  assert (Hrun : (check_permissions E self w).1
    = Ret (match probe with
           | Responded r =>
               let can_read := bool_decide ((documents_verdict listing).2 = None) in
               Report can_read (bool_decide (status_code r = 200%Z))
                 (if can_read then None else (documents_verdict listing).2)
           | Failed msg => ReportError msg
           end)).
  { unfold check_permissions, try_except, mbind, io_bind. rewrite list_documents_run.
    unfold send, mret, io_ret. cbn [calls record_call]. fold probe. fold listing.
    by destruct probe. }
  rewrite Hrun. split.
  - by intros msg ->.
  - intros r ->. cbv zeta. eexists _, _. split; [reflexivity|].
    rewrite list_documents_run. cbn [fst]. fold listing.
    destruct (documents_verdict listing) as [result error] eqn:Hv. cbn [fst snd].
    assert (error = None ↔
            ∃ r' v, listing = Responded r' ∧ status_code r' = 200%Z ∧ json_body r' = inr v)
      as Hnone.
    { unfold documents_verdict in Hv. destruct listing as [r'|msg].
      - destruct (bool_decide (status_code r' = 200%Z)) eqn:H200.
        + apply bool_decide_eq_true in H200.
          destruct (json_body r') as [msg|v] eqn:Hbody; cbv iota in Hv;
            injection Hv as <- <-.
          * split; [done|]. intros (r0 & v & [= <-] & _ & Hb). congruence.
          * split; [|done]. intros _. by exists r', v.
        + apply bool_decide_eq_false in H200. cbv iota in Hv. injection Hv as <- <-.
          split; [done|]. intros (r0 & v & [= <-] & ? & _). done.
      - cbv iota in Hv. injection Hv as <- <-. split; [done|]. by intros (? & ? & ? & _). }
    destruct error as [e|].
    + rewrite bool_decide_eq_false_2 by done. split_and!; [|done|done].
      rewrite <- Hnone. done.
    + rewrite bool_decide_eq_true_2 by done. split_and!; [|done|done].
      rewrite <- Hnone. done.
Qed.

Lemma permission_report_witness :
  let E := scripted_env [answer 403 "no READ permission"; answer 200 "{}"] in
  let self := VectaraClient_init "key" "1" "corpus" in
  ∃ can_read read_error,
    (check_permissions E self fresh_world).1 = Ret (Report can_read true read_error) ∧
    (can_read = true ↔
     ∃ r' v, remote E [] (documents_request self) = Responded r' ∧
             status_code r' = 200%Z ∧ json_body r' = inr v) ∧
    (can_read = true ↔ read_error = None) ∧
    (list_documents E self fresh_world).1
    = Ret (JNull, read_error).
Proof.
  exact (proj2 (permission_report
                  (scripted_env [answer 403 "no READ permission"; answer 200 "{}"])
                  (VectaraClient_init "key" "1" "corpus") fresh_world)
           {| status_code := 200; text := "{}"; json_body := inl "Expecting value" |}
           eq_refl).
Defined.

(** X11: [initialize_vectara] hands back either a client or an error,
    never both and never neither.  It hands back the client, holding the
    three credentials as given and the v2 base address, exactly when the
    corpus request was answered with status 200; otherwise the error is
    the message of [test_connection]. *)
Theorem initialize_client_or_error E key customer corpus (w : world) :
  let client := VectaraClient_init key customer corpus in
  (∃ r, remote E (calls w) (corpus_request client) = Responded r ∧
        status_code r = 200%Z) ∧
  (initialize_vectara E key customer corpus w).1 = Ret (Some client, None) ∧
  api_key client = key ∧ customer_id client = customer ∧ corpus_id client = corpus ∧
  base_url client = "https://api.vectara.io/v2"
  ∨
  (¬ ∃ r, remote E (calls w) (corpus_request client) = Responded r ∧
          status_code r = 200%Z) ∧
  ∃ msg, (initialize_vectara E key customer corpus w).1 = Ret (None, Some msg) ∧
         (test_connection E client w).1 = Ret (false, msg).
Proof.
  intros client. rewrite initialize_vectara_run, test_connection_run. cbn zeta. cbn [fst].
  fold client. unfold connection_verdict.
  destruct (remote E (calls w) (corpus_request client)) as [r|msg].
  - case_bool_decide as H200.
    + left. split_and!; try done. by exists r.
    + right. split; [by intros (r0 & [= <-] & ?)|].
      repeat case_bool_decide; eexists; split; reflexivity.
  - right. split; [by intros (? & ? & _)|]. eexists. split; reflexivity.
Qed.

(** ** The upload loop over any number of files *)

Lemma upload_verdict_success filename o ok msg :
  upload_verdict filename o = (ok, msg) → ok = true →
  msg = "Successfully uploaded: " +:+ filename.
Proof.
  unfold upload_verdict. destruct o as [r|m]; [|by intros [= <- _]].
  destruct (_ || _); [by intros [= _ <-]|].
  repeat case_bool_decide; by intros [= <- _].
Qed.

Lemma index_verdict_success filename o ok msg :
  index_verdict filename o = (ok, msg) → ok = true →
  msg = "Successfully uploaded: " +:+ filename.
Proof.
  unfold index_verdict. destruct o as [r|m]; [|by intros [= <- _]].
  destruct (_ || _); [by intros [= _ <-]|].
  repeat case_bool_decide; by intros [= <- _].
Qed.

Lemma upload_with_spec E client method file (w : world) :
  ∃ ok msg reqs w1,
    upload_with E client method file w = (Ret (ok, msg), w1) ∧
    sent w w1 reqs ∧
    (length reqs ≤ 1)%nat ∧
    (method ≠ "V1 API (Alternative)" →
     ∃ stamp, reqs = [upload_request E client (content file) (name file) stamp]) ∧
    (ok = true → msg = "Successfully uploaded: " +:+ name file).
Proof.
  unfold upload_with, sent. case_bool_decide as Hm.
  - rewrite upload_file_v1_run.
    destruct (py_int E (customer_id client)) as [|a].
    { eexists _, _, [], _. rewrite app_nil_r. split_and!; try done. simpl; lia. }
    destruct (py_int E (corpus_id client)) as [|b].
    { eexists _, _, [], _. rewrite app_nil_r. split_and!; try done. simpl; lia. }
    cbn zeta. destruct (index_verdict _ _) as [ok msg] eqn:Hv.
    eexists ok, msg, [_], _. split_and!; try done.
    intros ->. by eapply index_verdict_success.
  - rewrite upload_file_run. cbn zeta.
    destruct (upload_verdict _ _) as [ok msg] eqn:Hv.
    eexists ok, msg, [_], _. split_and!; try done.
    + intros _. by eexists.
    + intros ->. by eapply upload_verdict_success.
Qed.

Lemma remembered_spec filename (w : world) :
  calls (remembered filename w) = calls w ∧
  screen (remembered filename w) = screen w ∧
  ticks (remembered filename w) = ticks w ∧
  vectara_client (state (remembered filename w)) = vectara_client (state w) ∧
  connected (state (remembered filename w)) = connected (state w) ∧
  chat_history (state (remembered filename w)) = chat_history (state w) ∧
  uploaded_files_list (state (remembered filename w))
  = (if bool_decide (filename ∈ uploaded_files_list (state w))
     then uploaded_files_list (state w)
     else uploaded_files_list (state w) ++ [filename]).
Proof. unfold remembered. by case_bool_decide. Qed.

(** The loop over any files: it returns, sends at most one request per
    file, shows three messages per file and counts the successes; of the
    session it touches the list of uploaded files only. *)
Lemma upload_loop_spec E client method files :
  ∀ i total n (w : world),
    ∃ n' w' reqs events,
      upload_loop E (Some client) method files i total n w = (Ret n', w') ∧
      calls w' = calls w ++ reqs ∧
      (length reqs ≤ length files)%nat ∧
      (method ≠ "V1 API (Alternative)" →
       Forall2 (λ file req, ∃ stamp,
                  req = upload_request E client (content file) (name file) stamp)
         files reqs) ∧
      screen w' = screen w ++ events ∧
      loop_events files i total events ∧
      n' = (n + length (filter (λ e, is_success e = true) events))%nat ∧
      vectara_client (state w') = vectara_client (state w) ∧
      connected (state w') = connected (state w) ∧
      chat_history (state w') = chat_history (state w) ∧
      (NoDup (uploaded_files_list (state w)) → NoDup (uploaded_files_list (state w'))) ∧
      (∃ added, uploaded_files_list (state w') = uploaded_files_list (state w) ++ added) ∧
      (∀ filename, filename ∈ uploaded_files_list (state w') ↔
         filename ∈ uploaded_files_list (state w) ∨
         Success ("Successfully uploaded: " +:+ filename) ∈ events).
Proof.
  induction files as [|file files IH]; intros i total n w.
  - exists n, w, [], []. rewrite !app_nil_r. simpl.
    split_and!; try done; try lia.
    + exists []. by rewrite app_nil_r.
    + intros filename. rewrite elem_of_nil. tauto.
  - destruct (upload_with_spec E client method file
                (shown (StatusText ("Uploading " +:+ name file +:+ "...")) w))
      as (ok & msg & reqs1 & w1 & Hrun & (Hc1 & Hs1 & Hst1) & Hlen1 & Hlen1' & Hmsg).
    rewrite (upload_loop_step _ _ _ _ _ _ _ _ _ _ _ _ Hrun).
    match goal with |- context [upload_loop _ _ _ files _ _ ?k ?x] =>
      set (wa := x); set (na := k) end.
    destruct (IH (S i) total na wa)
      as (n' & w' & reqs & events & -> & Hc & Hlen & Hlen' & Hs & Hev & Hn & Hcl & Hcon &
          Hch & Hnd & (added & Hadd) & Hin).
    destruct (remembered_spec (name file) (shown (Success msg) w1))
      as (Hrc & Hrs & _ & Hrcl & Hrcon & Hrch & Hrl).
    cbn [calls screen state shown] in Hc1, Hs1, Hst1, Hrc, Hrs, Hrcl, Hrcon, Hrch, Hrl.
    assert (Hwa_calls : calls wa = calls w ++ reqs1).
    { unfold wa. cbn [calls shown]. destruct ok; [by rewrite Hrc, Hc1 | done]. }
    assert (Hwa_screen : screen wa = screen w ++
              [StatusText ("Uploading " +:+ name file +:+ "...");
               (if ok then Success msg else Error msg); Progress (S i) total]).
    { unfold wa. cbn [screen shown]. destruct ok.
      - rewrite Hrs, Hs1. by rewrite <- !app_assoc.
      - cbn [screen shown]. rewrite Hs1. by rewrite <- !app_assoc. }
    assert (Hwa_state : vectara_client (state wa) = vectara_client (state w) ∧
              connected (state wa) = connected (state w) ∧
              chat_history (state wa) = chat_history (state w) ∧
              uploaded_files_list (state wa)
              = (if ok && negb (bool_decide (name file ∈ uploaded_files_list (state w)))
                 then uploaded_files_list (state w) ++ [name file]
                 else uploaded_files_list (state w))).
    { unfold wa. cbn [state shown]. destruct ok.
      - rewrite Hrcl, Hrcon, Hrch, Hrl, Hst1.
        by destruct (bool_decide (name file ∈ uploaded_files_list (state w))).
      - cbn [state shown]. by rewrite Hst1. }
    destruct Hwa_state as (Hwcl & Hwcon & Hwch & Hwl).
    exists n', w', (reqs1 ++ reqs),
      (StatusText ("Uploading " +:+ name file +:+ "...")
       :: (if ok then Success msg else Error msg) :: Progress (S i) total :: events).
    split_and!.
    + done.
    + by rewrite Hc, Hwa_calls, <- app_assoc.
    + rewrite length_app. simpl. lia.
    + intros Hm. destruct (Hlen1' Hm) as [stamp ->]. simpl.
      constructor; [by exists stamp | by apply Hlen'].
    + rewrite Hs, Hwa_screen, <- app_assoc. done.
    + cbn [loop_events]. eexists _, events. split_and!; [done | | done].
      destruct ok; [left; by rewrite Hmsg | right; by eexists].
    + rewrite Hn. unfold na. cbn [filter]. rewrite !filter_cons.
      destruct ok; simpl; lia.
    + by rewrite Hcl.
    + by rewrite Hcon.
    + by rewrite Hch.
    + intros Hold. apply Hnd. rewrite Hwl.
      destruct ok; [|done]. case_bool_decide as Hmem; [done|]. simpl.
      apply NoDup_app. split_and!; [done | | apply NoDup_singleton].
      intros x Hx Hx'. apply list_elem_of_singleton in Hx' as ->. done.
    + rewrite Hadd, Hwl. destruct (_ && _); [|by exists added].
      exists (name file :: added). by rewrite <- app_assoc.
    + intros filename. rewrite Hin, Hwl, !elem_of_cons.
      assert (Success ("Successfully uploaded: " +:+ filename)
              = (if ok then Success msg else Error msg)
              ↔ ok = true ∧ filename = name file) as ->.
      { destruct ok; [|split; [done | by intros [? _]]].
        rewrite Hmsg by done. split.
        - intros [= H]. split; [done|]. exact H.
        - by intros [_ ->]. }
      destruct ok; simpl.
      * case_bool_decide as Hmem; simpl.
        -- split; [tauto|]. intros [?|[[=]|[[_ ->]|[[=]|?]]]]; auto.
        -- rewrite elem_of_app, list_elem_of_singleton. split; [tauto|].
           intros [?|[[=]|[[_ ->]|[[=]|?]]]]; auto.
      * split; [tauto|]. intros [?|[[=]|[[[=] _]|[[=]|?]]]]; auto.
Qed.

Lemma for_enumerate_emit {A} (line : nat → A → string) (l : list A) :
  ∀ i (w : world),
    for_enumerate l i (λ i x, emit (Plain (line i x))) w
    = (Ret (),
       {| calls := calls w; ticks := ticks w;
          screen := screen w ++ imap (λ k x, Plain (line (i + k)%nat x)) l;
          state := state w |}).
Proof.
  induction l as [|x l IH]; intros i w.
  - simpl. rewrite app_nil_r. by destruct w.
  - cbn [for_enumerate]. unfold mbind, io_bind, emit at 1. rewrite IH.
    cbn [calls ticks screen state shown imap]. rewrite Nat.add_0_r, <- app_assoc.
    assert (imap (λ k y, Plain (line (S i + k)%nat y)) l
            = imap ((λ k y, Plain (line (i + k)%nat y)) ∘ S) l) as ->; [|done].
    apply imap_ext. intros k y _. simpl. by rewrite Nat.add_succ_r.
Qed.

(** X12: the upload tab over any number of files.  Connected and with its
    button pressed, the tab returns whatever the service does to each
    upload; it sends at most one request per file, and under the
    multipart method exactly one per file, in order, carrying that file's
    name and content; it shows, file by file and in order, the name, the
    success message or an error, and the progress; and it closes with the
    count of success messages out of the number of files. *)
Theorem batch_upload_any_files E client method files (w : world) :
  vectara_client (state w) = Some client →
  connected (state w) = true →
  files ≠ [] →
  ∃ w' reqs events,
    upload_tab E method files true w = (Ret (), w') ∧
    calls w' = calls w ++ reqs ∧
    (length reqs ≤ length files)%nat ∧
    (method ≠ "V1 API (Alternative)" →
     Forall2 (λ file req, ∃ stamp,
                req = upload_request E client (content file) (name file) stamp)
       files reqs) ∧
    loop_events files 0 (length files) events ∧
    screen w' = screen w ++ events ++
      [StatusText ("Upload complete! "
                   +:+ pretty (length (filter (λ e, is_success e = true) events))
                   +:+ "/" +:+ pretty (length files)
                   +:+ " files uploaded successfully.")].
Proof.
  intros Hclient Hconn Hfiles.
  unfold upload_tab, mbind at 1, io_bind at 1, get_session.
  rewrite Hconn, Hclient. cbn [negb].
  rewrite bool_decide_eq_false_2 by by destruct files.
  cbn [negb andb]. unfold mbind, io_bind.
  destruct (upload_loop_spec E client method files 0 (length files) 0 w)
    as (n' & w' & reqs & events & -> & Hc & Hlen & Hlen' & Hs & Hev & -> & _).
  eexists _, reqs, events. split_and!; [reflexivity | done | done | done | done |].
  cbn [screen shown]. rewrite Hs, <- app_assoc. done.
Qed.

Lemma batch_upload_any_files_witness :
  let E := scripted_env [answer 500 "busy"; answer 201 "ok"] in
  let client := VectaraClient_init "key" "1" "corpus" in
  let files := [{| name := "q1.pdf"; content := [] |}; {| name := "q2.pdf"; content := [] |}] in
  ∃ w' reqs events,
    upload_tab E "V2 API (Recommended)" files true (connected_world client) = (Ret (), w') ∧
    calls w' = calls (connected_world client) ++ reqs ∧
    (length reqs ≤ length files)%nat ∧
    ("V2 API (Recommended)" ≠ "V1 API (Alternative)" →
     Forall2 (λ file req, ∃ stamp,
                req = upload_request E client (content file) (name file) stamp)
       files reqs) ∧
    loop_events files 0 (length files) events ∧
    screen w' = screen (connected_world client) ++ events ++
      [StatusText ("Upload complete! "
                   +:+ pretty (length (filter (λ e, is_success e = true) events))
                   +:+ "/" +:+ pretty (length files)
                   +:+ " files uploaded successfully.")].
Proof.
  intros E client files.
  apply (batch_upload_any_files E client "V2 API (Recommended)" files
           (connected_world client)); done.
Defined.

Lemma upload_tab_spec E client method files button (w : world) :
  vectara_client (state w) = Some client →
  connected (state w) = true →
  ∃ w' events,
    upload_tab E method files button w = (Ret (), w') ∧
    screen w' = screen w ++ events ∧
    connected (state w') = true ∧
    vectara_client (state w') = Some client ∧
    chat_history (state w') = chat_history (state w) ∧
    (NoDup (uploaded_files_list (state w)) → NoDup (uploaded_files_list (state w'))) ∧
    (∃ added, uploaded_files_list (state w') = uploaded_files_list (state w) ++ added) ∧
    (∀ filename, filename ∈ uploaded_files_list (state w') ↔
       filename ∈ uploaded_files_list (state w) ∨
       Success ("Successfully uploaded: " +:+ filename) ∈ events).
Proof.
  intros Hclient Hconn.
  unfold upload_tab, mbind at 1, io_bind at 1, get_session. rewrite Hconn, Hclient.
  cbn [negb].
  destruct (negb (bool_decide (length files = 0%nat)) && button).
  - unfold mbind, io_bind.
    destruct (upload_loop_spec E client method files 0 (length files) 0 w)
      as (n' & w' & reqs & events & -> & _ & _ & _ & Hs & _ & _ & Hcl & Hc & Hch & Hnd &
          Hadd & Hin).
    unfold emit. eexists _, (events ++ [_]).
    split; [reflexivity|]. cbn [screen state shown].
    split_and!; [by rewrite Hs, <- app_assoc | by rewrite Hc | by rewrite Hcl | done
                | done | done |].
    intros filename. rewrite Hin, elem_of_app, list_elem_of_singleton.
    split; [tauto|]. intros [?|[?|[=]]]; auto.
  - exists w, []. rewrite app_nil_r.
    split_and!; [done | done | done | done | done | done | |].
    + exists []. by rewrite app_nil_r.
    + intros filename. rewrite elem_of_nil. tauto.
Qed.

(** X13: the upload tab as a whole.  Started connected with a list of
    uploaded files free of repetitions, it returns; the list stays free
    of repetitions, keeps its old names in place, and holds besides them
    exactly the names whose success message was shown; and the tab ends
    by showing the list, numbered from 1. *)
Theorem upload_page_lists_successes E client method files button (w : world) :
  vectara_client (state w) = Some client →
  connected (state w) = true →
  NoDup (uploaded_files_list (state w)) →
  ∃ w' events,
    upload_page E method files button w = (Ret (), w') ∧
    NoDup (uploaded_files_list (state w')) ∧
    (∃ added, uploaded_files_list (state w') = uploaded_files_list (state w) ++ added) ∧
    (∀ filename, filename ∈ uploaded_files_list (state w') ↔
       filename ∈ uploaded_files_list (state w) ∨
       Success ("Successfully uploaded: " +:+ filename) ∈ events) ∧
    screen w' = screen w ++ events ++
      imap (λ k filename, Plain (pretty (S k) +:+ ". " +:+ filename))
        (uploaded_files_list (state w')).
Proof.
  intros Hclient Hconn Hnodup.
  destruct (upload_tab_spec E client method files button w Hclient Hconn)
    as (w1 & events & Htab & Hs & _ & _ & _ & Hnd & Hadd & Hin).
  unfold upload_page, mbind, io_bind, get_session. rewrite Hconn. cbn [negb].
  rewrite Htab. unfold uploaded_files_display, mbind, io_bind, get_session.
  rewrite (for_enumerate_emit (λ i filename, pretty i +:+ ". " +:+ filename)).
  eexists _, events. split; [reflexivity|]. cbn [state screen].
  split_and!; [by apply Hnd | done | done |].
  by rewrite Hs, <- app_assoc.
Qed.

Lemma upload_page_lists_successes_witness :
  let E := scripted_env [answer 200 "ok"; answer 200 "ok"] in
  let client := VectaraClient_init "key" "1" "corpus" in
  let files := [{| name := "q1.pdf"; content := [] |}; {| name := "q1.pdf"; content := [] |}] in
  ∃ w' events,
    upload_page E "V2 API (Recommended)" files true (connected_world client) = (Ret (), w') ∧
    NoDup (uploaded_files_list (state w')) ∧
    (∃ added, uploaded_files_list (state w')
              = uploaded_files_list (state (connected_world client)) ++ added) ∧
    (∀ filename, filename ∈ uploaded_files_list (state w') ↔
       filename ∈ uploaded_files_list (state (connected_world client)) ∨
       Success ("Successfully uploaded: " +:+ filename) ∈ events) ∧
    screen w' = screen (connected_world client) ++ events ++
      imap (λ k filename, Plain (pretty (S k) +:+ ". " +:+ filename))
        (uploaded_files_list (state w')).
Proof.
  intros E client files.
  apply (upload_page_lists_successes E client "V2 API (Recommended)" files true
           (connected_world client)); [done | done | constructor].
Defined.

(** ** The query and comparison tabs *)

Lemma query_verdict_error o response e :
  query_verdict o = (response, Some e) → response = JNull ∧ nonempty (Some e) = true.
Proof.
  unfold query_verdict. destruct o as [r|msg].
  - destruct (bool_decide (status_code r = 200%Z)).
    + destruct (json_body r); [|done]. by intros [= <- <-].
    + destruct (bool_decide (status_code r = 403%Z)); by intros [= <- <-].
  - by intros [= <- <-].
Qed.

Lemma query_tab_spec E client query_input button (w : world) :
  vectara_client (state w) = Some client →
  connected (state w) = true →
  let req := query_request client query_input 10 in
  if button && negb (bool_decide (query_input = "")) then
    match query_verdict (remote E (calls w) req) with
    | (response, None) =>
        query_tab E query_input button w
        = (Ret (),
           {| calls := calls w ++ [req]; ticks := S (ticks w);
              screen := screen w ++ [Rerun];
              state := {| vectara_client := vectara_client (state w);
                          uploaded_files_list := uploaded_files_list (state w);
                          chat_history := chat_history (state w) ++
                            [{| chat_timestamp := now_isoformat E (ticks w);
                                chat_query := query_input;
                                chat_response := response |}];
                          connected := connected (state w) |} |})
    | (_, Some e) =>
        query_tab E query_input button w
        = (Ret (),
           {| calls := calls w ++ [req]; ticks := ticks w;
              screen := screen w ++ [Error ("Query error: " +:+ e)];
              state := state w |})
    end
  else query_tab E query_input button w = (Ret (), w).
Proof.
  intros Hclient Hconn req.
  assert (Hrun : query_tab E query_input button w
    = if button && negb (bool_decide (query_input = "")) then
        (let '(response, error) := query_verdict (remote E (calls w) req) in
         if nonempty error then emit (Error ("Query error: " +:+ fmt error))
         else
           stamp ← datetime_now_isoformat E;
           s' ← get_session;
           set_session {| vectara_client := vectara_client s';
                          uploaded_files_list := uploaded_files_list s';
                          chat_history := chat_history s' ++
                            [{| chat_timestamp := stamp; chat_query := query_input;
                                chat_response := response |}];
                          connected := connected s' |};;
           emit Rerun) (record_call req w)
      else (Ret (), w)).
  { unfold query_tab, mbind at 1, io_bind at 1, get_session. rewrite Hconn, Hclient.
    cbn [negb]. destruct (button && negb (bool_decide (query_input = ""))); [|done].
    unfold mbind at 1, io_bind at 1. rewrite query_run. cbn zeta. fold req.
    by destruct (query_verdict (remote E (calls w) req)). }
  destruct (button && negb (bool_decide (query_input = ""))); [|done].
  destruct (query_verdict (remote E (calls w) req)) as [response [e|]] eqn:Hv;
    rewrite Hrun.
  - destruct (query_verdict_error _ _ _ Hv) as [_ ->]. done.
  - done.
Qed.

Lemma emit_lines_spec {A} (line : A → string) (l : list A) (w : world) :
  foldr (λ x rest, emit (Plain (line x));; rest) (mret ()) l w
  = (Ret (), {| calls := calls w; ticks := ticks w;
                screen := screen w ++ ((λ x, Plain (line x)) <$> l); state := state w |}).
Proof.
  revert w. induction l as [|x l IH]; intros w.
  - simpl. rewrite app_nil_r. by destruct w.
  - cbn [foldr]. unfold mbind, io_bind, emit at 1. rewrite IH.
    cbn [calls ticks screen state shown fmap list_fmap]. by rewrite <- app_assoc.
Qed.

Lemma comparison_tab_spec E client custom (w : world) :
  vectara_client (state w) = Some client →
  connected (state w) = true →
  let names := all_metrics custom in
  let req := query_request client
               ("financial statements showing: " +:+ join_commas names) 10 in
  let sent_only (events : list ui_event) : world :=
    {| calls := calls w ++ [req]; ticks := ticks w;
       screen := screen w ++ events; state := state w |} in
  comparison_tab E custom true w
  = match query_verdict (remote E (calls w) req) with
    | (response, None) =>
        if truthy response then
          match extract_metrics_from_response response (Some names) with
          | Ret metrics =>
              (Ret (), sent_only ((λ m, Plain (m +:+ ": " +:+ default "" (metrics !! m)))
                                  <$> names))
          | Raise e => (Raise e, sent_only [])
          | Beyond what => (Beyond what, sent_only [])
          end
        else (Ret (), sent_only [Error "Error extracting metrics: None"])
    | (_, Some e) => (Ret (), sent_only [Error ("Error extracting metrics: " +:+ e)])
    end.
Proof.
  intros Hclient Hconn names req sent_only.
  unfold comparison_tab, mbind at 1, io_bind at 1, get_session. rewrite Hconn, Hclient.
  cbn [negb]. cbv zeta. fold names.
  unfold mbind at 1, io_bind at 1. rewrite query_run. cbn zeta. fold req.
  destruct (query_verdict (remote E (calls w) req)) as [response [e|]] eqn:Hv.
  - destruct (query_verdict_error _ _ _ Hv) as [_ ->]. done.
  - cbn [nonempty negb andb]. destruct (truthy response); [|done].
    unfold mbind at 1, io_bind at 1, lift.
    destruct (extract_metrics_from_response response (Some names)) as [metrics|e|what].
    + rewrite (emit_lines_spec (λ m, m +:+ ": " +:+ default "" (metrics !! m))).
      done.
    + unfold sent_only, record_call. by rewrite app_nil_r.
    + unfold sent_only, record_call. by rewrite app_nil_r.
Qed.

(** X14: the "Search" button.  With an empty question, or unpressed, the
    tab does nothing.  Otherwise it sends one query for ten results and
    returns; it adds one entry to the conversation, holding the question
    and the decoded body, exactly when the service answered 200 with a
    body that decodes, and shows the error of [query] otherwise, leaving
    the conversation as it was. *)
Theorem search_records_answer E client query_input (w : world) :
  vectara_client (state w) = Some client →
  connected (state w) = true →
  query_input ≠ "" →
  let req := query_request client query_input 10 in
  query_tab E "" true w = (Ret (), w) ∧
  query_tab E query_input false w = (Ret (), w) ∧
  ∃ w', query_tab E query_input true w = (Ret (), w') ∧
    calls w' = calls w ++ [req] ∧
    vectara_client (state w') = Some client ∧
    connected (state w') = true ∧
    uploaded_files_list (state w') = uploaded_files_list (state w) ∧
    ((∃ r v stamp,
        remote E (calls w) req = Responded r ∧ status_code r = 200%Z ∧
        json_body r = inr v ∧
        chat_history (state w') = chat_history (state w) ++
          [{| chat_timestamp := stamp; chat_query := query_input; chat_response := v |}] ∧
        screen w' = screen w ++ [Rerun])
     ∨
     ((¬ ∃ r v, remote E (calls w) req = Responded r ∧ status_code r = 200%Z ∧
                json_body r = inr v) ∧
      chat_history (state w') = chat_history (state w) ∧
      ∃ e, (query E client query_input 10 w).1 = Ret (JNull, Some e) ∧
           screen w' = screen w ++ [Error ("Query error: " +:+ e)])).
Proof.
  intros Hclient Hconn Hq req.
  pose proof (query_tab_spec E client "" true w Hclient Hconn) as H1.
  pose proof (query_tab_spec E client query_input false w Hclient Hconn) as H2.
  pose proof (query_tab_spec E client query_input true w Hclient Hconn) as H3.
  cbn zeta in H1, H2, H3. fold req in H3.
  rewrite (bool_decide_eq_false_2 (query_input = "")) in H3 by done.
  cbn [andb negb] in H1, H2, H3.
  split_and!; [done | done |].
  rewrite query_run. cbn zeta. fold req. cbn [fst].
  destruct (query_verdict (remote E (calls w) req)) as [response [e|]] eqn:Hv;
    eexists; (split; [exact H3|]); cbn [calls screen state vectara_client connected
                                        uploaded_files_list chat_history];
    (split_and!; [done | done | done | done |]).
  - right. destruct (query_verdict_error _ _ _ Hv) as [-> _].
    split_and!; [|done|by exists e].
    intros (r & v & Hr & H200 & Hb). unfold query_verdict in Hv.
    rewrite Hr, bool_decide_eq_true_2, Hb in Hv by done. done.
  - left. unfold query_verdict in Hv.
    destruct (remote E (calls w) req) as [r|msg]; [|done].
    case_bool_decide as H200.
    + destruct (json_body r) as [|v] eqn:Hb; [done|]. injection Hv as <-.
      by exists r, v, (now_isoformat E (ticks w)).
    + by case_bool_decide.
Qed.

Lemma search_records_answer_witness :
  let E := fixed_env (Responded {| status_code := 200; text := "null";
                                   json_body := inr JNull |}) in
  let client := VectaraClient_init "key" "1" "corpus" in
  ∃ w', query_tab E "total revenue" true (connected_world client) = (Ret (), w') ∧
        chat_history (state w')
        = [{| chat_timestamp := "2024-01-01T00:00:00"; chat_query := "total revenue";
              chat_response := JNull |}].
Proof.
  intros E client.
  destruct (search_records_answer E client "total revenue" (connected_world client)
              eq_refl eq_refl ltac:(done)) as (_ & _ & w' & Hrun & _).
  exists w'. split; [exact Hrun|].
  vm_compute in Hrun. by injection Hrun as <-.
Defined.

(** X15: the "Generate Comparison" button.  Connected, it sends exactly
    one query, for ten results, whose text lists the metric names, and it
    never changes the session, whatever comes back and even when the
    extraction raises.  When the query fails it shows the error of
    [query]; when the service answers 200 with a falsy body (null, an
    empty object, ...) it shows "Error extracting metrics: None". *)
Theorem comparison_without_data E client custom (w : world) :
  vectara_client (state w) = Some client →
  connected (state w) = true →
  let req := query_request client
               ("financial statements showing: " +:+ join_commas (all_metrics custom)) 10 in
  let w' := (comparison_tab E custom true w).2 in
  calls w' = calls w ++ [req] ∧
  state w' = state w ∧
  (∀ r v, remote E (calls w) req = Responded r → status_code r = 200%Z →
          json_body r = inr v → truthy v = false →
          (comparison_tab E custom true w).1 = Ret () ∧
          screen w' = screen w ++ [Error "Error extracting metrics: None"]) ∧
  (∀ e, (query E client
           ("financial statements showing: " +:+ join_commas (all_metrics custom)) 10 w).1
        = Ret (JNull, Some e) →
        (comparison_tab E custom true w).1 = Ret () ∧
        screen w' = screen w ++ [Error ("Error extracting metrics: " +:+ e)]).
Proof.
  intros Hclient Hconn req w'. subst w'.
  rewrite (comparison_tab_spec E client custom w Hclient Hconn). cbn zeta. fold req.
  rewrite query_run. cbn zeta. fold req. cbn [fst].
  destruct (query_verdict (remote E (calls w) req)) as [response [e|]] eqn:Hv.
  - split_and!; [done | done | |].
    + intros r v Hr H200 Hb _. unfold query_verdict in Hv.
      rewrite Hr, bool_decide_eq_true_2, Hb in Hv by done. done.
    + by intros e' [= _ <-].
  - assert (∀ r v, remote E (calls w) req = Responded r → status_code r = 200%Z →
                   json_body r = inr v → v = response) as Hbody.
    { intros r v Hr H200 Hb. unfold query_verdict in Hv.
      rewrite Hr, bool_decide_eq_true_2, Hb in Hv by done. by injection Hv. }
    destruct (truthy response) eqn:Ht.
    + destruct (extract_metrics_from_response response _);
        (split_and!; [done | done | | done]);
        intros r v Hr H200 Hb Hf; rewrite (Hbody r v Hr H200 Hb) in Hf; congruence.
    + split_and!; [done | done | | done]. by intros.
Qed.

Lemma comparison_without_data_witness :
  let E := fixed_env (Responded {| status_code := 200; text := "{}";
                                   json_body := inr (JObj []) |}) in
  let client := VectaraClient_init "key" "1" "corpus" in
  (comparison_tab E "" true (connected_world client)).1 = Ret () ∧
  screen (comparison_tab E "" true (connected_world client)).2
  = [Error "Error extracting metrics: None"].
Proof.
  intros E client.
  destruct (comparison_without_data E client "" (connected_world client) eq_refl eq_refl)
    as (_ & _ & H & _).
  exact (H {| status_code := 200; text := "{}"; json_body := inr (JObj []) |} (JObj [])
           eq_refl eq_refl eq_refl eq_refl).
Defined.

(** ** The session over any use of the page *)

Lemma connect_button_state E key customer corpus (w : world) :
  state (connect_button E key customer corpus w).2 = state w ∨
  state (connect_button E key customer corpus w).2
  = {| vectara_client := Some (VectaraClient_init key customer corpus);
       uploaded_files_list := uploaded_files_list (state w);
       chat_history := chat_history (state w);
       connected := true |}.
Proof.
  destruct (connect_button E key customer corpus w) as [r w'] eqn:Hrun.
  revert Hrun. unfold connect_button.
  destruct (negb (bool_decide (key = "")) && negb (bool_decide (customer = ""))
            && negb (bool_decide (corpus = ""))); [|intros [= _ <-]; by left].
  unfold mbind at 1, io_bind at 1. rewrite initialize_vectara_run. cbn zeta.
  destruct (connection_verdict _) as [[] msg]; intros [= _ <-]; [by right | by left].
Qed.

Lemma view_documents_button_state E (w : world) :
  state (view_documents_button E w).2 = state w.
Proof.
  destruct (view_documents_button E w) as [r w'] eqn:Hrun. revert Hrun.
  unfold view_documents_button, mbind at 1, io_bind at 1, get_session.
  destruct (connected (state w)); [|by intros [= _ <-]].
  destruct (vectara_client (state w)) as [client|]; [|by intros [= _ <-]].
  unfold mbind at 1, io_bind at 1. rewrite list_documents_run.
  destruct (documents_verdict _) as [docs error].
  destruct (nonempty error); [by intros [= _ <-]|].
  unfold mbind, io_bind, lift.
  destruct (if truthy docs then py_contains "documents" docs else mret false)
    as [[]| |]; by intros [= _ <-].
Qed.

Lemma test_permissions_button_spec E (w : world) :
  returns (test_permissions_button E w).1 ∧
  state (test_permissions_button E w).2 = state w.
Proof.
  destruct (test_permissions_button E w) as [r w'] eqn:Hrun. revert Hrun.
  unfold test_permissions_button, mbind at 1, io_bind at 1, get_session.
  destruct (connected (state w)); [|intros [= <- <-]; by split; [eexists|]].
  destruct (vectara_client (state w)) as [client|];
    [|intros [= <- <-]; by split; [eexists|]].
  unfold mbind at 1, io_bind at 1.
  destruct (check_permissions_run E client w) as [report ->].
  destruct report as [[] can_view read_error|e]; intros [= <- <-]; by split; [eexists|].
Qed.

Lemma press_consistent E a (w : world) :
  consistent (state w) → consistent (state (press E a w).2).
Proof.
  intros Hw. pose proof Hw as [Hc Hn].
  destruct a as [key customer corpus| | | |method files|q| |custom]; cbn [press].
  - destruct (connect_button_state E key customer corpus w) as [-> | ->]; [done|].
    split; [|done]. simpl. split; [by eexists|done].
  - unfold mbind, io_bind, get_session.
    destruct (connected (state w) && bool_decide (is_Some (vectara_client (state w))));
      [|done].
    split; [|done]. simpl. split; [done|]. by intros [? ?].
  - by rewrite view_documents_button_state.
  - by rewrite (proj2 (test_permissions_button_spec E w)).
  - destruct (connected (state w)) eqn:Hconn.
    + destruct (proj1 Hc eq_refl) as [client Hclient].
      destruct (upload_tab_spec E client method files true w Hclient Hconn)
        as (w' & events & -> & _ & Hconn' & Hclient' & _ & Hnd & _).
      split; [|by apply Hnd]. simpl. rewrite Hconn', Hclient'. split; [by eexists|done].
    + unfold upload_tab, mbind, io_bind, get_session. rewrite Hconn. exact Hw.
  - destruct (connected (state w)) eqn:Hconn.
    + destruct (proj1 Hc eq_refl) as [client Hclient].
      pose proof (query_tab_spec E client q true w Hclient Hconn) as H. cbn zeta in H.
      destruct (true && negb (bool_decide (q = ""))); [|rewrite H; exact Hw].
      destruct (query_verdict _) as [response [e|]]; rewrite H; [exact Hw|].
      split; [|done]. simpl. rewrite Hconn, Hclient. split; [by eexists|done].
    + unfold query_tab, mbind, io_bind, get_session. rewrite Hconn. exact Hw.
  - unfold mbind, io_bind, get_session.
    destruct (connected (state w)) eqn:Hconn; [|exact Hw].
    split; [|done]. simpl. by rewrite Hconn.
  - destruct (connected (state w)) eqn:Hconn.
    + destruct (proj1 Hc eq_refl) as [client Hclient].
      rewrite (comparison_tab_spec E client custom w Hclient Hconn). cbn zeta.
      destruct (query_verdict _) as [response [e|]]; [exact Hw|].
      destruct (truthy response); [|exact Hw].
      destruct (extract_metrics_from_response _ _); exact Hw.
    + unfold comparison_tab, mbind, io_bind, get_session. rewrite Hconn. exact Hw.
Qed.

Lemma presses_consistent E actions (w : world) :
  consistent (state w) → consistent (state (after_presses E actions w)).
Proof.
  revert w. induction actions as [|a actions IH]; intros w Hw; [done|].
  apply IH. by apply press_consistent.
Qed.

(** X16: however the page is used after its first load, and whatever the
    service answers, the session has a client exactly when it is
    connected and lists no uploaded file twice; hence the upload tab, the
    "Search" button and the permission test never raise. *)
Theorem session_stays_consistent E actions method files query_input :
  let w := after_presses E actions fresh_world in
  (connected (state w) = true ↔ is_Some (vectara_client (state w))) ∧
  NoDup (uploaded_files_list (state w)) ∧
  returns (upload_tab E method files true w).1 ∧
  returns (query_tab E query_input true w).1 ∧
  returns (test_permissions_button E w).1.
Proof.
  intros w.
  assert (consistent (state w)) as [Hc Hn].
  { apply presses_consistent. split; [|constructor]. simpl. split; [done|by intros [? ?]]. }
  split_and!; [done | done | | | apply test_permissions_button_spec].
  - destruct (connected (state w)) eqn:Hconn.
    + destruct (proj1 Hc eq_refl) as [client Hclient].
      destruct (upload_tab_spec E client method files true w Hclient Hconn)
        as (w' & events & -> & _). by eexists.
    + unfold upload_tab, mbind, io_bind, get_session. rewrite Hconn. by eexists.
  - destruct (connected (state w)) eqn:Hconn.
    + destruct (proj1 Hc eq_refl) as [client Hclient].
      pose proof (query_tab_spec E client query_input true w Hclient Hconn) as H.
      cbn zeta in H.
      destruct (true && negb (bool_decide (query_input = ""))); [|rewrite H; by eexists].
      destruct (query_verdict _) as [response [e|]]; rewrite H; by eexists.
    + unfold query_tab, mbind, io_bind, get_session. rewrite Hconn. by eexists.
Qed.

Lemma upload_tab_no_client E method files button (w : world) :
  vectara_client (state w) = None →
  state (upload_tab E method files button w).2 = state w.
Proof.
  intros Hclient.
  destruct (upload_tab E method files button w) as [r w'] eqn:Hrun. revert Hrun.
  unfold upload_tab, mbind at 1, io_bind at 1, get_session. cbv beta zeta.
  rewrite ?Hclient.
  destruct (negb (connected (state w))); [by intros [= _ <-]|].
  destruct (negb (bool_decide (length files = 0%nat)) && button) eqn:Hb;
    [|by intros [= _ <-]].
  destruct files as [|file files]; [done|].
  unfold mbind at 1, io_bind at 1. cbn [upload_loop].
  unfold mbind at 1, io_bind at 1, emit at 1.
  unfold mbind at 1, io_bind at 1, no_client, lift. by intros [= _ <-].
Qed.

Lemma query_tab_no_client E query_input button (w : world) :
  vectara_client (state w) = None →
  state (query_tab E query_input button w).2 = state w.
Proof.
  intros Hclient.
  destruct (query_tab E query_input button w) as [r w'] eqn:Hrun. revert Hrun.
  unfold query_tab, mbind at 1, io_bind at 1, get_session. cbv beta zeta.
  rewrite ?Hclient.
  destruct (negb (connected (state w))); [by intros [= _ <-]|].
  destruct (button && negb (bool_decide (query_input = ""))); by intros [= _ <-].
Qed.

Lemma comparison_tab_no_client E custom button (w : world) :
  vectara_client (state w) = None →
  state (comparison_tab E custom button w).2 = state w.
Proof.
  intros Hclient.
  destruct (comparison_tab E custom button w) as [r w'] eqn:Hrun. revert Hrun.
  unfold comparison_tab, mbind at 1, io_bind at 1, get_session. cbv beta zeta.
  rewrite ?Hclient.
  destruct (negb (connected (state w))); [by intros [= _ <-]|].
  destruct button; by intros [= _ <-].
Qed.

(** X17: which button owns which part of the session, whatever the service
    answers and even when a handler raises.  The list of uploaded files
    is changed by the upload only; the conversation by "Search" and
    "Clear History" only; the client and the connected flag by "Connect"
    and "Disconnect" only.  So "Disconnect" clears neither the list nor
    the conversation, and both are there again after the next
    "Connect", to whatever corpus. *)
Theorem session_field_owners E a (w : world) :
  let s := state w in
  let s' := state (press E a w).2 in
  ((∀ method files, a ≠ Upload method files) →
   uploaded_files_list s' = uploaded_files_list s) ∧
  ((∀ q, a ≠ Ask q) → a ≠ ClearHistory → chat_history s' = chat_history s) ∧
  ((∀ key customer corpus, a ≠ Connect key customer corpus) → a ≠ Disconnect →
   vectara_client s' = vectara_client s ∧ connected s' = connected s).
Proof.
  intros s s'. subst s s'.
  destruct a as [key customer corpus| | | |method files|q| |custom]; cbn [press].
  - destruct (connect_button_state E key customer corpus w) as [-> | ->];
      (split_and!; [done | done |]); intros H; by destruct (H key customer corpus).
  - unfold mbind, io_bind, get_session.
    destruct (connected (state w) && bool_decide (is_Some (vectara_client (state w))));
      split_and!; done.
  - rewrite view_documents_button_state. done.
  - rewrite (proj2 (test_permissions_button_spec E w)). done.
  - split; [intros H; by destruct (H method files)|].
    destruct (vectara_client (state w)) as [client|] eqn:Hclient;
      [|by rewrite upload_tab_no_client].
    destruct (connected (state w)) eqn:Hconn.
    + destruct (upload_tab_spec E client method files true w Hclient Hconn)
        as (w' & events & -> & _ & Hconn' & Hclient' & Hch & _).
      cbn [snd]. by rewrite Hconn', Hclient', Hch.
    + unfold upload_tab, mbind, io_bind, get_session. rewrite Hconn. cbn.
      by rewrite ?Hclient, ?Hconn.
  - split_and!; [|intros H; by destruct (H q)|].
    + destruct (vectara_client (state w)) as [client|] eqn:Hclient;
        [|by rewrite query_tab_no_client].
      destruct (connected (state w)) eqn:Hconn.
      * pose proof (query_tab_spec E client q true w Hclient Hconn) as H. cbn zeta in H.
        destruct (true && negb (bool_decide (q = ""))); [|by rewrite H].
        destruct (query_verdict _) as [response [e|]]; by rewrite H.
      * unfold query_tab, mbind, io_bind, get_session. by rewrite Hconn.
    + destruct (vectara_client (state w)) as [client|] eqn:Hclient;
        [|rewrite query_tab_no_client by done; by rewrite ?Hclient].
      destruct (connected (state w)) eqn:Hconn.
      * pose proof (query_tab_spec E client q true w Hclient Hconn) as H. cbn zeta in H.
        destruct (true && negb (bool_decide (q = "")));
          [|rewrite H; by rewrite ?Hclient, ?Hconn].
        destruct (query_verdict _) as [response [e|]]; rewrite H; cbn;
          by rewrite ?Hclient, ?Hconn.
      * unfold query_tab, mbind, io_bind, get_session. rewrite Hconn. cbn.
        by rewrite ?Hclient, ?Hconn.
  - unfold mbind, io_bind, get_session.
    destruct (connected (state w)) eqn:Hconn; split_and!; done.
  - assert (state (comparison_tab E custom true w).2 = state w) as ->; [|done].
    destruct (vectara_client (state w)) as [client|] eqn:Hclient;
      [|by rewrite comparison_tab_no_client].
    destruct (connected (state w)) eqn:Hconn.
    + rewrite (comparison_tab_spec E client custom w Hclient Hconn). cbn zeta.
      destruct (query_verdict _) as [response [e|]]; [done|].
      destruct (truthy response); [|done].
      by destruct (extract_metrics_from_response _ _).
    + unfold comparison_tab, mbind, io_bind, get_session. by rewrite Hconn.
Qed.

(** X18: the button "Connect to Vectara".  With a field left empty it
    warns and sends nothing.  Otherwise it sends the corpus request of a
    client made of the three fields, once; on status 200 the session
    holds that client and is connected; on any other outcome the session
    is left exactly as it was, so a failed attempt while connected leaves
    the earlier client in place, and the message of [test_connection] is
    shown. *)
Theorem connect_outcomes E key customer corpus (w : world) :
  let client := VectaraClient_init key customer corpus in
  let run := connect_button E key customer corpus w in
  (key = "" ∨ customer = "" ∨ corpus = "" →
   run = (Ret (), shown (Warning "Please fill in all fields") w)) ∧
  (key ≠ "" → customer ≠ "" → corpus ≠ "" →
   run.1 = Ret () ∧
   calls run.2 = calls w ++ [corpus_request client] ∧
   ((∃ r, remote E (calls w) (corpus_request client) = Responded r ∧
          status_code r = 200%Z) ∧
    state run.2 = {| vectara_client := Some client;
                     uploaded_files_list := uploaded_files_list (state w);
                     chat_history := chat_history (state w);
                     connected := true |} ∧
    screen run.2 = screen w ++ [Success "Connected successfully!"; Rerun]
    ∨
    (¬ ∃ r, remote E (calls w) (corpus_request client) = Responded r ∧
            status_code r = 200%Z) ∧
    state run.2 = state w ∧
    ∃ msg, (test_connection E client w).1 = Ret (false, msg) ∧
           screen run.2 = screen w ++
             [Error ("Connection failed: " +:+ msg);
              Notice "Please check the troubleshooting guide above"])).
Proof.
  intros client run. subst run. split.
  - intros H. unfold connect_button.
    assert (negb (bool_decide (key = "")) && negb (bool_decide (customer = ""))
            && negb (bool_decide (corpus = "")) = false) as ->; [|done].
    destruct H as [-> | [-> | ->]]; rewrite ?andb_false_r; done.
  - intros Hk Hc Hi.
    destruct (connect_button E key customer corpus w) as [r w'] eqn:Hrun. revert Hrun.
    unfold connect_button. rewrite !bool_decide_eq_false_2 by done. cbn [negb andb].
    unfold mbind at 1, io_bind at 1. rewrite initialize_vectara_run. cbn zeta.
    rewrite test_connection_run. fold client. cbn [fst snd].
    unfold connection_verdict.
    destruct (remote E (calls w) (corpus_request client)) as [resp|msg].
    + case_bool_decide as H200.
      * intros [= <- <-]. split_and!; [done | done |]. left.
        split_and!; [by exists resp | done |].
        cbn [screen shown with_session record_call]. by rewrite <- app_assoc.
      * assert (∀ m : string,
          (let '(c, error) := (@None VectaraClient, Some m) in
           match c with
           | Some c0 =>
               s ← get_session;
               set_session {| vectara_client := Some c0;
                              uploaded_files_list := uploaded_files_list s;
                              chat_history := chat_history s; connected := true |};;
               emit (Success "Connected successfully!");; emit Rerun
           | None =>
               emit (Error ("Connection failed: " +:+ fmt error));;
               emit (Notice "Please check the troubleshooting guide above")
           end) (record_call (corpus_request client) w) = (r, w') →
          r = Ret () ∧ calls w' = calls w ++ [corpus_request client] ∧
          state w' = state w ∧
          screen w' = screen w ++ [Error ("Connection failed: " +:+ m);
                                   Notice "Please check the troubleshooting guide above"])
          as Hfail.
        { intros m [= <- <-]. split_and!; try done.
          cbn [screen shown record_call]. by rewrite <- app_assoc. }
        assert (¬ ∃ r0, Responded resp = Responded r0 ∧ status_code r0 = 200%Z) as Hno.
        { by intros (r0 & [= <-] & ?). }
        repeat case_bool_decide; intros (-> & Hcalls & Hstate & Hscreen)%Hfail;
          (split_and!; [done | done |]); right; (split_and!; [done | done |]);
          eexists; (split; [reflexivity | exact Hscreen]).
    + intros [= <- <-]. split_and!; [done | done |]. right.
      split_and!; [by intros (? & ? & _) | done |].
      eexists. split; [reflexivity|].
      cbn [screen shown record_call]. by rewrite <- app_assoc.
Qed.

Lemma connect_outcomes_witness :
  let client := VectaraClient_init "key" "7" "reports" in
  let earlier := connected_world (VectaraClient_init "old key" "1" "archive") in
  let accepted := connect_button (fixed_env (answer 200 "")) "key" "7" "reports" fresh_world in
  let refused := connect_button (fixed_env (answer 404 "")) "key" "7" "reports" earlier in
  let down := connect_button (fixed_env (Failed "timed out")) "key" "7" "reports" earlier in
  (accepted.1 = Ret () ∧
   calls accepted.2 = [corpus_request client] ∧
   state accepted.2 = {| vectara_client := Some client; uploaded_files_list := [];
                         chat_history := []; connected := true |} ∧
   screen accepted.2 = [Success "Connected successfully!"; Rerun]) ∧
  (refused.1 = Ret () ∧
   calls refused.2 = [corpus_request client] ∧
   state refused.2 = state earlier ∧
   ∃ msg, (test_connection (fixed_env (answer 404 "")) client earlier).1 = Ret (false, msg) ∧
          screen refused.2 = [Error ("Connection failed: " +:+ msg);
                              Notice "Please check the troubleshooting guide above"]) ∧
  (down.1 = Ret () ∧
   calls down.2 = [corpus_request client] ∧
   state down.2 = state earlier ∧
   ∃ msg, (test_connection (fixed_env (Failed "timed out")) client earlier).1 = Ret (false, msg) ∧
          screen down.2 = [Error ("Connection failed: " +:+ msg);
                           Notice "Please check the troubleshooting guide above"]) ∧
  connect_button (fixed_env (answer 404 "")) "key" "" "reports" fresh_world
  = (Ret (), shown (Warning "Please fill in all fields") fresh_world).
Proof.
  cbv zeta. split; [|split; [|split]].
  - destruct (proj2 (connect_outcomes (fixed_env (answer 200 "")) "key" "7" "reports"
                       fresh_world) ltac:(done) ltac:(done) ltac:(done))
      as (Hret & Hcalls & [(_ & Hstate & Hscreen) | (Hno & _)]).
    + split; [exact Hret | split; [exact Hcalls | split; [exact Hstate | exact Hscreen]]].
    + exfalso. apply Hno. eexists. split; reflexivity.
  - destruct (proj2 (connect_outcomes (fixed_env (answer 404 "")) "key" "7" "reports"
                       (connected_world (VectaraClient_init "old key" "1" "archive")))
                       ltac:(done) ltac:(done) ltac:(done))
      as (Hret & Hcalls & [((r & [= <-] & H200) & _) | (_ & Hstate & Hshown)]).
    + discriminate H200.
    + split; [exact Hret | split; [exact Hcalls | split; [exact Hstate | exact Hshown]]].
  - destruct (proj2 (connect_outcomes (fixed_env (Failed "timed out")) "key" "7" "reports"
                       (connected_world (VectaraClient_init "old key" "1" "archive")))
                       ltac:(done) ltac:(done) ltac:(done))
      as (Hret & Hcalls & [((r & Hr & _) & _) | (_ & Hstate & Hshown)]).
    + discriminate Hr.
    + split; [exact Hret | split; [exact Hcalls | split; [exact Hstate | exact Hshown]]].
  - apply (proj1 (connect_outcomes (fixed_env (answer 404 "")) "key" "" "reports" fresh_world)).
    right. by left.
Defined.

(** ** Custom metric names *)

Lemma elem_of_rev {A} (x : A) (l : list A) : x ∈ rev l ↔ x ∈ l.
Proof.
  induction l as [|a l IH]; simpl; [done|].
  rewrite elem_of_app, IH, list_elem_of_singleton, elem_of_cons. tauto.
Qed.

Lemma split_commas_plain s cur :
  ","%char ∉ s → split_commas s cur = [rev cur ++ s].
Proof.
  revert cur. induction s as [|c s IH]; intros cur Hs; simpl.
  - by rewrite app_nil_r.
  - apply not_elem_of_cons in Hs as [Hc Hs].
    destruct (Ascii.eqb_spec c ","); [done|].
    rewrite IH by done. simpl. by rewrite <- app_assoc.
Qed.

Lemma split_commas_comma s rest cur :
  ","%char ∉ s →
  split_commas (s ++ ","%char :: rest) cur = (rev cur ++ s) :: split_commas rest [].
Proof.
  revert cur. induction s as [|c s IH]; intros cur Hs; simpl.
  - by rewrite app_nil_r.
  - apply not_elem_of_cons in Hs as [Hc Hs].
    destruct (Ascii.eqb_spec c ","); [done|].
    rewrite IH by done. simpl. by rewrite <- app_assoc.
Qed.

Lemma split_commas_length s cur :
  length (split_commas s cur) = S (length (filter (λ c, c = ","%char) s)).
Proof.
  revert cur. induction s as [|c s IH]; intros cur; simpl; [done|].
  destruct (Ascii.eqb_spec c ",") as [->|Hc].
  - rewrite filter_cons_True by done. simpl. by rewrite IH.
  - rewrite filter_cons_False by done. apply IH.
Qed.

Lemma lstrip_head s :
  match lstrip s with
  | c :: _ => is_space c = false
  | [] => True
  end.
Proof.
  induction s as [|c s IH]; simpl; [done|].
  destruct (is_space c) eqn:Hc; [done|]. done.
Qed.

Lemma lstrip_fixed s :
  match s with
  | c :: _ => is_space c = false
  | [] => True
  end → lstrip s = s.
Proof. destruct s as [|c s]; simpl; [done|]. by intros ->. Qed.

Lemma lstrip_suffix s : ∃ sp, s = sp ++ lstrip s ∧ spaces sp.
Proof.
  induction s as [|c s (sp & IH & Hsp)]; simpl; [exists []; split; [done | constructor]|].
  destruct (is_space c) eqn:Hc; [|exists []; split; [done | constructor]].
  exists (c :: sp). split; [simpl; by f_equal | by constructor].
Qed.

Lemma spaces_rev sp : spaces sp → spaces (rev sp).
Proof.
  induction 1 as [|c sp Hc _ IH]; simpl; [constructor|].
  apply Forall_app. split; [done | by repeat constructor].
Qed.

(** [strip] takes white space away from the two ends and nothing else,
    and leaves none at either end. *)
Lemma strip_spec s :
  ∃ l r, s = l ++ strip s ++ r ∧ spaces l ∧ spaces r ∧ trimmed (strip s).
Proof.
  unfold strip.
  destruct (lstrip_suffix s) as (l & Hs & Hl).
  destruct (lstrip_suffix (rev (lstrip s))) as (sp & Hr & Hsp).
  set (t := lstrip s) in *. set (u := lstrip (rev t)) in *.
  assert (t = rev u ++ rev sp) as Ht.
  { rewrite <- rev_app_distr, <- Hr. by rewrite rev_involutive. }
  exists l, (rev sp). split_and!; [by rewrite <- Ht | done | by apply spaces_rev |].
  split.
  - pose proof (lstrip_head s) as Hhead. fold t in Hhead. rewrite Ht in Hhead.
    by destruct (rev u).
  - rewrite rev_involutive. apply lstrip_head.
Qed.

Lemma trimmed_strip s : trimmed s → strip s = s.
Proof.
  intros [H1 H2]. unfold strip.
  rewrite (lstrip_fixed s H1), (lstrip_fixed (rev s) H2). apply rev_involutive.
Qed.

Lemma strip_space s : strip (" "%char :: s) = strip s.
Proof. reflexivity. Qed.

Lemma chars_join_commas name names :
  chars (join_commas (name :: names))
  = chars name ++ concat ((λ m, ","%char :: " "%char :: chars m) <$> names).
Proof.
  revert name. induction names as [|m names IH]; intros name.
  - simpl. by rewrite app_nil_r.
  - change (join_commas (name :: m :: names))
      with (name +:+ ", " +:+ join_commas (m :: names)).
    rewrite !chars_app, IH. reflexivity.
Qed.

Lemma split_joined (n : list ascii) names cur :
  ","%char ∉ n → Forall (λ m, ","%char ∉ chars m) names →
  split_commas (n ++ concat ((λ m, ","%char :: " "%char :: chars m) <$> names)) cur
  = (rev cur ++ n) :: ((λ m, " "%char :: chars m) <$> names).
Proof.
  intros Hn Hnames. revert n cur Hn.
  induction Hnames as [|m names Hm _ IH]; intros n cur Hn.
  - simpl. rewrite app_nil_r. by apply split_commas_plain.
  - cbn [fmap list_fmap concat].
    change ((","%char :: " "%char :: chars m) ++ ?r)
      with (","%char :: (" "%char :: chars m) ++ r).
    rewrite split_commas_comma by done. f_equal.
    rewrite IH; [done|]. apply not_elem_of_cons. split; [done|exact Hm].
Qed.

Lemma split_commas_spec s :
  ∀ cur, ","%char ∉ cur →
    split_commas s cur ≠ [] ∧
    rev cur ++ s = comma_joined (split_commas s cur) ∧
    Forall (λ p, ","%char ∉ p) (split_commas s cur).
Proof.
  induction s as [|c s IH]; intros cur Hcur; simpl.
  - rewrite app_nil_r. split_and!; [done | done |].
    constructor; [by rewrite elem_of_rev | constructor].
  - destruct (Ascii.eqb_spec c ",") as [->|Hc].
    + destruct (IH [] (not_elem_of_nil _)) as (Hne & Hjoin & Hno). simpl in Hjoin.
      split_and!; [done | | constructor; [by rewrite elem_of_rev | done]].
      destruct (split_commas s []) as [|p ps] eqn:Hsplit; [done|].
      change (comma_joined (rev cur :: p :: ps))
        with (rev cur ++ ","%char :: comma_joined (p :: ps)).
      by rewrite <- Hjoin.
    + destruct (IH (c :: cur)) as (Hne & Hjoin & Hno); [by apply not_elem_of_cons|].
      split_and!; [done | | done]. rewrite <- Hjoin. simpl. by rewrite <- app_assoc.
Qed.

Lemma string_of_chars (s : string) : string_of_list_ascii (chars s) = s.
Proof. apply string_of_list_ascii_of_string. Qed.

(** X19: the custom metrics are read back from the text that joins them.
    For names without commas and without white space at their ends,
    joined by ", " as the query text joins them, the comparison tab works
    on the four default names followed by exactly these names, in order.
    The one exception is the list made of the empty name alone: its
    joined text is empty, and an empty text is read back as no name. *)
Theorem custom_metrics_round_trip (names : list string) :
  Forall clean names →
  (names ≠ [""] → all_metrics (join_commas names) = default_metrics ++ names) ∧
  all_metrics (join_commas [""]) = default_metrics.
Proof.
  intros Hclean. split; [|reflexivity]. intros Hne. unfold all_metrics.
  destruct names as [|name names].
  { reflexivity. }
  assert (join_commas (name :: names) ≠ "") as Hjoin.
  { intros H. apply (f_equal chars) in H. rewrite chars_join_commas in H.
    apply app_eq_nil in H as [Hn Hc].
    destruct names as [|m names]; [|done].
    apply Hne. f_equal. by rewrite <- (string_of_chars name), Hn. }
  rewrite bool_decide_eq_false_2 by done. f_equal.
  change (list_ascii_of_string (join_commas (name :: names)))
    with (chars (join_commas (name :: names))).
  inversion Hclean as [|? ? [Hcomma Hstrip%trimmed_strip] Hrest]; subst.
  rewrite chars_join_commas, split_joined; [|done|].
  - cbn [fmap list_fmap app rev]. rewrite Hstrip, string_of_chars. f_equal.
    rewrite <- list_fmap_compose. clear Hjoin Hne Hclean.
    induction Hrest as [|m ms [_ Hm%trimmed_strip] _ IH]; [done|].
    cbn [fmap list_fmap compose]. rewrite strip_space, Hm, string_of_chars. f_equal.
    exact IH.
  - eapply Forall_impl; [exact Hrest|]. by intros m [? _].
Qed.

Lemma custom_metrics_round_trip_witness :
  all_metrics (join_commas ["Operating Expenses"; ""; "Cash Flow"])
  = default_metrics ++ ["Operating Expenses"; ""; "Cash Flow"].
Proof.
  apply (custom_metrics_round_trip ["Operating Expenses"; ""; "Cash Flow"]).
  - repeat constructor; try reflexivity; apply (bool_decide_unpack _); vm_compute; exact I.
  - done.
Defined.

(** X20: how the custom metrics are split.  An empty input adds nothing.
    Any other input is cut at its commas into pieces, one more than it
    has commas, and adds after the four default names, piece by piece
    and in order, the name read from each piece: the piece without the
    white space at its two ends.  No piece is dropped, an empty one (as
    after a trailing comma) included. *)
Theorem custom_metrics_entries (custom : string) :
  all_metrics "" = default_metrics ∧
  (custom ≠ "" →
   ∃ pieces added,
     chars custom = comma_joined pieces ∧
     Forall (λ p, ","%char ∉ p) pieces ∧
     length pieces = S (commas custom) ∧
     Forall2 read_from pieces added ∧
     Forall clean added ∧
     all_metrics custom = default_metrics ++ added).
Proof.
  split; [done|]. intros Hne. unfold all_metrics.
  rewrite bool_decide_eq_false_2 by done.
  destruct (split_commas_spec (list_ascii_of_string custom) [] (not_elem_of_nil _))
    as (_ & Hjoin & Hno).
  eexists (split_commas (list_ascii_of_string custom) []), _.
  split_and!; [exact Hjoin | exact Hno | apply split_commas_length | | | reflexivity].
  - apply Forall2_fmap_r, Forall_Forall2_diag.
    eapply Forall_impl; [exact Hno|]. intros p _. unfold read_from, compose. cbn beta.
    rewrite chars_of_list.
    destruct (strip_spec p) as (l & r & Hp & Hl & Hr & Ht). by exists l, r.
  - apply Forall_fmap. eapply Forall_impl; [exact Hno|]. intros p Hp.
    unfold clean, compose. cbn beta. rewrite chars_of_list.
    destruct (strip_spec p) as (l & r & Hsplit & _ & _ & Ht). split; [|done].
    intros Hin. apply Hp. rewrite Hsplit, !elem_of_app. auto.
Qed.

Lemma custom_metrics_entries_witness :
  ∃ pieces added,
    chars " Cash Flow ,,EBITDA," = comma_joined pieces ∧
    Forall (λ p, ","%char ∉ p) pieces ∧
    length pieces = S (commas " Cash Flow ,,EBITDA,") ∧
    Forall2 read_from pieces added ∧
    Forall clean added ∧
    all_metrics " Cash Flow ,,EBITDA," = default_metrics ++ added.
Proof.
  apply (custom_metrics_entries " Cash Flow ,,EBITDA,"). done.
Defined.

(** ** What the tabs display *)

(** X21: the listing of the corpus.  When the service answers the listing
    request with 200 and an object whose "documents" is a list of
    objects, the button shows the number of all documents, then the ids
    of the first ten only, numbered from 1, with "N/A" for a document
    without an id. *)
Theorem documents_listing_first_ten E py_str client (w : world) r fields
    (docs : list (list (string * JSON))) :
  vectara_client (state w) = Some client →
  connected (state w) = true →
  remote E (calls w) (documents_request client) = Responded r →
  status_code r = 200%Z →
  json_body r = inr (JObj fields) →
  assoc "documents" fields = Some (JArr (JObj <$> docs)) →
  ∃ w',
    view_documents_page E py_str w = (Ret (), w') ∧
    calls w' = calls w ++ [documents_request client] ∧
    screen w' = screen w ++
      Plain ("**Documents in corpus:** " +:+ pretty (length docs))
      :: imap (λ k doc, Plain (pretty (S k) +:+ ". ID: "
                               +:+ fstr py_str (default (JStr "N/A") (assoc "id" doc))))
           (take 10 docs).
Proof.
  intros Hclient Hconn Hr H200 Hbody Hdocs.
  unfold view_documents_page, mbind at 1, io_bind at 1, get_session.
  rewrite Hconn, Hclient. unfold mbind at 1, io_bind at 1.
  rewrite list_documents_run. unfold documents_verdict.
  rewrite Hr, bool_decide_eq_true_2, Hbody by done. cbn [nonempty].
  assert (truthy (JObj fields) = true) as -> by by destruct fields.
  unfold mbind at 1, io_bind at 1, lift. cbn [py_contains mret res_ret].
  rewrite Hdocs, bool_decide_eq_true_2 by by eexists.
  unfold documents_display, mbind at 1, io_bind at 1, lift.
  cbn [py_getitem]. rewrite Hdocs. cbn [mret res_ret].
  unfold mbind at 1, io_bind at 1. cbn [py_len mret res_ret].
  unfold mbind at 1, io_bind at 1, emit at 1.
  unfold mbind at 1, io_bind at 1. cbn [py_take mret res_ret].
  rewrite length_fmap, <- fmap_take.
  set (w1 := shown _ _).
  assert (Hloop : ∀ (l : list (list (string * JSON))) i (x : world),
    for_enumerate (JObj <$> l) i
      (λ i doc, doc_id ← lift (py_get doc "id" (JStr "N/A"));
                emit (Plain (pretty i +:+ ". ID: " +:+ fstr py_str doc_id))) x
    = for_enumerate l i
        (λ i doc, emit (Plain (pretty i +:+ ". ID: "
                               +:+ fstr py_str (default (JStr "N/A") (assoc "id" doc))))) x).
  { induction l as [|doc l IH]; intros i x; [done|].
    cbn [fmap list_fmap for_enumerate]. unfold mbind at 1 3, io_bind at 1 3.
    unfold mbind at 1, io_bind at 1, lift. cbn [py_get mret res_ret].
    unfold emit at 1 2. apply IH. }
  rewrite Hloop.
  rewrite (for_enumerate_emit
             (λ i doc, pretty i +:+ ". ID: "
                       +:+ fstr py_str (default (JStr "N/A") (assoc "id" doc)))).
  eexists. split; [reflexivity|]. unfold w1. cbn [calls screen shown record_call].
  split; [done|]. rewrite <- app_assoc. reflexivity.
Qed.

Lemma documents_listing_first_ten_witness :
  let docs := [[("id", JStr "doc-1")]; [("title", JStr "untitled")]] in
  let r := {| status_code := 200; text := "";
              json_body := inr (JObj [("documents", JArr (JObj <$> docs))]) |} in
  let client := VectaraClient_init "key" "1" "corpus" in
  ∃ w',
    view_documents_page (fixed_env (Responded r)) (λ _, "") (connected_world client)
    = (Ret (), w') ∧
    calls w' = [documents_request client] ∧
    screen w' = [Plain "**Documents in corpus:** 2"; Plain "1. ID: doc-1"; Plain "2. ID: N/A"].
Proof.
  intros docs r client.
  exact (documents_listing_first_ten (fixed_env (Responded r)) (λ _, "") client
           (connected_world client) r [("documents", JArr (JObj <$> docs))] docs
           eq_refl eq_refl eq_refl eq_refl eq_refl eq_refl).
Defined.

(** ** The conversation *)

Lemma chat_display_scalar py_str format_3f (c : chat) (w : world) :
  scalar (chat_response c) = true →
  ∃ msg,
    chat_display py_str format_3f c w
    = (Raise (TypeError msg),
       shown (Plain ("**Q:** " +:+ chat_query c))
         (shown (Plain ("** " +:+ chat_timestamp c +:+ "**")) w)).
Proof.
  intros Hs. unfold chat_display, mbind, io_bind, emit, lift.
  destruct (chat_response c); try done; by eexists.
Qed.

Lemma history_scalar py_str format_3f (l : list chat) :
  Exists (λ c, scalar (chat_response c) = true) l →
  ∀ w : world,
    ¬ returns (foldr (λ c rest, chat_display py_str format_3f c;; rest) (mret ()) l w).1.
Proof.
  induction 1 as [c l Hc|c l _ IH]; intros w [a Ha]; cbn [foldr] in Ha;
    unfold mbind at 1, io_bind at 1 in Ha.
  - destruct (chat_display_scalar py_str format_3f c w Hc) as [msg Hrun].
    rewrite Hrun in Ha. done.
  - destruct (chat_display py_str format_3f c w) as [[[]|e|what] w1]; [|done|done].
    apply (IH w1). by exists a.
Qed.

(** X22: an answer that is no text, list or object breaks the
    conversation.  When the service answers a search with 200 and the
    body null, a boolean or a number, the entry is recorded all the same;
    from then on the display of the conversation raises [TypeError] right
    after the time and the question of that entry, and it keeps failing
    while the entry is in the conversation; after "Clear History" it
    returns and shows nothing. *)
Theorem scalar_answer_breaks_history E py_str format_3f client query_input
    (w : world) r v :
  vectara_client (state w) = Some client →
  connected (state w) = true →
  query_input ≠ "" →
  remote E (calls w) (query_request client query_input 10) = Responded r →
  status_code r = 200%Z →
  json_body r = inr v →
  scalar v = true →
  let w1 := (query_tab E query_input true w).2 in
  (∃ msg stamp,
     (history_display py_str format_3f w1).1 = Raise (TypeError msg) ∧
     screen (history_display py_str format_3f w1).2
     = screen w1 ++ [Plain ("** " +:+ stamp +:+ "**"); Plain ("**Q:** " +:+ query_input)]) ∧
  (∀ (w2 : world) c,
     c ∈ chat_history (state w2) → chat_response c = v →
     ¬ returns (history_display py_str format_3f w2).1) ∧
  history_display py_str format_3f (cleared w1) = (Ret (), cleared w1).
Proof.
  intros Hclient Hconn Hq Hr H200 Hbody Hv w1.
  pose proof (query_tab_spec E client query_input true w Hclient Hconn) as Hrun.
  cbn zeta in Hrun. rewrite (bool_decide_eq_false_2 (query_input = "")) in Hrun by done.
  cbn [andb negb] in Hrun. unfold query_verdict in Hrun.
  rewrite Hr, bool_decide_eq_true_2, Hbody in Hrun by done.
  assert (Hw1 : chat_history (state w1) = chat_history (state w) ++
            [{| chat_timestamp := now_isoformat E (ticks w); chat_query := query_input;
                chat_response := v |}]).
  { unfold w1. by rewrite Hrun. }
  split_and!.
  - destruct (chat_display_scalar py_str format_3f
                {| chat_timestamp := now_isoformat E (ticks w); chat_query := query_input;
                   chat_response := v |} w1 Hv) as [msg Hshow].
    assert (history_display py_str format_3f w1
            = (Raise (TypeError msg),
               shown (Plain ("**Q:** " +:+ query_input))
                 (shown (Plain ("** " +:+ now_isoformat E (ticks w) +:+ "**")) w1)))
      as ->.
    { unfold history_display, mbind at 1, io_bind at 1, get_session.
      rewrite Hw1, rev_app_distr. cbn [rev app foldr].
      unfold mbind at 1, io_bind at 1. by rewrite Hshow. }
    exists msg, (now_isoformat E (ticks w)). split; [done|].
    cbn [snd screen shown]. by rewrite <- app_assoc.
  - intros w2 c Hin Hc.
    unfold history_display, mbind at 1, io_bind at 1, get_session.
    apply history_scalar. apply Exists_exists. exists c. split; [|by rewrite Hc].
    by apply elem_of_rev.
  - unfold history_display, cleared, clear_history_button, mbind, io_bind,
      get_session, set_session, emit. done.
Qed.

Lemma scalar_answer_breaks_history_witness :
  let E := fixed_env (Responded {| status_code := 200; text := "null";
                                   json_body := inr JNull |}) in
  let client := VectaraClient_init "key" "1" "corpus" in
  let w1 := (query_tab E "total revenue" true (connected_world client)).2 in
  ∃ msg stamp,
    (history_display (λ _, "") (λ _, None) w1).1 = Raise (TypeError msg) ∧
    screen (history_display (λ _, "") (λ _, None) w1).2
    = screen w1 ++ [Plain ("** " +:+ stamp +:+ "**"); Plain ("**Q:** " +:+ "total revenue")].
Proof.
  intros E client w1.
  exact (proj1 (scalar_answer_breaks_history E (λ _, "") (λ _, None) client "total revenue"
                  (connected_world client)
                  {| status_code := 200; text := "null"; json_body := inr JNull |} JNull
                  eq_refl eq_refl ltac:(done) eq_refl eq_refl eq_refl eq_refl)).
Defined.

(** A conversation of one well-formed answer, as displayed: the answer,
    then each source with its score and its text. *)
Example history_display_answer :
  let response :=
    JObj [("summary", JStr "Revenue grew.");
          ("search_results",
           JArr [JObj [("text", JStr "Revenue: $1,234.56"); ("score", JNum 1)];
                 JObj [("text", JStr "Costs fell.")]])] in
  let w :=
    {| calls := []; ticks := 0; screen := [];
       state := {| vectara_client := None; uploaded_files_list := [];
                   chat_history := [{| chat_timestamp := "10:00:00";
                                       chat_query := "How was revenue?";
                                       chat_response := response |}];
                   connected := true |} |} in
  let format_3f (q : Q) := if Qeq_bool q 0 then Some "0.000" else Some "1.000" in
  (history_display (λ _, "") format_3f w).1 = Ret () ∧
  screen (history_display (λ _, "") format_3f w).2
  = [Plain "** 10:00:00**"; Plain "**Q:** How was revenue?"; Plain "**A:** Revenue grew.";
     Plain "**Source 1** (Score: 1.000)"; Plain "Revenue: $1,234.56"; Plain "---";
     Plain "**Source 2** (Score: 0.000)"; Plain "Costs fell."; Plain "---"].
Proof. split; vm_compute; reflexivity. Qed.
